(** * acertmgr: configuration resolution and certificate deployment

    A shallow embedding of [acertmgr/configuration.py] and
    [acertmgr/__init__.py].

    Python values are modelled by the inductive type [value]; a Python
    [str] is a Rocq [string] holding its UTF-8 bytes (every operation the
    program applies to strings -- splitting on a space, joining, prefix,
    suffix and substring tests, [ord(c) >= 128], MD5 of the UTF-8
    encoding -- reads the same on the bytes as on the code points).  A
    [dict] is an association list in insertion order, as Python keeps it.
    Numbers are integers.  Exceptions are values of type [exn]; code that
    can raise returns a [result]. *)

From Stdlib Require Import List String Ascii ZArith Lia Bool Permutation.
From stdpp Require Import gmap strings.
Import ListNotations.

Set Warnings "-register-all".
Open Scope string_scope.
Open Scope Z_scope.

(** ** Python runtime: values, exceptions, dicts, strings *)

Module Py.

Inductive value : Type :=
| VNone
| VBool (b : bool)
| VInt (z : Z)
| VStr (s : string)
| VList (l : list value)
| VDict (d : list (string * value)).

(** A [dict] with [str] keys. *)
Definition dictof (V : Type) : Type := list (string * V).
Definition dict : Type := dictof value.

Inductive exn : Type :=
| ValueError (msg : string)
| TypeError
| KeyError (key : string)
| AttributeError
| YAMLError
| FileNotFoundError (msg : string).

Definition result (A : Type) : Type := (exn + A)%type.

Definition ret {A} (a : A) : result A := inr a.
Definition raise {A} (e : exn) : result A := inl e.

Definition bind {A B} (m : result A) (k : A -> result B) : result B :=
  match m with
  | inl e => inl e
  | inr a => k a
  end.

(** [except ValueError] in [load]: is the exception a [ValueError]? *)
Definition is_ValueError (e : exn) : bool :=
  match e with
  | ValueError _ => true
  | _ => false
  end.

(** *** dict *)

Section Dict.
Context {V : Type}.

(** [d.get(k)] *)
Fixpoint dict_get (d : dictof V) (k : string) : option V :=
  match d with
  | [] => None
  | (k', v) :: d' => if String.eqb k' k then Some v else dict_get d' k
  end.

(** [k in d] *)
Definition dict_mem (k : string) (d : dictof V) : bool :=
  match dict_get d k with
  | Some _ => true
  | None => false
  end.

(** [d[k]] *)
Definition getitem (d : dictof V) (k : string) : result V :=
  match dict_get d k with
  | Some v => ret v
  | None => raise (KeyError k)
  end.

(** [d.get(k, default)] *)
Definition dict_get_default (d : dictof V) (k : string) (default : V) : V :=
  match dict_get d k with
  | Some v => v
  | None => default
  end.

(** [d[k] = v]: an existing key keeps its position, a new one goes last. *)
Fixpoint dict_set (d : dictof V) (k : string) (v : V) : dictof V :=
  match d with
  | [] => [(k, v)]
  | (k', v') :: d' =>
      if String.eqb k' k then (k', v) :: d' else (k', v') :: dict_set d' k v
  end.

(** [d.update(other)] *)
Definition dict_update (d other : dictof V) : dictof V :=
  fold_left (fun acc kv => dict_set acc (fst kv) (snd kv)) other d.

(** [d.keys()], [d.values()] *)
Definition dict_keys (d : dictof V) : list string := map fst d.
Definition dict_values (d : dictof V) : list V := map snd d.

End Dict.

(** [v == s] for a [str] [s] *)
Definition value_eq_str (v : value) (s : string) : bool :=
  match v with
  | VStr t => String.eqb t s
  | _ => false
  end.

(** *** str *)

Definition chars (s : string) : list ascii := list_ascii_of_string s.

(** [any(ord(c) >= 128 for c in s)]: on UTF-8 bytes, a byte of 128 or more
    occurs exactly when a code point of 128 or more does. *)
Definition has_non_ascii (s : string) : bool :=
  existsb (fun c => (128 <=? nat_of_ascii c)%nat) (chars s).

(** [s.startswith(p)] *)
Definition startswith (p s : string) : bool := String.prefix p s.

(** [p in s] for two [str] *)
Fixpoint str_contains (p s : string) : bool :=
  String.prefix p s ||
  match s with
  | EmptyString => false
  | String _ s' => str_contains p s'
  end.

(** [s.endswith(p)] *)
Definition endswith (p s : string) : bool :=
  let n := String.length s in
  let m := String.length p in
  (m <=? n)%nat && String.eqb (String.substring (n - m) m s) p.

(** [s[n:]] *)
Fixpoint drop_str (n : nat) (s : string) : string :=
  match n, s with
  | O, _ => s
  | S n', String _ s' => drop_str n' s'
  | S _, EmptyString => EmptyString
  end.

(** [s.split(sep)] for a one-character separator: empty fields are kept,
    and the empty string splits into one empty field. *)
Fixpoint split_go (sep : ascii) (s : string) (cur : string) : list string :=
  match s with
  | EmptyString => [cur]
  | String c s' =>
      if Ascii.eqb c sep then cur :: split_go sep s' EmptyString
      else split_go sep s' (cur ++ String c EmptyString)
  end.

Definition split (sep : ascii) (s : string) : list string :=
  split_go sep s EmptyString.

(** [sep.join(l)] *)
Fixpoint join (sep : string) (l : list string) : string :=
  match l with
  | [] => EmptyString
  | [x] => x
  | x :: l' => x ++ sep ++ join sep l'
  end.

(** The white space of [str.strip()], as UTF-8 byte strings: U+0009-000D,
    U+001C-0020, U+0085, U+00A0, U+1680, U+2000-200A, U+2028, U+2029,
    U+202F, U+205F, U+3000. *)
Definition bytes (l : list nat) : string :=
  string_of_list_ascii (map ascii_of_nat l).

Definition whitespace : list string :=
  map bytes
    (app [[9]; [10]; [11]; [12]; [13]; [28]; [29]; [30]; [31]; [32];
          [194; 133]; [194; 160]; [225; 154; 128]]
      (app (map (fun b => [226; 128; b])
                [128; 129; 130; 131; 132; 133; 134; 135; 136; 137; 138])
           [[226; 128; 168]; [226; 128; 169]; [226; 128; 175];
            [226; 129; 159]; [227; 128; 128]]))%nat.

Definition strip_one (s : string) : option string :=
  match List.filter (fun w => String.prefix w s) whitespace with
  | w :: _ => Some (drop_str (String.length w) s)
  | [] => None
  end.

Fixpoint lstrip_go (fuel : nat) (s : string) : string :=
  match fuel with
  | O => s
  | S fuel' =>
      match strip_one s with
      | Some s' => lstrip_go fuel' s'
      | None => s
      end
  end.

Definition lstrip (s : string) : string := lstrip_go (String.length s) s.

Definition rstrip_one (s : string) : option string :=
  match List.filter (fun w => endswith w s) whitespace with
  | w :: _ => Some (String.substring 0 (String.length s - String.length w) s)
  | [] => None
  end.

Fixpoint rstrip_go (fuel : nat) (s : string) : string :=
  match fuel with
  | O => s
  | S fuel' =>
      match rstrip_one s with
      | Some s' => rstrip_go fuel' s'
      | None => s
      end
  end.

Definition rstrip (s : string) : string := rstrip_go (String.length s) s.

(** [str.strip(s)] *)
Definition strip (s : string) : string := rstrip (lstrip s).

(** [os.path.join(a, b)] (posixpath) for [str] arguments *)
Definition path_join (a b : string) : string :=
  if startswith "/" b then b
  else if (String.eqb a "" || endswith "/" a)%bool then a ++ b
  else a ++ "/" ++ b.

(** [os.path.join(a, b)] where [a] is any value: a non-[str] raises. *)
Definition os_path_join (a : value) (b : string) : result string :=
  match a with
  | VStr a' => ret (path_join a' b)
  | _ => raise TypeError
  end.

End Py.

Export Py.

Declare Scope result_scope.
Delimit Scope result_scope with result.
Notation "'let*' x := m 'in' k" := (Py.bind m (fun x => k))
  (at level 10, x pattern, m at level 100, k at level 200) : result_scope.
Open Scope result_scope.

(** ** hashlib.md5 (RFC 1321), on 32-bit words held in [Z] *)

Module Hashlib.

Definition mask32 (x : Z) : Z := Z.land x 0xFFFFFFFF.

Definition add32 (x y : Z) : Z := mask32 (x + y).

Definition not32 (x : Z) : Z := Z.lxor x 0xFFFFFFFF.

Definition rotl32 (x c : Z) : Z :=
  mask32 (Z.lor (Z.shiftl x c) (Z.shiftr x (32 - c))).

Definition K : list Z :=
  [ 0xd76aa478; 0xe8c7b756; 0x242070db; 0xc1bdceee;
    0xf57c0faf; 0x4787c62a; 0xa8304613; 0xfd469501;
    0x698098d8; 0x8b44f7af; 0xffff5bb1; 0x895cd7be;
    0x6b901122; 0xfd987193; 0xa679438e; 0x49b40821;
    0xf61e2562; 0xc040b340; 0x265e5a51; 0xe9b6c7aa;
    0xd62f105d; 0x02441453; 0xd8a1e681; 0xe7d3fbc8;
    0x21e1cde6; 0xc33707d6; 0xf4d50d87; 0x455a14ed;
    0xa9e3e905; 0xfcefa3f8; 0x676f02d9; 0x8d2a4c8a;
    0xfffa3942; 0x8771f681; 0x6d9d6122; 0xfde5380c;
    0xa4beea44; 0x4bdecfa9; 0xf6bb4b60; 0xbebfbc70;
    0x289b7ec6; 0xeaa127fa; 0xd4ef3085; 0x04881d05;
    0xd9d4d039; 0xe6db99e5; 0x1fa27cf8; 0xc4ac5665;
    0xf4292244; 0x432aff97; 0xab9423a7; 0xfc93a039;
    0x655b59c3; 0x8f0ccc92; 0xffeff47d; 0x85845dd1;
    0x6fa87e4f; 0xfe2ce6e0; 0xa3014314; 0x4e0811a1;
    0xf7537e82; 0xbd3af235; 0x2ad7d2bb; 0xeb86d391 ].

Definition S : list Z :=
  [ 7; 12; 17; 22; 7; 12; 17; 22; 7; 12; 17; 22; 7; 12; 17; 22;
    5; 9; 14; 20; 5; 9; 14; 20; 5; 9; 14; 20; 5; 9; 14; 20;
    4; 11; 16; 23; 4; 11; 16; 23; 4; 11; 16; 23; 4; 11; 16; 23;
    6; 10; 15; 21; 6; 10; 15; 21; 6; 10; 15; 21; 6; 10; 15; 21 ].

Definition byte_values (s : string) : list Z :=
  map (fun c => Z.of_nat (nat_of_ascii c)) (list_ascii_of_string s).

(** [n] as [k] little-endian bytes *)
Fixpoint le_bytes (k : nat) (n : Z) : list Z :=
  match k with
  | O => []
  | Datatypes.S k' => Z.land n 0xFF :: le_bytes k' (Z.shiftr n 8)
  end.

(** Padding: a one bit, zeros up to 56 modulo 64, the bit length on 64 bits. *)
Definition pad (msg : list Z) : list Z :=
  let len := Z.of_nat (length msg) in
  let zeros := Z.to_nat ((55 - len) mod 64) in
  (msg ++ [0x80] ++ repeat 0 zeros
       ++ le_bytes 8 (Z.land (8 * len) 0xFFFFFFFFFFFFFFFF))%list.

Fixpoint le_word (bs : list Z) : Z :=
  match bs with
  | [] => 0
  | b :: bs' => b + 256 * le_word bs'
  end.

(** The sixteen 32-bit words of a 64-byte block. *)
Fixpoint words (k : nat) (block : list Z) : list Z :=
  match k with
  | O => []
  | Datatypes.S k' => le_word (firstn 4 block) :: words k' (skipn 4 block)
  end.

Fixpoint blocks (k : nat) (bs : list Z) : list (list Z) :=
  match k with
  | O => []
  | Datatypes.S k' => words 16 (firstn 64 bs) :: blocks k' (skipn 64 bs)
  end.

Definition state : Type := (Z * Z * Z * Z)%type.

Definition step (M : list Z) (st : state) (i : nat) : state :=
  let '(A, B, C, D) := st in
  let iz := Z.of_nat i in
  let '(F, g) :=
    if iz <? 16 then (Z.lor (Z.land B C) (Z.land (not32 B) D), iz)
    else if iz <? 32 then (Z.lor (Z.land D B) (Z.land (not32 D) C), (5 * iz + 1) mod 16)
    else if iz <? 48 then (Z.lxor (Z.lxor B C) D, (3 * iz + 5) mod 16)
    else (Z.lxor C (Z.lor B (not32 D)), (7 * iz) mod 16) in
  let F' := add32 (add32 (add32 F A) (nth i K 0)) (nth (Z.to_nat g) M 0) in
  (D, add32 B (rotl32 F' (nth i S 0)), B, C).

Definition compress (st : state) (M : list Z) : state :=
  let '(a0, b0, c0, d0) := st in
  let '(A, B, C, D) := fold_left (step M) (seq 0 64) st in
  (add32 a0 A, add32 b0 B, add32 c0 C, add32 d0 D).

Definition init : state := (0x67452301, 0xefcdab89, 0x98badcfe, 0x10325476).

Definition md5_digest (s : string) : list Z :=
  let padded := pad (byte_values s) in
  let '(a, b, c, d) :=
    fold_left compress (blocks (length padded / 64) padded) init in
  (le_bytes 4 a ++ le_bytes 4 b ++ le_bytes 4 c ++ le_bytes 4 d)%list.

Definition hex_digit (n : Z) : ascii :=
  nth (Z.to_nat n) (list_ascii_of_string "0123456789abcdef") "0"%char.

Definition hex_byte (b : Z) : string :=
  String (hex_digit (Z.shiftr b 4)) (String (hex_digit (Z.land b 0xF)) EmptyString).

(** [hashlib.md5(s.encode('utf-8')).hexdigest()] *)
Definition md5_hexdigest (s : string) : string :=
  String.concat "" (map hex_byte (md5_digest s)).

End Hashlib.

(** ** acertmgr/configuration.py *)

Module Configuration.
Import Hashlib.

(** Backward compatiblity for older versions/installations of acertmgr *)
Definition LEGACY_WORK_DIR : string := "/etc/acme".
Definition LEGACY_CONF_FILE : string := path_join LEGACY_WORK_DIR "acme.conf".
Definition LEGACY_CONF_DIR : string := path_join LEGACY_WORK_DIR "domains.d".

(** Configuration defaults to use if not specified otherwise *)
Definition DEFAULT_CONF_FILE : string := "/etc/acertmgr/acertmgr.conf".
Definition DEFAULT_CONF_DIR : string := "/etc/acertmgr".
Definition DEFAULT_KEY_LENGTH : Z := 4096.
Definition DEFAULT_TTL : Z := 30.
Definition DEFAULT_API : string := "v2".
Definition DEFAULT_AUTHORITY : string := "https://acme-v02.api.letsencrypt.org".
Definition LEGACY_API : string := "v1".
Definition LEGACY_AUTHORITY : string := "https://acme-v01.api.letsencrypt.org".
Definition LEGACY_AUTHORITY_TOS_AGREEMENT : string := "true".

(** What the module takes from libraries and from the interpreter.
    A domain-group file parses to a mapping from a domain key to a list of
    override documents (JSON objects); [json_load] and [yaml_safe_load]
    stand for [json.load(fd).items()] and [yaml.safe_load(fd).items()] on
    the text of such a file, and raise for a text that is not one.  The
    global file parses to one JSON object.

    The documents are values, so every document of every entry is an
    object of its own, as the JSON parser makes them.  A YAML text can make
    one document part of two entries (an anchor and its alias): what
    [complete_action_config] writes into it for the first entry is then
    read for the second, which resolving the two entries as values does
    not show. *)
Record Libs : Type := {
  (** ['idna' in sys.modules] *)
  idna_loaded : bool;
  (** [idna.encode(s).decode('utf-8')]; [None] when it raises [IDNAError],
      which is a [UnicodeError] and so a [ValueError] *)
  idna_encode : string -> option string;
  (** [int(s)] for a [str]; [None] when it raises [ValueError] *)
  int_of_str : string -> option Z;
  json_load : string -> result (list (string * list dict));
  yaml_safe_load : string -> result (list (string * list dict));
  json_load_global : string -> result dict;
  yaml_safe_load_global : string -> result dict;
  (** [os.path.abspath] *)
  abspath : string -> string
}.

(** The command line, as [argparse] returns it: every option takes an
    optional value ([nargs="?"]). *)
Record Args : Type := {
  arg_config_file : option string;
  arg_config_dir : option string;
  arg_work_dir : option string;
  arg_authority_tos_agreement : option string;
  arg_force_renew : option string;
  arg_revoke : option string;
  arg_revoke_reason : option Z
}.

(** [if args.x:] holds for a [str] that is not empty. *)
Definition given (a : option string) : option string :=
  match a with
  | Some s => if String.eqb s "" then None else Some s
  | None => None
  end.

(** What [load] reads from the disk. *)
Record Disk : Type := {
  (** [os.path.isfile(LEGACY_CONF_FILE)] *)
  legacy_conf_file_exists : bool;
  (** [os.path.isdir(LEGACY_CONF_DIR)] *)
  legacy_conf_dir_exists : bool;
  (** [os.path.isdir(LEGACY_WORK_DIR)] *)
  legacy_work_dir_exists : bool;
  (** the text of the file at a path, when it is a file *)
  file_text : string -> option string;
  (** [os.listdir(dir)] with the text of each entry, when [dir] is a
      directory *)
  listdir : string -> option (list (string * string))
}.

Section WithLibs.
Context (L : Libs).

(** [int(v)] *)
Definition py_int (v : value) : result Z :=
  match v with
  | VInt z => ret z
  | VBool b => ret (if b then 1 else 0)
  | VStr s =>
      match int_of_str L s with
      | Some z => ret z
      | None => raise (ValueError "int")
      end
  | _ => raise TypeError
  end.

(** [defaults.items()] *)
Definition items (v : value) : result dict :=
  match v with
  | VDict d => ret d
  | _ => raise AttributeError
  end.

(** augment configuration with defaults *)
Definition complete_action_config (domainconfig config : dict) : result dict :=
  let* defaults := getitem config "defaults" in
  let* ca_file := getitem config "ca_file" in
  let domainconfig := dict_set domainconfig "ca_file" ca_file in
  let* cert_file := getitem config "cert_file" in
  let domainconfig := dict_set domainconfig "cert_file" cert_file in
  let* key_file := getitem config "key_file" in
  let domainconfig := dict_set domainconfig "key_file" key_file in
  let* defaults_items := items defaults in
  let domainconfig :=
    fold_left
      (fun domainconfig '(name, value) =>
         if negb (dict_mem name domainconfig)
         then dict_set domainconfig name value
         else domainconfig)
      defaults_items domainconfig in
  let domainconfig :=
    if negb (dict_mem "action" domainconfig)
    then dict_set domainconfig "action" VNone
    else domainconfig in
  ret domainconfig.

(** update config[name] with value from localconfig>globalconfig>default *)
Definition update_config_value (config : dict) (name : string)
    (localconfig : list dict) (globalconfig : dict) (default : value)
  : result dict :=
  let values := List.filter (dict_mem name) localconfig in
  match values with
  | x :: _ =>
      (* len(values) > 0 *)
      let* v := getitem x name in
      ret (dict_set config name v)
  | [] =>
      ret (dict_set config name (dict_get_default globalconfig name default))
  end.

(** One domain of the loop of [idna_convert]. *)
Definition idna_convert_domain (domaintranslation : dictof string)
    (domain : string) : result (dictof string) :=
  if has_non_ascii domain then
    let* idna_domain :=
      if startswith "*." domain then
        match idna_encode L (drop_str 2 domain) with
        | Some a => ret ("*." ++ a)
        | None => raise (ValueError "idna")
        end
      else
        match idna_encode L domain with
        | Some a => ret a
        | None => raise (ValueError "idna")
        end in
    ret (dict_set domaintranslation idna_domain domain)
  else ret domaintranslation.

Fixpoint idna_convert_loop (domainlist : list string)
    (domaintranslation : dictof string) : result (dictof string) :=
  match domainlist with
  | [] => ret domaintranslation
  | domain :: rest =>
      let* domaintranslation := idna_convert_domain domaintranslation domain in
      idna_convert_loop rest domaintranslation
  end.

(** convert domain list to idna representation (if applicable *)
Definition idna_convert (domainlist : list string) : result (dictof string) :=
  if idna_loaded L && has_non_ascii (join "" domainlist) then
    idna_convert_loop domainlist []
  else ret [].

(** A [dict] of [str] as a value. *)
Definition str_dict (d : dictof string) : value :=
  VDict (map (fun kv => (fst kv, VStr (snd kv))) d).

(** ['ca_file' in x] for [x] a list: some element equals the string. *)
Definition list_contains_str (l : list value) (s : string) : bool :=
  existsb (fun v => value_eq_str v s) l.

(** The loop over the documents that define [path].  The comprehension
    selects the documents before the loop starts; [complete_action_config]
    then changes each selected document in place, so the loop also yields
    [localconfig] as it stands afterwards. *)
Fixpoint complete_actions (localconfig : list dict) (config : dict)
  : result (list dict * list dict) :=
  match localconfig with
  | [] => ret ([], [])
  | x :: rest =>
      if dict_mem "path" x then
        let* actioncfg := complete_action_config x config in
        let* r := complete_actions rest config in
        ret (actioncfg :: fst r, actioncfg :: snd r)
      else
        let* r := complete_actions rest config in
        ret (fst r, x :: snd r)
  end.

(** The body of the loop over [config['domainlist']]: the handler config
    of one domain.  [copy.deepcopy(globalconfig)] is the same value as
    [globalconfig]. *)
Definition handler_config (globalconfig : dict) (handlerconfigs : list dict)
    (domaintranslation : dictof string) (domain : string) : dict :=
  let cfg := globalconfig in
  let genericfgs :=
    List.filter (fun x => negb (dict_mem "domain" x)) handlerconfigs in
  let cfg :=
    match genericfgs with
    | x :: _ => dict_update cfg x
    | [] => cfg
    end in
  let _domain := dict_get_default domaintranslation domain domain in
  let specificcfgs :=
    List.filter
      (fun x => match dict_get x "domain" with
                | Some v => value_eq_str v _domain
                | None => false
                end)
      handlerconfigs in
  match specificcfgs with
  | x :: _ => dict_update cfg x
  | [] => cfg
  end.

Definition handlers_loop (globalconfig : dict) (handlerconfigs : list dict)
    (domaintranslation : dictof string) (domainlist : list string)
    (handlers : dict) : dict :=
  fold_left
    (fun handlers domain =>
       dict_set handlers domain
         (VDict (handler_config globalconfig handlerconfigs
                   domaintranslation domain)))
    domainlist handlers.

(** load the configuration from a file (one entry of a domain-group file) *)
Definition parse_config_entry (entry : string * list dict)
    (globalconfig runtimeconfig : dict) : result dict :=
  let config : dict := [] in
  (* Basic domain information *)
  let '(domains, localconfig) := entry in
  let config := dict_set config "domains" (VStr domains) in
  let domainlist := split " " domains in
  let config := dict_set config "domainlist" (VList (map VStr domainlist)) in
  let id := md5_hexdigest domains in
  let config := dict_set config "id" (VStr id) in
  (* Convert unicode to IDNA domains *)
  let* domaintranslation := idna_convert domainlist in
  let config := dict_set config "domaintranslation" (str_dict domaintranslation) in
  let domainlist :=
    if (0 <? length domaintranslation)%nat
    then dict_values domaintranslation else domainlist in
  let config :=
    if (0 <? length domaintranslation)%nat then
      dict_set (dict_set config "domainlist" (VList (map VStr domainlist)))
        "domains" (VStr (join " " domainlist))
    else config in
  (* Action config defaults *)
  let config :=
    dict_set config "defaults" (dict_get_default globalconfig "defaults" (VDict [])) in
  (* API version *)
  let* config :=
    update_config_value config "api" localconfig globalconfig (VStr DEFAULT_API) in
  (* Certificate authority *)
  let* config :=
    update_config_value config "authority" localconfig globalconfig
      (VStr DEFAULT_AUTHORITY) in
  (* Certificate authority ToS agreement *)
  let* tos := getitem runtimeconfig "authority_tos_agreement" in
  let* config :=
    update_config_value config "authority_tos_agreement" localconfig globalconfig tos in
  (* Certificate authority contact email addresses *)
  let* config :=
    update_config_value config "authority_contact_email" localconfig globalconfig VNone in
  (* Account key *)
  let* work_dir := getitem runtimeconfig "work_dir" in
  let* account_key := os_path_join work_dir "account.key" in
  let* config :=
    update_config_value config "account_key" localconfig globalconfig
      (VStr account_key) in
  (* Certificate directory *)
  let* work_dir := getitem runtimeconfig "work_dir" in
  let* config :=
    update_config_value config "cert_dir" localconfig globalconfig work_dir in
  (* TTL days *)
  let* config :=
    update_config_value config "ttl_days" localconfig globalconfig (VInt DEFAULT_TTL) in
  let* ttl_days := getitem config "ttl_days" in
  let* ttl_days := py_int ttl_days in
  let config := dict_set config "ttl_days" (VInt ttl_days) in
  (* Revoke old certificate with reason superseded after renewal *)
  let* config :=
    update_config_value config "cert_revoke_superseded" localconfig globalconfig
      (VStr "false") in
  (* Use a static cert request *)
  let* config :=
    update_config_value config "csr_static" localconfig globalconfig (VStr "false") in
  (* SSL cert request location *)
  let* cert_dir := getitem config "cert_dir" in
  let* csr_file := os_path_join cert_dir (id ++ ".csr") in
  let* config :=
    update_config_value config "csr_file" localconfig globalconfig (VStr csr_file) in
  (* SSL cert location (with compatibility to older versions) *)
  let* cert_dir := getitem config "cert_dir" in
  let* cert_file := os_path_join cert_dir (id ++ ".crt") in
  let* config :=
    update_config_value config "cert_file" localconfig globalconfig
      (dict_get_default globalconfig "server_cert" (VStr cert_file)) in
  (* SSL key location (with compatibility to older versions) *)
  let* cert_dir := getitem config "cert_dir" in
  let* key_file := os_path_join cert_dir (id ++ ".key") in
  let* config :=
    update_config_value config "key_file" localconfig globalconfig
      (dict_get_default globalconfig "server_key" (VStr key_file)) in
  (* SSL key length (if key has to be (re-)generated, converted to int) *)
  let* config :=
    update_config_value config "key_length" localconfig globalconfig
      (VInt DEFAULT_KEY_LENGTH) in
  let* key_length := getitem config "key_length" in
  let* key_length := py_int key_length in
  let config := dict_set config "key_length" (VInt key_length) in
  (* SSL CA location: the comprehension ranges over the two components of
     [entry], the domain key and the list of documents *)
  let ca_files :=
    ((if str_contains "ca_file" domains then [VStr domains] else []) ++
     (if list_contains_str (map VDict localconfig) "ca_file"
      then [VList (map VDict localconfig)] else []))%list in
  let* config :=
    match ca_files with
    | x :: _ =>
        (* len(ca_files) > 0 *)
        ret (dict_set (dict_set config "static_ca" (VBool true)) "ca_file" x)
    | [] =>
        if dict_mem "server_ca" globalconfig then
          let* server_ca := getitem globalconfig "server_ca" in
          ret (dict_set (dict_set config "static_ca" (VBool true))
                 "ca_file" server_ca)
        else
          let* cert_dir := getitem config "cert_dir" in
          let* ca_file := os_path_join cert_dir (id ++ ".ca") in
          ret (dict_set (dict_set config "static_ca" (VBool false))
                 "ca_file" (VStr ca_file))
    end in
  (* Domain action configuration *)
  let config := dict_set config "actions" (VList []) in
  let* r := complete_actions localconfig config in
  let '(actions, localconfig) := r in
  let config := dict_set config "actions" (VList (map VDict actions)) in
  (* Domain challenge handler configuration *)
  let handlerconfigs := List.filter (dict_mem "mode") localconfig in
  let handlers :=
    handlers_loop globalconfig handlerconfigs domaintranslation domainlist [] in
  let config := dict_set config "handlers" (VDict handlers) in
  ret config.

(** [load], the loop over the files of the domain configuration directory.
    [domainconfigs] is threaded because an exception raised in the JSON
    branch after some entries were appended leaves them in the list when
    the YAML branch starts. *)
Fixpoint parse_entries (entries : list (string * list dict))
    (globalconfig runtimeconfig : dict) (domainconfigs : list dict)
  : list dict * result unit :=
  match entries with
  | [] => (domainconfigs, ret tt)
  | entry :: rest =>
      match parse_config_entry entry globalconfig runtimeconfig with
      | inl e => (domainconfigs, raise e)
      | inr config =>
          parse_entries rest globalconfig runtimeconfig
            (domainconfigs ++ [config])%list
      end
  end.

Definition load_domain_config_file (content : string)
    (globalconfig runtimeconfig : dict) (domainconfigs : list dict)
  : result (list dict) :=
  let attempt :=
    match json_load L content with
    | inl e => (domainconfigs, raise e)
    | inr entries => parse_entries entries globalconfig runtimeconfig domainconfigs
    end in
  match attempt with
  | (domainconfigs, inr _) => ret domainconfigs
  | (domainconfigs, inl e) =>
      if is_ValueError e then
        let* entries := yaml_safe_load L content in
        match parse_entries entries globalconfig runtimeconfig domainconfigs with
        | (domainconfigs, inr _) => ret domainconfigs
        | (_, inl e') => raise e'
        end
      else raise e
  end.

(** Is the directory entry [name] read as a domain-group file? *)
Definition is_domain_config_file (domain_config_dir global_config_file name : string)
  : bool :=
  let domain_config_file := path_join domain_config_dir name in
  endswith ".conf" domain_config_file &&
  negb (String.eqb (abspath L domain_config_file) (abspath L global_config_file)).

(** [files] is [os.listdir(domain_config_dir)] with the text of each file. *)
Fixpoint load_domainconfigs (domain_config_dir global_config_file : string)
    (files : list (string * string)) (globalconfig runtimeconfig : dict)
    (domainconfigs : list dict) : result (list dict) :=
  match files with
  | [] => ret domainconfigs
  | (name, content) :: rest =>
      if is_domain_config_file domain_config_dir global_config_file name then
        let* domainconfigs :=
          load_domain_config_file content globalconfig runtimeconfig domainconfigs in
        load_domainconfigs domain_config_dir global_config_file rest
          globalconfig runtimeconfig domainconfigs
      else
        load_domainconfigs domain_config_dir global_config_file rest
          globalconfig runtimeconfig domainconfigs
  end.

(** The runtime configuration [load] builds from the command line. *)
Definition load_runtimeconfig (args : Args) (disk : Disk)
    (global_config_file domain_config_dir : string) : result dict :=
  let runtimeconfig : dict := [] in
  (* - work_dir *)
  let runtimeconfig :=
    match given (arg_work_dir args) with
    | Some w => dict_set runtimeconfig "work_dir" (VStr w)
    | None =>
        if legacy_work_dir_exists disk &&
           String.eqb domain_config_dir LEGACY_CONF_DIR
        then dict_set runtimeconfig "work_dir" (VStr LEGACY_WORK_DIR)
        else dict_set runtimeconfig "work_dir" (VStr domain_config_dir)
    end in
  (* - authority_tos_agreement *)
  let runtimeconfig :=
    match given (arg_authority_tos_agreement args) with
    | Some t => dict_set runtimeconfig "authority_tos_agreement" (VStr t)
    | None =>
        if String.eqb global_config_file LEGACY_CONF_FILE
        then dict_set runtimeconfig "authority_tos_agreement"
               (VStr LEGACY_AUTHORITY_TOS_AGREEMENT)
        else dict_set runtimeconfig "authority_tos_agreement" VNone
    end in
  (* - force-rewew *)
  let* runtimeconfig :=
    match given (arg_force_renew args) with
    | Some f =>
        let* domaintranslation := idna_convert (split " " f) in
        if (0 <? length domaintranslation)%nat then
          ret (dict_set runtimeconfig "force_renew"
                 (VStr (join " " (dict_values domaintranslation))))
        else ret (dict_set runtimeconfig "force_renew" (VStr f))
    | None => ret runtimeconfig
    end in
  (* - revoke *)
  let runtimeconfig :=
    match given (arg_revoke args) with
    | Some v =>
        dict_set
          (dict_set (dict_set runtimeconfig "mode" (VStr "revoke"))
             "revoke" (VStr v))
          "revoke_reason"
          (match arg_revoke_reason args with
           | Some n => VInt n
           | None => VNone
           end)
    | None => runtimeconfig
    end in
  ret runtimeconfig.

(** Global configuration: Load from file *)
Definition load_globalconfig (disk : Disk) (global_config_file : string)
  : result dict :=
  let* globalconfig :=
    match file_text disk global_config_file with
    | Some text =>
        match json_load_global L text with
        | inr g => ret g
        | inl e =>
            if is_ValueError e then yaml_safe_load_global L text else raise e
        end
    | None => ret []
    end in
  if String.eqb global_config_file LEGACY_CONF_FILE then
    let globalconfig :=
      if negb (dict_mem "api" globalconfig)
      then dict_set globalconfig "api" (VStr LEGACY_API) else globalconfig in
    let globalconfig :=
      if negb (dict_mem "authority" globalconfig)
      then dict_set globalconfig "authority" (VStr LEGACY_AUTHORITY)
      else globalconfig in
    ret globalconfig
  else ret globalconfig.

(** Determine global configuration file *)
Definition global_config_file (args : Args) (disk : Disk) : string :=
  match given (arg_config_file args) with
  | Some f => f
  | None =>
      if legacy_conf_file_exists disk then LEGACY_CONF_FILE
      else DEFAULT_CONF_FILE
  end.

(** Determine domain configuration directory *)
Definition domain_config_dir (args : Args) (disk : Disk) : string :=
  match given (arg_config_dir args) with
  | Some d => d
  | None =>
      if legacy_conf_dir_exists disk then LEGACY_CONF_DIR
      else DEFAULT_CONF_DIR
  end.

(** load the configuration from a file: [load] returns the pair
    [runtimeconfig, domainconfigs].  The creation of a missing work
    directory (lines 243-244) is left out: [os.mkdir] can raise there, so a
    result of [load] stands for a run in which the work directory exists
    or can be created. *)
Definition load (args : Args) (disk : Disk) : result (dict * list dict) :=
  let global_config_file := global_config_file args disk in
  let domain_config_dir := domain_config_dir args disk in
  let* runtimeconfig :=
    load_runtimeconfig args disk global_config_file domain_config_dir in
  let* globalconfig := load_globalconfig disk global_config_file in
  (* Domain configuration(s): Load from file(s) *)
  let* domainconfigs :=
    match listdir disk domain_config_dir with
    | Some files =>
        load_domainconfigs domain_config_dir global_config_file files
          globalconfig runtimeconfig []
    | None => ret []
    end in
  ret (runtimeconfig, domainconfigs).

End WithLibs.

Arguments md5_hexdigest : simpl never.

End Configuration.

(** ** acertmgr/__init__.py *)

Module Acertmgr.

(** *** The world the program runs in *)

Record file : Type := {
  f_data : string;
  f_mtime : Z;
  f_uid : Z;
  f_gid : Z;
  f_mode : Z
}.

(** A flat file system (regular files by path) and a clock. *)
Record world : Type := {
  fs : gmap string file;
  now : Z
}.

(** What the run prints, and the two calls whose arguments the properties
    speak of: [actions.add(v)] and [subprocess.check_output(action, ...)]. *)
Inductive event : Type :=
| Getting (domains : value)
| Updating (path : value)
| WarnOwnership
| WarnPermissions
| Added (action : value)
| Executed (action : string) (ok : bool).

Record state : Type := {
  st_world : world;
  st_trace : list event
}.

(** Code that changes the world and may raise: the state reached is kept
    when an exception is raised. *)
Definition M (A : Type) : Type := state -> state * result A.

Definition mret {A} (a : A) : M A := fun st => (st, inr a).
Definition mraise {A} (e : exn) : M A := fun st => (st, inl e).

Definition mbind {A B} (m : M A) (k : A -> M B) : M B :=
  fun st =>
    match m st with
    | (st', inl e) => (st', inl e)
    | (st', inr a) => k a st'
    end.

Definition lift {A} (r : result A) : M A := fun st => (st, r).

Definition get_world : M world := fun st => (st, inr (st_world st)).

Definition put_world (w : world) : M unit :=
  fun st => ({| st_world := w; st_trace := st_trace st |}, inr tt).

Definition emit (e : event) : M unit :=
  fun st =>
    ({| st_world := st_world st; st_trace := (st_trace st ++ [e])%list |}, inr tt).

Declare Scope run_scope.
Delimit Scope run_scope with run.
Notation "'let!' x := m 'in' k" := (mbind m (fun x => k))
  (at level 10, x pattern, m at level 100, k at level 200) : run_scope.
Open Scope run_scope.

(** A value used as a path must be a [str]. *)
Definition as_path (v : value) : result string :=
  match v with
  | VStr p => ret p
  | _ => raise TypeError
  end.

(** [os.path.isfile(path)] *)
Definition isfile (path : value) : M bool :=
  let! p := lift (as_path path) in
  let! w := get_world in
  mret (bool_decide (is_Some (fs w !! p))).

(** [io.open(path, "r").read()] *)
Definition read_file (w : world) (path : value) : result string :=
  let* p := as_path path in
  match fs w !! p with
  | Some f => ret (f_data f)
  | None => raise (FileNotFoundError p)
  end.

(** The operating system and the interpreter, as far as [cert_put] and
    [main] use them. *)
Record Sys : Type := {
  (** [pwd.getpwnam(name).pw_uid]; [None] when it raises [KeyError] *)
  getpwnam : string -> option Z;
  (** [grp.getgrnam(name).gr_gid] *)
  getgrnam : string -> option Z;
  (** does [os.chown(path, uid, gid)] succeed (else [OSError]) *)
  chown_ok : string -> Z -> Z -> bool;
  (** does [os.chmod(path, mode)] succeed (else [OSError]) *)
  chmod_ok : string -> Z -> bool;
  (** [int(s, 8)]; [None] when it raises [ValueError] *)
  int_base8 : string -> option Z;
  (** owner, group and mode of a file that [io.open(path, "w+")] creates *)
  create_uid : Z;
  create_gid : Z;
  create_mode : Z;
  (** [subprocess.check_output(action, shell=True, ...)]: the world after
      the command, and whether it exited with status 0 *)
  shell : string -> world -> world * bool;
  (** the order in which a [set] with these elements is iterated *)
  set_iter : list value -> list value;
  set_iter_perm : forall l, Permutation (set_iter l) l
}.

(** The module [acertmgr.tools] and the authority and challenge-handler
    modules are collaborators of this code.  [cert_get], after its first
    line, only sequences them; [issue] is that remainder. *)
Record Tools : Type := {
  cert : Type;
  read_pem_file : value -> world -> result cert;
  is_cert_valid : cert -> value -> world -> result bool;
  target_is_current : value -> value -> world -> result bool;
  issue : dict -> world -> world * result unit
}.

Section WithSys.
Context (O : Sys) (T : Tools).

(** fetch new certificate from letsencrypt *)
Definition cert_get (settings : dict) : M unit :=
  let! domains := lift (getitem settings "domains") in
  let! _ := emit (Getting domains) in
  fun st =>
    let '(w, r) := issue T settings (st_world st) in
    ({| st_world := w; st_trace := st_trace st |}, r).

(** [io.open(path, "w+")]: the file is created or truncated. *)
Definition open_truncate (w : world) (p : string) : world :=
  let f :=
    match fs w !! p with
    | Some f =>
        {| f_data := ""; f_mtime := now w; f_uid := f_uid f;
           f_gid := f_gid f; f_mode := f_mode f |}
    | None =>
        {| f_data := ""; f_mtime := now w; f_uid := create_uid O;
           f_gid := create_gid O; f_mode := create_mode O |}
    end in
  {| fs := <[p := f]> (fs w); now := now w |}.

(** Closing the file writes what was buffered. *)
Definition flush (w : world) (p : string) (buf : string) : world :=
  match fs w !! p with
  | Some f =>
      {| fs := <[p := {| f_data := buf; f_mtime := now w; f_uid := f_uid f;
                         f_gid := f_gid f; f_mode := f_mode f |}]> (fs w);
         now := now w |}
  | None => w
  end.

Definition missing_ca_message (ca_file : string) : string :=
  "The CA certificate file (" ++ ca_file ++ ") is missing!".

(** The body of [for fmt in crt_format], for one [fmt]: what is appended
    to the text written to [crt_fd].  [w] is the world after the target
    was opened; writes to [crt_fd] are buffered until it is closed. *)
Definition write_component (w : world) (ca_file crt_final key_file : value)
    (fmt : string) (buf : string) : result string :=
  let* buf :=
    if String.eqb fmt "crt" then
      let* data := read_file w crt_final in ret (buf ++ data)
    else ret buf in
  let* buf :=
    if String.eqb fmt "key" then
      let* data := read_file w key_file in ret (buf ++ data)
    else ret buf in
  if String.eqb fmt "ca" then
    let* p := as_path ca_file in
    if negb (bool_decide (is_Some (fs w !! p))) then
      raise (FileNotFoundError (missing_ca_message p))
    else
      let* data := read_file w ca_file in ret (buf ++ data)
  else
    ret buf.

(** The loop; the text written so far is returned also when it raises. *)
Fixpoint write_components (w : world) (ca_file crt_final key_file : value)
    (crt_format : list string) (buf : string) : string * result unit :=
  match crt_format with
  | [] => (buf, ret tt)
  | fmt :: rest =>
      match write_component w ca_file crt_final key_file fmt buf with
      | inl e => (buf, raise e)
      | inr buf' => write_components w ca_file crt_final key_file rest buf'
      end
  end.

(** [settings['format'].split(",")] *)
Definition split_format (v : value) : result (list string) :=
  match v with
  | VStr s => ret (split "," s)
  | _ => raise AttributeError
  end.

Definition as_str (v : value) : result string :=
  match v with
  | VStr s => ret s
  | _ => raise TypeError
  end.

Definition set_owner (w : world) (p : string) (uid gid : Z) : world :=
  match fs w !! p with
  | Some f =>
      {| fs := <[p := {| f_data := f_data f; f_mtime := f_mtime f; f_uid := uid;
                         f_gid := gid; f_mode := f_mode f |}]> (fs w);
         now := now w |}
  | None => w
  end.

Definition set_mode (w : world) (p : string) (mode : Z) : world :=
  match fs w !! p with
  | Some f =>
      {| fs := <[p := {| f_data := f_data f; f_mtime := f_mtime f;
                         f_uid := f_uid f; f_gid := f_gid f; f_mode := mode |}]>
                 (fs w);
         now := now w |}
  | None => w
  end.

(** put new certificate in place *)
Definition cert_put (settings : dict) : M value :=
  let! ca_file := lift (getitem settings "ca_file") in
  let! crt_user := lift (getitem settings "user") in
  let! crt_group := lift (getitem settings "group") in
  let! crt_perm := lift (getitem settings "perm") in
  let! crt_path := lift (getitem settings "path") in
  let! crt_format := lift (let* f := getitem settings "format" in split_format f) in
  let crt_format := map strip crt_format in
  let! crt_action := lift (getitem settings "action") in
  let! key_file := lift (getitem settings "key_file") in
  let! crt_final := lift (getitem settings "cert_file") in
  (* with io.open(crt_path, "w+") as crt_fd *)
  let! p := lift (as_path crt_path) in
  let! w := get_world in
  let w := open_truncate w p in
  let '(buf, r) := write_components w ca_file crt_final key_file crt_format "" in
  let! _ := put_world (flush w p buf) in
  let! _ := lift r in
  (* set owner and permissions *)
  let! uid :=
    lift (let* u := as_str crt_user in
          match getpwnam O u with
          | Some uid => ret uid
          | None => raise (KeyError u)
          end) in
  let! gid :=
    lift (let* g := as_str crt_group in
          match getgrnam O g with
          | Some gid => ret gid
          | None => raise (KeyError g)
          end) in
  let! _ :=
    if chown_ok O p uid gid then
      let! w := get_world in put_world (set_owner w p uid gid)
    else emit WarnOwnership in
  let! mode :=
    lift (let* s := as_str crt_perm in
          match int_base8 O s with
          | Some m => ret m
          | None => raise (ValueError "int")
          end) in
  let! _ :=
    if chmod_ok O p mode then
      let! w := get_world in put_world (set_mode w p mode)
    else emit WarnPermissions in
  mret crt_action.

(** *** The set of post-update actions *)

(** What [hash] and [==] see of a hashable value: [True == 1]. *)
Inductive hkey : Type :=
| HNone
| HInt (z : Z)
| HStr (s : string).

Definition hash_key (v : value) : option hkey :=
  match v with
  | VNone => Some HNone
  | VBool b => Some (HInt (if b then 1 else 0))
  | VInt z => Some (HInt z)
  | VStr s => Some (HStr s)
  | VList _ | VDict _ => None
  end.

Definition hkey_eqb (a b : hkey) : bool :=
  match a, b with
  | HNone, HNone => true
  | HInt x, HInt y => Z.eqb x y
  | HStr s, HStr t => String.eqb s t
  | _, _ => false
  end.

Definition set_mem (k : hkey) (actions : list value) : bool :=
  existsb (fun v => match hash_key v with
                    | Some k' => hkey_eqb k' k
                    | None => false
                    end) actions.

(** [actions.add(v)]; the set is the list of its elements, without
    repetition. *)
Definition set_add (actions : list value) (v : value) : result (list value) :=
  match hash_key v with
  | None => raise TypeError
  | Some k => ret (if set_mem k actions then actions else (actions ++ [v])%list)
  end.

(** [for cfg in config['actions']] *)
Definition deploy_target (cert_file : value) (cfg : value) (actions : list value)
  : M (list value) :=
  let! cfg := lift (match cfg with VDict d => ret d | _ => raise TypeError end) in
  let! path := lift (getitem cfg "path") in
  let! w := get_world in
  let! current := lift (target_is_current T path cert_file w) in
  if negb current then
    let! path := lift (getitem cfg "path") in
    let! _ := emit (Updating path) in
    let! action := cert_put cfg in
    let! actions := lift (set_add actions action) in
    let! _ := emit (Added action) in
    mret actions
  else mret actions.

Fixpoint deploy_targets (cert_file : value) (targets : list value)
    (actions : list value) : M (list value) :=
  match targets with
  | [] => mret actions
  | cfg :: rest =>
      let! actions := deploy_target cert_file cfg actions in
      deploy_targets cert_file rest actions
  end.

(** check certificate validity and obtain/renew certificates if needed *)
Definition renew_if_needed (config : dict) : M value :=
  let! cert_file := lift (getitem config "cert_file") in
  let! cert_file_exists := isfile cert_file in
  let! needed :=
    if cert_file_exists then
      let! w := get_world in
      let! cert := lift (read_pem_file T cert_file w) in
      let! ttl_days := lift (getitem config "ttl_days") in
      let! w := get_world in
      let! valid := lift (is_cert_valid T cert ttl_days w) in
      mret (negb valid)
    else mret true in
  let! _ := if (needed : bool) then cert_get config else mret tt in
  mret cert_file.

(** The body of [for config in configs]. *)
Definition process_config (config : dict) (actions : list value) : M (list value) :=
  let! cert_file := renew_if_needed config in
  let! targets :=
    lift (let* a := getitem config "actions" in
          match a with
          | VList l => ret l
          | _ => raise TypeError
          end) in
  deploy_targets cert_file targets actions.

(** The loop variable is subscripted first of all ([config['cert_file']]):
    anything but a dict raises there. *)
Definition process_item (config : value) (actions : list value) : M (list value) :=
  match config with
  | VDict d => process_config d actions
  | _ => mraise TypeError
  end.

Fixpoint process_configs (configs : list value) (actions : list value)
  : M (list value) :=
  match configs with
  | [] => mret actions
  | config :: rest =>
      let! actions := process_item config actions in
      process_configs rest actions
  end.

(** [for action in actions] *)
Fixpoint run_actions (actions : list value) : M unit :=
  match actions with
  | [] => mret tt
  | action :: rest =>
      let! _ :=
        match action with
        | VNone => mret tt
        | VStr a =>
            fun st =>
              let '(w, ok) := shell O a (st_world st) in
              ({| st_world := w;
                  st_trace := (st_trace st ++ [Executed a ok])%list |}, inr tt)
        | _ => mraise TypeError
        end in
      run_actions rest
  end.

(** The two loops of [main], for the sequence [configs] the first one
    ranges over. *)
Definition run_configs (configs : list value) : M unit :=
  (* post-update actions (run only once) *)
  let actions : list value := [] in
  let! actions := process_configs configs actions in
  (* run post-update actions *)
  run_actions (set_iter O actions).

(** [main], after [configs = configuration.load()] returned [loaded].
    [load] returns the pair [runtimeconfig, domainconfigs], and
    [for config in configs] ranges over the two components of that pair:
    the runtime config, then the list of domain-group configs. *)
Definition main (loaded : dict * list dict) : M unit :=
  let configs := [VDict (fst loaded); VList (map VDict (snd loaded))] in
  run_configs configs.

End WithSys.

(** *** The collaborators, from the specification *)

Section SpecTools.
(** What the CryptoStore finds in the text of a certificate file at a
    given time: [None] when the text does not parse, else the remaining
    lifetime in days. *)
Context (lifetime : Z -> string -> option Z).
Context (issue_workflow : dict -> world -> world * result unit).

(** Modelled from the spec: [tools.read_pem_file] of the module
    [acertmgr.tools], which is not among the sources.  Section 4.5 routes
    a parse failure to NeedsIssuance, and [main] has no handler around the
    call, so the result of parsing is returned, failed or not. *)
Definition spec_read_pem_file (path : value) (w : world) : result (option Z) :=
  let* data := read_file w path in
  ret (lifetime (now w) data).

(** Modelled from the spec: [tools.is_cert_valid] of the module
    [acertmgr.tools], which is not among the sources.  Section 4.5: a
    certificate is Current iff it parses successfully and its remaining
    lifetime exceeds [ttl_days]. *)
Definition spec_is_cert_valid (cert : option Z) (ttl_days : value) (w : world)
  : result bool :=
  match ttl_days with
  | VInt ttl =>
      ret (match cert with
           | Some remaining => ttl <? remaining
           | None => false
           end)
  | _ => raise TypeError
  end.

(** Modelled from the spec: [tools.target_is_current] of the module
    [acertmgr.tools], which is not among the sources.  Section 4.6: the
    modification time of the target is compared with that of the
    certificate file; a target that is missing or older is rebuilt. *)
Definition spec_target_is_current (target file : value) (w : world)
  : result bool :=
  let* t := as_path target in
  let* c := as_path file in
  ret (match fs w !! t with
       | None => false
       | Some tf =>
           match fs w !! c with
           | Some cf => negb (f_mtime tf <? f_mtime cf)
           | None => true
           end
       end).

Definition spec_tools : Tools := {|
  cert := option Z;
  read_pem_file := spec_read_pem_file;
  is_cert_valid := spec_is_cert_valid;
  target_is_current := spec_target_is_current;
  issue := issue_workflow
|}.

End SpecTools.

End Acertmgr.

(** ** acertmgr/__init__.py: the issuance workflow

    [cert_get], [create_authority] and [create_challenge_handler] sequence
    calls to the module [acertmgr.tools], to the authority and
    challenge-handler classes and to the operating system.  These are
    collaborators: each call may change their state and may raise.  The
    embedding records the calls; what is printed is left out.  (In
    [Acertmgr] the workflow after the first line of [cert_get] is the one
    parameter [issue].) *)

Module Issuance.
Import Acertmgr.

(** What is written with [tools.write_pem_file]: the request, the
    certificate or the CA certificate. *)
Inductive item : Type := Csr | Crt | Ca.

(** The calls.  Each is recorded when it is made, [Validated] when
    [tools.is_cert_valid] has answered, with its answer. *)
Inductive call : Type :=
| ReadPem (path : value) (kind : string)
| NewAccountKey (path : value)
| NewAuthority (api : value)
| RegisterAccount
| NewHandler (mode : value)
| NewSslKey (path length : value)
| NewCertRequest (domainlist : value)
| WritePem (what : item) (path : value)
| GetCrt (domainlist : value)
| Validated (valid : bool).

(** An exception is raised by this code ([Builtin], [IndexError], or the
    [KeyError] of a key that is no [str]) or inside a collaborator. *)
Inductive raised (X : Type) : Type :=
| Builtin (e : exn)
| IndexError
| KeyErrorOf (key : value)
| External (x : X).
Arguments Builtin {X} e.
Arguments IndexError {X}.
Arguments KeyErrorOf {X} key.
Arguments External {X} x.

(** [stat.S_IREAD] *)
Definition S_IREAD : Z := 256.

Record Collab : Type := {
  (** the file system, the network, the state of the collaborating objects *)
  env : Type;
  (** the exceptions raised inside the collaborators *)
  xexn : Type;
  (** keys, requests and certificates; authorities; challenge handlers *)
  pem : Type;
  authority : Type;
  handler : Type;
  (** [list(s)] and [s[i]] for a [str] *)
  str_iter : string -> list string;
  str_index : string -> Z -> option string;
  (** [os.path.isfile(path)] *)
  os_isfile : value -> env -> xexn + bool;
  (** [tools.read_pem_file(path, key=True)] and [(path, csr=True)], the
      second argument naming the keyword *)
  tools_read_pem_file : value -> string -> env -> env * (xexn + pem);
  tools_new_account_key : value -> env -> env * (xexn + pem);
  tools_new_ssl_key : value -> value -> env -> env * (xexn + pem);
  tools_new_cert_request : value -> pem -> env -> env * (xexn + pem);
  (** [tools.write_pem_file(pem, path)] and [(pem, path, perms)] *)
  tools_write_pem_file : pem -> value -> option Z -> env -> env * (xexn + unit);
  tools_is_cert_valid : pem -> value -> env -> env * (xexn + bool);
  (** [importlib.import_module("acertmgr.authority.{0}".format(api))], its
      class [ACMEAuthority] and the call of the class *)
  new_authority : value -> dict -> pem -> env -> env * (xexn + authority);
  (** [acme.register_account()]: the authority after the call *)
  register_account : authority -> env -> env * (xexn + authority);
  (** [acme.get_crt_from_csr(cr, domainlist, challenge_handlers)]: the
      certificate and the CA certificate, which may be [None] *)
  get_crt_from_csr :
    authority -> pem -> value -> list (hkey * handler) -> env ->
    env * (xexn + (pem * option pem));
  (** [importlib.import_module("acertmgr.modes.{0}".format(mode))], its
      class [ChallengeHandler] and the call of the class *)
  new_handler : value -> value -> env -> env * (xexn + handler)
}.

(** [bool(v)] *)
Definition truthy (v : value) : bool :=
  match v with
  | VNone => false
  | VBool b => b
  | VInt z => negb (z =? 0)
  | VStr s => negb (String.eqb s "")
  | VList l => match l with [] => false | _ => true end
  | VDict d => match d with [] => false | _ => true end
  end.

(** [s.lower()] on the ASCII letters; no other character becomes one of
    [t], [r], [u], [e] in lower case. *)
Definition lower_ascii (c : ascii) : ascii :=
  let n := nat_of_ascii c in
  if ((65 <=? n) && (n <=? 90))%nat then ascii_of_nat (n + 32) else c.

Fixpoint lower (s : string) : string :=
  match s with
  | EmptyString => EmptyString
  | String c s' => String (lower_ascii c) (lower s')
  end.

(** [str(v).lower() == 'true']: [str(True)] is [True]; the text of
    [None], of a number, of a list or of a dict is never [true]. *)
Definition says_true (v : value) : bool :=
  match v with
  | VBool b => b
  | VStr s => String.eqb (lower s) "true"
  | _ => false
  end.

Section WithCollab.
Context (C : Collab).

Definition outcome (A : Type) : Type := (raised (xexn C) + A)%type.

(** [name in v] for a [str] [name] *)
Definition contains (name : string) (v : value) : outcome bool :=
  match v with
  | VDict d => inr (dict_mem name d)
  | VList l => inr (Configuration.list_contains_str l name)
  | VStr s => inr (str_contains name s)
  | _ => inl (Builtin TypeError)
  end.

(** An index: an [int], [bool] being one. *)
Definition int_index (k : value) : option Z :=
  match k with
  | VInt z => Some z
  | VBool b => Some (if b then 1 else 0)
  | _ => None
  end.

(** [c[k]] *)
Definition subscript (c k : value) : outcome value :=
  match c with
  | VDict d =>
      match k with
      | VStr s =>
          match dict_get d s with
          | Some v => inr v
          | None => inl (Builtin (KeyError s))
          end
      | VList _ | VDict _ => inl (Builtin TypeError)
      | _ => inl (KeyErrorOf k)
      end
  | VList l =>
      match int_index k with
      | Some i =>
          let n := Z.of_nat (length l) in
          let j := if i <? 0 then i + n else i in
          if (0 <=? j) && (j <? n) then
            match nth_error l (Z.to_nat j) with
            | Some v => inr v
            | None => inl IndexError
            end
          else inl IndexError
      | None => inl (Builtin TypeError)
      end
  | VStr s =>
      match int_index k with
      | Some i =>
          match str_index C s i with
          | Some c => inr (VStr c)
          | None => inl IndexError
          end
      | None => inl (Builtin TypeError)
      end
  | _ => inl (Builtin TypeError)
  end.

(** [for x in v] *)
Definition iterate (v : value) : outcome (list value) :=
  match v with
  | VList l => inr l
  | VDict d => inr (map VStr (dict_keys d))
  | VStr s => inr (map VStr (str_iter C s))
  | _ => inl (Builtin TypeError)
  end.

Record istate : Type := {
  i_env : env C;
  i_calls : list call
}.

Definition I (A : Type) : Type := istate -> istate * outcome A.

Definition iret {A} (a : A) : I A := fun st => (st, inr a).

Definition ibind {A B} (m : I A) (k : A -> I B) : I B :=
  fun st =>
    match m st with
    | (st', inl e) => (st', inl e)
    | (st', inr a) => k a st'
    end.

Notation "'let+' x := m 'in' k" := (ibind m (fun x => k))
  (at level 10, x pattern, m at level 100, k at level 200).

Definition pure {A} (r : outcome A) : I A := fun st => (st, r).

(** [settings[name]] *)
Definition look (settings : dict) (name : string) : I value :=
  pure (match dict_get settings name with
        | Some v => inr v
        | None => inl (Builtin (KeyError name))
        end).

Definition record (c : call) : I unit :=
  fun st => ({| i_env := i_env st; i_calls := (i_calls st ++ [c])%list |}, inr tt).

(** A call of a collaborator. *)
Definition ext {A} (f : env C -> env C * (xexn C + A)) : I A :=
  fun st =>
    let '(e, r) := f (i_env st) in
    ({| i_env := e; i_calls := i_calls st |},
     match r with
     | inl x => inl (External x)
     | inr a => inr a
     end).

Definition isfile (path : value) : I bool :=
  ext (fun e => (e, os_isfile C path e)).

(** create a authority for the given configuration *)
Definition create_authority (settings : dict) : I (authority C) :=
  let+ acc_file := look settings "account_key" in
  let+ found := isfile acc_file in
  let+ acc_key :=
    if found then
      let+ _ := record (ReadPem acc_file "key") in
      ext (tools_read_pem_file C acc_file "key")
    else
      let+ _ := record (NewAccountKey acc_file) in
      ext (tools_new_account_key C acc_file) in
  let+ api := look settings "api" in
  let+ _ := record (NewAuthority api) in
  ext (new_authority C api settings acc_key).

(** create a challenge handler for the given configuration *)
Definition create_challenge_handler (settings : value) : I (handler C) :=
  let+ has_mode := pure (contains "mode" settings) in
  let+ mode :=
    if has_mode then pure (subscript settings (VStr "mode"))
    else iret (VStr "standalone") in
  let+ _ := record (NewHandler mode) in
  ext (new_handler C mode settings).

(** [challenge_handlers[k] = h] *)
Fixpoint hset (handlers : list (hkey * handler C)) (k : hkey) (h : handler C)
  : list (hkey * handler C) :=
  match handlers with
  | [] => [(k, h)]
  | (k', h') :: rest =>
      if hkey_eqb k' k then (k', h) :: rest else (k', h') :: hset rest k h
  end.

(** [for domain in settings['domainlist']] *)
Fixpoint challenge_handlers_loop (settings : dict) (domains : list value)
    (challenge_handlers : list (hkey * handler C))
  : I (list (hkey * handler C)) :=
  match domains with
  | [] => iret challenge_handlers
  | domain :: rest =>
      let+ handlers := look settings "handlers" in
      let+ cfg := pure (subscript handlers domain) in
      let+ h := create_challenge_handler cfg in
      let+ k := pure (match hash_key domain with
                      | Some k => inr k
                      | None => inl (Builtin TypeError)
                      end) in
      challenge_handlers_loop settings rest (hset challenge_handlers k h)
  end.

(** if resulting certificate is valid: store in final location *)
Definition store (settings : dict) (crt : pem C) (ca : option (pem C)) : I unit :=
  let+ ttl_days := look settings "ttl_days" in
  let+ valid := ext (tools_is_cert_valid C crt ttl_days) in
  let+ _ := record (Validated valid) in
  if (valid : bool) then
    let+ cert_file := look settings "cert_file" in
    let+ _ := record (WritePem Crt cert_file) in
    let+ _ := ext (tools_write_pem_file C crt cert_file (Some S_IREAD)) in
    if dict_mem "static_ca" settings then
      let+ static_ca := look settings "static_ca" in
      if negb (truthy static_ca) then
        match ca with
        | Some ca =>
            let+ ca_file := look settings "ca_file" in
            let+ _ := record (WritePem Ca ca_file) in
            ext (tools_write_pem_file C ca ca_file None)
        | None => iret tt
        end
      else iret tt
    else iret tt
  else iret tt.

(** fetch new certificate from letsencrypt *)
Definition cert_get (settings : dict) : I unit :=
  let+ _ := look settings "domains" in
  let+ acme := create_authority settings in
  let+ _ := record RegisterAccount in
  let+ acme := ext (register_account C acme) in
  (* create challenge handlers for this certificate *)
  let+ domainlist := look settings "domainlist" in
  let+ domains := pure (iterate domainlist) in
  let+ challenge_handlers := challenge_handlers_loop settings domains [] in
  (* create ssl key *)
  let+ key_file := look settings "key_file" in
  let+ key_length := look settings "key_length" in
  let+ found := isfile key_file in
  let+ key :=
    if found then
      let+ _ := record (ReadPem key_file "key") in
      ext (tools_read_pem_file C key_file "key")
    else
      let+ _ := record (NewSslKey key_file key_length) in
      ext (tools_new_ssl_key C key_file key_length) in
  (* create ssl csr *)
  let+ csr_file := look settings "csr_file" in
  let+ found := isfile csr_file in
  let+ static :=
    if found then
      let+ csr_static := look settings "csr_static" in
      iret (says_true csr_static)
    else iret false in
  let+ cr :=
    if (static : bool) then
      let+ _ := record (ReadPem csr_file "csr") in
      ext (tools_read_pem_file C csr_file "csr")
    else
      let+ _ := look settings "domainlist" in
      let+ domainlist := look settings "domainlist" in
      let+ _ := record (NewCertRequest domainlist) in
      let+ cr := ext (tools_new_cert_request C domainlist key) in
      let+ _ := record (WritePem Csr csr_file) in
      let+ _ := ext (tools_write_pem_file C cr csr_file None) in
      iret cr in
  (* request cert with csr *)
  let+ domainlist := look settings "domainlist" in
  let+ _ := record (GetCrt domainlist) in
  let+ issued := ext (get_crt_from_csr C acme cr domainlist challenge_handlers) in
  store settings (fst issued) (snd issued).

End WithCollab.

End Issuance.

(** ** Object identity in the handler loop

    The embedding above works on values.  Whether two configs share a
    mutable object is not a property of their values, so the loop that
    builds the handler configs is embedded a second time, on values that
    carry the identity of every list and dict in them. *)

Module Sharing.

(** The identity of a mutable object (a list or a dict). *)
Definition loc : Type := nat.
Bind Scope nat_scope with loc.

(** A value together with the identities of the lists and dicts in it. *)
Inductive obj : Type :=
| ONone
| OBool (b : bool)
| OInt (z : Z)
| OStr (s : string)
| OList (l : loc) (xs : list obj)
| ODict (l : loc) (kvs : list (string * obj)).

(** A dict object: its identity and its items. *)
Definition dobj : Type := (loc * dictof obj)%type.

Definition to_obj (d : dobj) : obj := ODict (fst d) (snd d).

(** The value an object holds. *)
Fixpoint erase (o : obj) : value :=
  match o with
  | ONone => VNone
  | OBool b => VBool b
  | OInt z => VInt z
  | OStr s => VStr s
  | OList _ xs => VList (map erase xs)
  | ODict _ kvs => VDict (map (fun kv => (fst kv, erase (snd kv))) kvs)
  end.

Definition erase_items (d : dictof obj) : dict :=
  map (fun kv => (fst kv, erase (snd kv))) d.

(** The mutable objects reachable from an object. *)
Fixpoint locs (o : obj) : list loc :=
  match o with
  | OList l xs => l :: flat_map locs xs
  | ODict l kvs => l :: flat_map (fun kv => locs (snd kv)) kvs
  | _ => []
  end.

(** The mutable objects reachable from the values of a dict. *)
Definition value_locs (d : dictof obj) : list loc :=
  flat_map (fun kv => locs (snd kv)) d.

(** Two objects share mutable state. *)
Definition shares (a b : obj) : Prop :=
  exists l, In l (locs a) /\ In l (locs b).

(** A traversal that allocates: [next] is the first unused identity. *)
Fixpoint thread {A} (f : A -> loc -> A * loc) (xs : list A) (next : loc)
  : list A * loc :=
  match xs with
  | [] => ([], next)
  | x :: xs' =>
      let '(x', next) := f x next in
      let '(r, next) := thread f xs' next in
      (x' :: r, next)
  end.

Definition copy_item (copy : obj -> loc -> obj * loc) (kv : string * obj)
    (next : loc) : (string * obj) * loc :=
  let '(v, next) := copy (snd kv) next in
  ((fst kv, v), next).

(** [copy.deepcopy(o)]: every list and dict reachable from [o] is copied
    into a new object. *)
Fixpoint deepcopy (o : obj) (next : loc) : obj * loc :=
  match o with
  | OList _ xs =>
      let '(xs', next') := thread deepcopy xs (S next) in
      (OList next xs', next')
  | ODict _ kvs =>
      let '(kvs', next') := thread (copy_item deepcopy) kvs (S next) in
      (ODict next kvs', next')
  | _ => (o, next)
  end.

(** [copy.deepcopy(d)] for a dict object. *)
Definition deepcopy_dict (d : dobj) (next : loc) : dobj * loc :=
  let '(kvs', next') := thread (copy_item deepcopy) (snd d) (S next) in
  ((next, kvs'), next').

(** [v == s] for a [str] [s] *)
Definition obj_eq_str (v : obj) (s : string) : bool :=
  match v with
  | OStr t => String.eqb t s
  | _ => false
  end.

(** The body of the loop over [config['domainlist']], with identities:
    [cfg] is a new object, [cfg.update(x)] stores in it the very objects
    that are the values of [x]. *)
Definition handler_config (globalconfig : dobj) (handlerconfigs : list dobj)
    (domaintranslation : dictof string) (domain : string) (next : loc)
  : dobj * loc :=
  let '(cfg, next) := deepcopy_dict globalconfig next in
  let genericfgs :=
    List.filter (fun x => negb (dict_mem "domain" (snd x))) handlerconfigs in
  let cfg :=
    match genericfgs with
    | x :: _ => (fst cfg, dict_update (snd cfg) (snd x))
    | [] => cfg
    end in
  let _domain := dict_get_default domaintranslation domain domain in
  let specificcfgs :=
    List.filter
      (fun x => match dict_get (snd x) "domain" with
                | Some v => obj_eq_str v _domain
                | None => false
                end)
      handlerconfigs in
  let cfg :=
    match specificcfgs with
    | x :: _ => (fst cfg, dict_update (snd cfg) (snd x))
    | [] => cfg
    end in
  (cfg, next).

Fixpoint handlers_loop (globalconfig : dobj) (handlerconfigs : list dobj)
    (domaintranslation : dictof string) (domainlist : list string)
    (handlers : dictof obj) (next : loc) : dictof obj * loc :=
  match domainlist with
  | [] => (handlers, next)
  | domain :: rest =>
      let '(cfg, next) :=
        handler_config globalconfig handlerconfigs domaintranslation domain next in
      handlers_loop globalconfig handlerconfigs domaintranslation rest
        (dict_set handlers domain (to_obj cfg)) next
  end.


Definition erase_item (kv : string * obj) : string * value :=
  (fst kv, erase (snd kv)).

Definition erase_dobj (x : dobj) : dict := erase_items (snd x).

(** The mutable objects that are reachable from the values of the
    override documents. *)
Definition document_locs (docs : list dobj) : list loc :=
  flat_map (fun x => value_locs (snd x)) docs.

(** [f] copies [x]: the copy holds the same value and its mutable objects
    are new ones, allocated by this call. *)
Definition copies {A B} (erase_elt : A -> B) (locs_elt : A -> list loc)
    (f : A -> loc -> A * loc) (x : A) : Prop :=
  forall n x' n', f x n = (x', n') ->
    (n <= n')%nat /\ erase_elt x' = erase_elt x /\
    Forall (fun l => (n <= l < n')%nat) (locs_elt x').

(** The handler configs built so far: the mutable objects of each are
    new ones or come from the values of the override documents, and two
    of them have only objects of the second kind in common. *)
Definition separated (n0 : loc) (docs : list dobj) (handlers : dictof obj)
    (n : loc) : Prop :=
  (forall d h l, dict_get handlers d = Some h -> In l (locs h) ->
                 (n0 <= l < n)%nat \/ In l (document_locs docs)) /\
  (forall d1 d2 h1 h2 l, d1 <> d2 ->
     dict_get handlers d1 = Some h1 -> dict_get handlers d2 = Some h2 ->
     In l (locs h1) -> In l (locs h2) -> In l (document_locs docs)).

End Sharing.

(** ** Concrete instances used in examples *)

Module Examples.
Import Configuration Acertmgr.

(** [int(s)] on a plain decimal numeral with an optional sign. *)
Fixpoint digits (s : string) (acc : Z) : option Z :=
  match s with
  | EmptyString => Some acc
  | String c s' =>
      let n := Z.of_nat (nat_of_ascii c) in
      if (48 <=? n) && (n <=? 57) then digits s' (10 * acc + (n - 48)) else None
  end.

Definition decimal_int (s : string) : option Z :=
  match s with
  | EmptyString => None
  | String "-" EmptyString | String "+" EmptyString => None
  | String "-" s' => option_map Z.opp (digits s' 0)
  | String "+" s' => digits s' 0
  | _ => digits s 0
  end.

(** The IDNA forms of the names used below. *)
Definition idna_table (s : string) : option string :=
  if String.eqb s "bücher.de" then Some "xn--bcher-kva.de"
  else if String.eqb s "münchen.example" then Some "xn--mnchen-3ya.example"
  else None.

Definition target (path format action : string) : dict :=
  [ ("path", VStr path); ("format", VStr format); ("user", VStr "root");
    ("group", VStr "root"); ("perm", VStr "600"); ("action", VStr action) ].

(** Two targets with the same action, a third without one. *)
Definition twin_entry : string * list dict :=
  ("example.com",
   [ target "/srv/a.pem" "crt" "reload";
     target "/srv/b.pem" "crt, key" "reload";
     [ ("path", VStr "/srv/c.pem"); ("format", VStr "key"); ("user", VStr "root");
       ("group", VStr "root"); ("perm", VStr "600") ] ]).

(** The YAML text of a file that holds [twin_entry]. *)
Definition twin_text : string :=
  "example.com: [" ++
  "{path: /srv/a.pem, format: crt, user: root, group: root, perm: '600', action: reload}, " ++
  "{path: /srv/b.pem, format: 'crt, key', user: root, group: root, perm: '600', action: reload}, " ++
  "{path: /srv/c.pem, format: key, user: root, group: root, perm: '600'}]".

(** Domain-group files of the examples: [{}] is an empty mapping in both
    formats, [example.com: []] and [twin_text] are YAML only, every other
    text is rejected by both parsers. *)
Definition parse_json (s : string) : result (list (string * list dict)) :=
  if String.eqb s "{}" then ret []
  else raise (ValueError "json").

Definition parse_yaml (s : string) : result (list (string * list dict)) :=
  if String.eqb s "{}" then ret []
  else if String.eqb s "example.com: []" then ret [("example.com", [])]
  else if String.eqb s twin_text then ret [twin_entry]
  else raise YAMLError.

(** Global files of the examples: [{}] alone parses. *)
Definition parse_json_global (s : string) : result dict :=
  if String.eqb s "{}" then ret []
  else raise (ValueError "json").

Definition parse_yaml_global (s : string) : result dict :=
  if String.eqb s "{}" then ret []
  else raise YAMLError.

Definition libs : Libs := {|
  idna_loaded := true;
  idna_encode := idna_table;
  int_of_str := decimal_int;
  json_load := parse_json;
  yaml_safe_load := parse_yaml;
  json_load_global := parse_json_global;
  yaml_safe_load_global := parse_yaml_global;
  abspath := fun p => p
|}.

(** A command line without options. *)
Definition no_args : Args := {|
  arg_config_file := None;
  arg_config_dir := None;
  arg_work_dir := None;
  arg_authority_tos_agreement := None;
  arg_force_renew := None;
  arg_revoke := None;
  arg_revoke_reason := None
|}.

(** A disk without legacy paths and without a global file, where
    [/etc/acertmgr] holds the given files. *)
Definition disk_with (files : list (string * string)) : Disk := {|
  legacy_conf_file_exists := false;
  legacy_conf_dir_exists := false;
  legacy_work_dir_exists := false;
  file_text := fun _ => None;
  listdir := fun d => if String.eqb d "/etc/acertmgr" then Some files else None
|}.

(** The same with the one file [example.com.conf]. *)
Definition disk (text : string) : Disk := disk_with [("example.com.conf", text)].

Definition runtimeconfig : dict :=
  [("work_dir", VStr "/etc/acertmgr"); ("authority_tos_agreement", VNone)].

(** [parse_config_entry] on an entry, for entries on which it succeeds. *)
Definition resolved (entry : string * list dict) (globalconfig : dict) : dict :=
  match parse_config_entry libs entry globalconfig runtimeconfig with
  | inr config => config
  | inl _ => []
  end.

Definition test_ca_entry : string * list dict :=
  ("example.com", [ [("authority", VStr "https://test-ca")] ]).

Definition test_ca_config : dict :=
  Eval vm_compute in resolved test_ca_entry [("ttl_days", VInt 30)].

Definition plain_config : dict :=
  Eval vm_compute in resolved ("example.com", []) [].

(** [int(s, 8)] on a plain octal numeral. *)
Fixpoint octal_digits (s : string) (acc : Z) : option Z :=
  match s with
  | EmptyString => Some acc
  | String c s' =>
      let n := Z.of_nat (nat_of_ascii c) in
      if (48 <=? n) && (n <=? 55) then octal_digits s' (8 * acc + (n - 48))
      else None
  end.

Definition octal_int (s : string) : option Z :=
  match s with
  | EmptyString => None
  | _ => octal_digits s 0
  end.

(** A system with the one user and group [root], where every [chown],
    [chmod] and shell command succeeds and commands leave the files as
    they are. *)
Definition sys : Sys := {|
  getpwnam := fun u => if String.eqb u "root" then Some 0 else None;
  getgrnam := fun g => if String.eqb g "root" then Some 0 else None;
  chown_ok := fun _ _ _ => true;
  chmod_ok := fun _ _ => true;
  int_base8 := octal_int;
  create_uid := 0;
  create_gid := 0;
  create_mode := 420;
  shell := fun _ w => (w, true);
  set_iter := fun l => l;
  set_iter_perm := fun l => Permutation_refl l
|}.

(** Certificates of the examples: the text [CERT] is a certificate with
    60 days left, the text [OLD] one with 10 days left, any other text does
    not parse.  Issuance writes nothing. *)
Definition lifetime (now : Z) (text : string) : option Z :=
  if String.eqb text "CERT" then Some 60
  else if String.eqb text "OLD" then Some 10
  else None.

Definition tools : Tools := spec_tools lifetime (fun _ w => (w, inr tt)).

Definition regular (data : string) (mtime : Z) : file :=
  {| f_data := data; f_mtime := mtime; f_uid := 0; f_gid := 0; f_mode := 420 |}.

Definition crt_path : string :=
  "/etc/acertmgr/5ababd603b22780302dd8d83498e5172.crt".
Definition key_path : string :=
  "/etc/acertmgr/5ababd603b22780302dd8d83498e5172.key".
Definition ca_path : string :=
  "/etc/acertmgr/5ababd603b22780302dd8d83498e5172.ca".

(** The certificate and the key of [example.com] are there, the CA file is
    not. *)
Definition world_without_ca : world :=
  {| fs := <[crt_path := regular "CERT" 10]>
             (<[key_path := regular "KEY" 5]> ∅);
     now := 20 |}.

(** The same with a certificate that has 10 days left. *)
Definition world_expiring : world :=
  {| fs := <[crt_path := regular "OLD" 10]>
             (<[key_path := regular "KEY" 5]> ∅);
     now := 20 |}.

(** The world without any file: the certificate of [example.com] is
    missing. *)
Definition world_empty : world := {| fs := ∅; now := 20 |}.

Definition start (w : world) : state := {| st_world := w; st_trace := [] |}.

(** A domain group with two deployment targets; the first asks for the
    CA chain. *)
Definition bundle_entry : string * list dict :=
  ("example.com",
   [ target "/srv/chain.pem" "crt,ca" "reload";
     target "/srv/bundle.pem" "crt, key" "reload" ]).

Definition bundle_config : dict := Eval vm_compute in resolved bundle_entry [].

(** Its first target, as [complete_action_config] leaves it. *)
Definition chain_target : dict :=
  Eval vm_compute in
    match dict_get bundle_config "actions" with
    | Some (VList (VDict cfg :: _)) => cfg
    | _ => []
    end.

Definition bundle_target : dict :=
  Eval vm_compute in
    match dict_get bundle_config "actions" with
    | Some (VList (_ :: VDict cfg :: _)) => cfg
    | _ => []
    end.

(** The same group with its second target alone. *)
Definition sibling_entry : string * list dict :=
  ("example.com", [ target "/srv/bundle.pem" "crt, key" "reload" ]).

Definition sibling_config : dict := Eval vm_compute in resolved sibling_entry [].

Definition twin_config : dict := Eval vm_compute in resolved twin_entry [].

(** A group of two domains with one domain-agnostic handler document
    that holds a list. *)
Definition nsupdate_entry : string * list dict :=
  ("a.com b.com",
   [ [ ("mode", VStr "dns.nsupdate");
       ("nsupdate_servers", VList [VStr "ns1.example.net"]) ] ]).

Definition nsupdate_config : dict := Eval vm_compute in resolved nsupdate_entry [].

(** The same inputs with identities: the global config is object 0, the
    document object 1, its list object 2; 3 is the first unused identity. *)
Definition global_object : Sharing.dobj := (0%nat, []).

Definition nsupdate_objects : list Sharing.dobj :=
  [ (1%nat,
     [ ("mode", Sharing.OStr "dns.nsupdate");
       ("nsupdate_servers",
        Sharing.OList 2 [Sharing.OStr "ns1.example.net"]) ]) ].

(** A global config whose [defaults] name a [mode], and a group whose one
    document is a deployment target without a [mode] of its own. *)
Definition mode_defaults_global : dict :=
  [ ("defaults", VDict [("mode", VStr "webdir")]) ].

Definition deploy_document : dict :=
  [ ("path", VStr "/srv/a.pem"); ("user", VStr "alice") ].

Definition deploy_entry : string * list dict :=
  ("example.com", [ deploy_document ]).

Definition deploy_config : dict :=
  Eval vm_compute in resolved deploy_entry mode_defaults_global.

(** The document as [complete_action_config] leaves it. *)
Definition deploy_document_completed : dict :=
  [ ("path", VStr "/srv/a.pem"); ("user", VStr "alice");
    ("ca_file", VStr ca_path); ("cert_file", VStr crt_path);
    ("key_file", VStr key_path); ("mode", VStr "webdir"); ("action", VNone) ].

End Examples.

(** ** Definitions the statements are phrased with *)

Module Spec.
Import Configuration Hashlib.

(** The value the comment of [update_config_value] announces:
    localconfig > globalconfig > default, the first document of
    [localconfig] that defines [name] standing for localconfig. *)
Definition resolve (name : string) (localconfig : list dict)
    (globalconfig : dict) (default : value) : value :=
  match List.find (dict_mem name) localconfig with
  | Some x => dict_get_default x name VNone
  | None => dict_get_default globalconfig name default
  end.

(** No document of the list defines [name]. *)
Definition undefined_in (name : string) (docs : list dict) : Prop :=
  Forall (fun x => dict_get x name = None) docs.

(** The canonical form of a domain key the specification speaks of: the
    domain names sorted, then joined by single spaces. *)
Fixpoint insert_sorted (x : string) (l : list string) : list string :=
  match l with
  | [] => [x]
  | y :: l' => if String.leb x y then x :: l else y :: insert_sorted x l'
  end.

Definition sort_names (l : list string) : list string :=
  fold_right insert_sorted [] l.

Definition canonical (domains : string) : string :=
  join " " (sort_names (split " " domains)).

(** The fields of a resolved config up to [ca_file], in the order in
    which [parse_config_entry] sets them. *)
Definition resolved_config (domains : string) (localconfig : list dict)
    (g : dict) (dt : dictof string) (tos work_dir : value)
    (account_key : string) (ttl_days : Z) (csr crt key : string)
    (key_length : Z) (static_ca : bool) (ca_file : value) : dict :=
  let translated := (0 <? length dt)%nat in
  let domainlist := if translated then dict_values dt else split " " domains in
  [ ("domains", VStr (if translated then join " " domainlist else domains));
    ("domainlist", VList (map VStr domainlist));
    ("id", VStr (md5_hexdigest domains));
    ("domaintranslation", str_dict dt);
    ("defaults", dict_get_default g "defaults" (VDict []));
    ("api", resolve "api" localconfig g (VStr DEFAULT_API));
    ("authority", resolve "authority" localconfig g (VStr DEFAULT_AUTHORITY));
    ("authority_tos_agreement",
     resolve "authority_tos_agreement" localconfig g tos);
    ("authority_contact_email",
     resolve "authority_contact_email" localconfig g VNone);
    ("account_key", resolve "account_key" localconfig g (VStr account_key));
    ("cert_dir", resolve "cert_dir" localconfig g work_dir);
    ("ttl_days", VInt ttl_days);
    ("cert_revoke_superseded",
     resolve "cert_revoke_superseded" localconfig g (VStr "false"));
    ("csr_static", resolve "csr_static" localconfig g (VStr "false"));
    ("csr_file", resolve "csr_file" localconfig g (VStr csr));
    ("cert_file",
     resolve "cert_file" localconfig g
       (dict_get_default g "server_cert" (VStr crt)));
    ("key_file",
     resolve "key_file" localconfig g
       (dict_get_default g "server_key" (VStr key)));
    ("key_length", VInt key_length);
    ("static_ca", VBool static_ca);
    ("ca_file", ca_file) ].

(** What the code does for the CA location: the domain key decides first
    (it is the only component of [entry] in which ['ca_file' in x] can
    hold), then the legacy global field, then the derived path. *)
Definition ca_resolution (domains : string) (g : dict) (cert_dir : value)
    (static_ca : bool) (ca_file : value) : Prop :=
  (str_contains "ca_file" domains = true /\ static_ca = true /\
   ca_file = VStr domains)
  \/ (str_contains "ca_file" domains = false /\ static_ca = true /\
      dict_get g "server_ca" = Some ca_file)
  \/ (str_contains "ca_file" domains = false /\ static_ca = false /\
      dict_get g "server_ca" = None /\
      exists p, os_path_join cert_dir (md5_hexdigest domains ++ ".ca") = inr p /\
                ca_file = VStr p).

(** *** Deployment *)

Import Acertmgr.



(** The calls of [subprocess.check_output] with the command [a] in a
    trace, and whether [a] was added to the set of actions. *)
Definition is_execution (a : string) (e : event) : bool :=
  match e with
  | Executed a' _ => String.eqb a' a
  | _ => false
  end.

Definition executions (a : string) (tr : list event) : nat :=
  length (List.filter (is_execution a) tr).

Definition is_added (a : string) (e : event) : bool :=
  match e with
  | Added (VStr a') => String.eqb a' a
  | _ => false
  end.

Definition added (a : string) (tr : list event) : bool :=
  existsb (is_added a) tr.

(** Renewal is needed: the certificate file is missing, does not parse,
    or has at most [ttl_days] days left. *)
Definition needs_issuance (lifetime : Z -> string -> option Z) (w : world)
    (cert_file : string) (ttl_days : Z) : Prop :=
  match fs w !! cert_file with
  | None => True
  | Some f =>
      match lifetime (now w) (f_data f) with
      | None => True
      | Some remaining => remaining <= ttl_days
      end
  end.


(** *** Traces *)

(** Events other than the two the action set is about. *)
Definition quiet_event (e : event) : Prop :=
  match e with
  | Added _ | Executed _ _ => False
  | _ => True
  end.

(** [m] only appends quiet events to the trace. *)
Definition quiet {A} (m : M A) : Prop :=
  forall st st' r, m st = (st', r) ->
    exists tr, st_trace st' = (st_trace st ++ tr)%list /\ Forall quiet_event tr.

(** The strings of a set of actions. *)
Definition strings (l : list value) : list string :=
  flat_map (fun v => match v with VStr s => [s] | _ => [] end) l.

(** What the first loop of [main] does to the set of actions: [tr] has no
    execution, the strings of the set stay without repetition, and a
    string is in the set afterwards iff it was there or was added. *)
Definition collects (acts : list value) (tr : list event) (acts' : list value)
  : Prop :=
  (forall a, executions a tr = 0%nat) /\
  (NoDup (strings acts) -> NoDup (strings acts')) /\
  (forall s, In s (strings acts') <-> In s (strings acts) \/ added s tr = true).

(** [m] is such a step of the first loop. *)
Definition collecting (m : list value -> M (list value)) : Prop :=
  forall acts st st' acts', m acts st = (st', inr acts') ->
    exists tr, st_trace st' = (st_trace st ++ tr)%list /\ collects acts tr acts'.


(** *** Handler configs *)

(** The first document of a list that satisfies a test, if any. *)
Definition first_generic (handlerconfigs : list dict) : option dict :=
  List.find (fun x => negb (dict_mem "domain" x)) handlerconfigs.

Definition first_specific (handlerconfigs : list dict) (original : string)
  : option dict :=
  List.find (fun x => match dict_get x "domain" with
                      | Some v => value_eq_str v original
                      | None => false
                      end) handlerconfigs.

Definition updated (cfg : dict) (doc : option dict) : dict :=
  match doc with
  | Some x => dict_update cfg x
  | None => cfg
  end.

(** The handler config the claim describes: the global config, updated by
    the first domain-agnostic document, then by the first document whose
    [domain] is the original name of the domain. *)
Definition expected_handler (globalconfig : dict) (handlerconfigs : list dict)
    (domaintranslation : dictof string) (domain : string) : dict :=
  updated (updated globalconfig (first_generic handlerconfigs))
    (first_specific handlerconfigs
       (dict_get_default domaintranslation domain domain)).

(** [x'] is the override document [x] of the group with the resolved
    config [config] as the loop over the actions leaves it: a document with
    a [path] has been completed in place against [config], any other
    document is as it was.  [complete_action_config] reads only
    [defaults], [ca_file], [cert_file] and [key_file] of [config], which
    are set before the loop and not changed after it. *)
Definition completed (config x x' : dict) : Prop :=
  if dict_mem "path" x
  then complete_action_config x config = inr x'
  else x' = x.

End Spec.

(** ** Further definitions the statements are phrased with *)

Module Terms.
Import Configuration Hashlib Acertmgr.

(** *** configuration.py *)

(** The loop of [complete_action_config] over [defaults.items()]. *)
Definition fill_defaults (defaults_items domainconfig : dict) : dict :=
  fold_left
    (fun domainconfig '(name, value) =>
       if negb (dict_mem name domainconfig)
       then dict_set domainconfig name value
       else domainconfig)
    defaults_items domainconfig.

(** The three names [complete_action_config] takes from the config of the
    domain group, whatever the document or the defaults say. *)
Definition pinned (name : string) : bool :=
  String.eqb name "ca_file" || String.eqb name "cert_file" ||
  String.eqb name "key_file".

(** The IDNA form [idna_convert] gives a name: a wildcard keeps its
    prefix and the rest is encoded. *)
Definition encoded (L : Libs) (domain : string) : option string :=
  if startswith "*." domain
  then option_map (fun a => "*." ++ a) (idna_encode L (drop_str 2 domain))
  else idna_encode L domain.

(** One config per entry, in order; the first entry that raises decides. *)
Fixpoint parse_all (L : Libs) (entries : list (string * list dict)) (g r : dict)
  : result (list dict) :=
  match entries with
  | [] => ret []
  | entry :: rest =>
      let* config := parse_config_entry L entry g r in
      let* configs := parse_all L rest g r in
      ret (config :: configs)
  end.

(** The directory entries [load] reads. *)
Definition selected (L : Libs) (dir gfile : string)
    (files : list (string * string)) : list (string * string) :=
  List.filter (fun f => is_domain_config_file L dir gfile (fst f)) files.

(** *** __init__.py *)







(** The certificate of [config] is there and valid, and every target of
    [config] is current. *)
Definition up_to_date (T : Tools) (w : world) (config : dict) : Prop :=
  exists p c ttl_days targets,
    getitem config "cert_file" = inr (VStr p) /\
    fs w !! p <> None /\
    read_pem_file T (VStr p) w = inr c /\
    getitem config "ttl_days" = inr ttl_days /\
    is_cert_valid T c ttl_days w = inr true /\
    getitem config "actions" = inr (VList targets) /\
    Forall (fun t => exists cfg path,
              t = VDict cfg /\ getitem cfg "path" = inr path /\
              target_is_current T path (VStr p) w = inr true) targets.

Definition is_executed (e : event) : bool :=
  match e with
  | Executed _ _ => true
  | _ => false
  end.

(** The commands of the [Executed] events of a trace, in order. *)
Definition commands (tr : list event) : list string :=
  flat_map (fun e => match e with Executed a _ => [a] | _ => [] end) tr.

End Terms.

(** *** The calls of the issuance workflow *)

Module Calls.
Import Issuance.

(** [m] appends to the calls only calls on which [P] is false. *)
Definition avoids (C : Collab) (P : call -> bool) {A} (m : I C A) : Prop :=
  forall st st' r, m st = (st', r) ->
    exists tr, i_calls C st' = (i_calls C st ++ tr)%list /\
               Forall (fun c => P c = false) tr.

(** The certificate or the CA certificate is written. *)
Definition is_store (c : call) : bool :=
  match c with
  | WritePem Crt _ | WritePem Ca _ => true
  | _ => false
  end.

(** The validity check has answered, or the certificate or the CA
    certificate is written. *)
Definition is_final (c : call) : bool :=
  match c with
  | Validated _ => true
  | _ => is_store c
  end.

Definition is_ca_write (c : call) : bool :=
  match c with
  | WritePem Ca _ => true
  | _ => false
  end.

(** A request is read from a file. *)
Definition is_csr_read (c : call) : bool :=
  match c with
  | ReadPem _ kind => String.eqb kind "csr"
  | _ => false
  end.

(** A key is created: the account key or the key of the certificate. *)
Definition is_key_creation (c : call) : bool :=
  match c with
  | NewAccountKey _ | NewSslKey _ _ => true
  | _ => false
  end.

(** The mode [create_challenge_handler] takes from a handler config. *)
Definition mode_of_handler (cfg : dict) : value :=
  dict_get_default cfg "mode" (VStr "standalone").


(** The calls of [cert_get] from the validity check on, and its result:
    no call and an exception; or the answer [false] and a normal return; or
    the answer [true] followed by writes of the certificate and of the CA
    certificate only. *)
Definition settled {X} (trs : list call) (r : raised X + unit) : Prop :=
  (trs = [] /\ exists e, r = inl e) \/
  (trs = [Validated false] /\ r = inr tt) \/
  (exists writes,
     trs = Validated true :: writes /\
     Forall (fun c => is_store c = true) writes).

(** The calls of [m] are calls before the validity check, then settled
    ones. *)
Definition settles (C : Collab) (m : I C unit) : Prop :=
  forall st st' r, m st = (st', r) ->
    exists tr0 trs,
      i_calls C st' = (i_calls C st ++ tr0 ++ trs)%list /\
      Forall (fun c => is_final c = false) tr0 /\
      settled trs r.

End Calls.

(** ** Further concrete instances *)

Module Cases.
Import Configuration Acertmgr Examples.

(** A global config with defaults for the deployment targets. *)
Definition defaults_global : dict :=
  [ ("defaults", VDict [("user", VStr "www"); ("perm", VStr "640")]) ].

Definition defaults_config : dict :=
  Eval vm_compute in resolved ("example.com", []) defaults_global.

(** A deployment document that sets its own user. *)
Definition alice_document : dict :=
  [ ("path", VStr "/srv/a.pem"); ("user", VStr "alice") ].

(** The group [example.com] with that document after one that sets
    [ttl_days]. *)
Definition alice_config : dict :=
  Eval vm_compute in
    resolved ("example.com", [ [("ttl_days", VInt 14)]; alice_document ])
      defaults_global.

(** The double quote. *)
Definition quote : string := String (ascii_of_nat 34) EmptyString.

(** A text that is JSON and YAML: the group [example.com] with a
    [ttl_days] that is not a number. *)
Definition soon_text : string :=
  "{" ++ quote ++ "example.com" ++ quote ++ ": [{" ++ quote ++ "ttl_days" ++
  quote ++ ": " ++ quote ++ "soon" ++ quote ++ "}]}".

Definition soon_entry : string * list dict :=
  ("example.com", [ [("ttl_days", VStr "soon")] ]).

(** Both parsers read [soon_text]; any other text as in [Examples]. *)
Definition libs : Libs := {|
  idna_loaded := true;
  idna_encode := idna_table;
  int_of_str := decimal_int;
  json_load := fun s =>
    if String.eqb s soon_text then ret [soon_entry] else parse_json s;
  yaml_safe_load := fun s =>
    if String.eqb s soon_text then ret [soon_entry] else parse_yaml s;
  json_load_global := parse_json_global;
  yaml_safe_load_global := parse_yaml_global;
  abspath := fun p => p
|}.

(** Two JSON texts: one group without documents, and two groups of which
    the second sets [ttl_days]. *)
Definition plain_json : string :=
  "{" ++ quote ++ "example.com" ++ quote ++ ": []}".

Definition pair_json : string :=
  "{" ++ quote ++ "a.example" ++ quote ++ ": [], " ++
  quote ++ "b.example" ++ quote ++ ": [{" ++ quote ++ "ttl_days" ++ quote ++
  ": 14}]}".

Definition pair_entries : list (string * list dict) :=
  [ ("a.example", []); ("b.example", [ [("ttl_days", VInt 14)] ]) ].

(** The JSON parser reads these two texts; no text is read as YAML. *)
Definition json_libs : Libs := {|
  idna_loaded := true;
  idna_encode := idna_table;
  int_of_str := decimal_int;
  json_load := fun s =>
    if String.eqb s plain_json then ret [("example.com", [])]
    else if String.eqb s pair_json then ret pair_entries
    else raise (ValueError "json");
  yaml_safe_load := fun _ => raise YAMLError;
  json_load_global := parse_json_global;
  yaml_safe_load_global := parse_yaml_global;
  abspath := fun p => p
|}.

Definition a_config : dict := Eval vm_compute in resolved ("a.example", []) [].

Definition b_config : dict :=
  Eval vm_compute in resolved ("b.example", [ [("ttl_days", VInt 14)] ]) [].

(** The certificate and the key of [example.com] and the two targets of
    [sibling_config] and [bundle_config], written after the certificate. *)
Definition world_deployed : world :=
  {| fs := <["/srv/chain.pem" := regular "CERT" 12]>
             (<["/srv/bundle.pem" := regular "CERTKEY" 12]>
                (<[crt_path := regular "CERT" 10]>
                   (<[key_path := regular "KEY" 5]> ∅)));
     now := 20 |}.


(** The system of [Examples] where the command [false] fails and [chown]
    is not permitted. *)
Definition sys_restricted : Sys := {|
  getpwnam := getpwnam sys;
  getgrnam := getgrnam sys;
  chown_ok := fun _ _ _ => false;
  chmod_ok := fun _ _ => true;
  int_base8 := octal_int;
  create_uid := 1000;
  create_gid := 1000;
  create_mode := 420;
  shell := fun a w => (w, negb (String.eqb a "false"));
  set_iter := fun l => l;
  set_iter_perm := fun l => Permutation_refl l
|}.

End Cases.

Module IssuanceCases.
Import Acertmgr Issuance.

(** Collaborators that never raise: no file exists, keys, requests and
    certificates are texts, and the authority issues a certificate with a
    CA certificate that the validity check accepts or not as [valid]
    says. *)
Definition collab (valid : bool) : Collab := {|
  env := unit;
  xexn := Empty_set;
  pem := string;
  authority := unit;
  handler := value;
  str_iter := fun s => map (fun c => String c EmptyString) (chars s);
  str_index := fun s i =>
    if (0 <=? i)%Z
    then option_map (fun c => String c EmptyString)
           (nth_error (chars s) (Z.to_nat i))
    else None;
  os_isfile := fun _ _ => inr false;
  tools_read_pem_file := fun _ _ e => (e, inr "PEM");
  tools_new_account_key := fun _ e => (e, inr "ACCOUNT KEY");
  tools_new_ssl_key := fun _ _ e => (e, inr "KEY");
  tools_new_cert_request := fun _ _ e => (e, inr "CSR");
  tools_write_pem_file := fun _ _ _ e => (e, inr tt);
  tools_is_cert_valid := fun _ _ e => (e, inr valid);
  new_authority := fun _ _ _ e => (e, inr tt);
  register_account := fun a e => (e, inr a);
  get_crt_from_csr := fun _ _ _ _ e => (e, inr ("CERT", Some "CA"));
  new_handler := fun mode _ e => (e, inr mode)
|}.

Definition initial (valid : bool) : istate (collab valid) :=
  {| i_env := tt : env (collab valid); i_calls := [] |}.

(** The same collaborators where every file exists. *)
Definition collab_with_files : Collab := {|
  env := unit;
  xexn := Empty_set;
  pem := string;
  authority := unit;
  handler := value;
  str_iter := str_iter (collab true);
  str_index := str_index (collab true);
  os_isfile := fun _ _ => inr true;
  tools_read_pem_file := fun _ _ e => (e, inr "PEM");
  tools_new_account_key := fun _ e => (e, inr "ACCOUNT KEY");
  tools_new_ssl_key := fun _ _ e => (e, inr "KEY");
  tools_new_cert_request := fun _ _ e => (e, inr "CSR");
  tools_write_pem_file := fun _ _ _ e => (e, inr tt);
  tools_is_cert_valid := fun _ _ e => (e, inr true);
  new_authority := fun _ _ _ e => (e, inr tt);
  register_account := fun a e => (e, inr a);
  get_crt_from_csr := fun _ _ _ _ e => (e, inr ("CERT", Some "CA"));
  new_handler := fun mode _ e => (e, inr mode)
|}.

(** The group [a.com b.com] with a webdir handler for [b.com]. *)
Definition webdir_entry : string * list dict :=
  ("a.com b.com",
   [ [ ("mode", VStr "webdir"); ("domain", VStr "b.com");
       ("webdir", VStr "/var/www") ] ]).

Definition webdir_config : dict :=
  Eval vm_compute in Examples.resolved webdir_entry [].


Definition webdir_handlers : dict :=
  Eval vm_compute in
    match dict_get webdir_config "handlers" with
    | Some (VDict hs) => hs
    | _ => []
    end.

(** The handler configs of [a.com] and of [b.com]. *)
Definition handler_a : dict := [].

Definition handler_b : dict :=
  [ ("mode", VStr "webdir"); ("domain", VStr "b.com");
    ("webdir", VStr "/var/www") ].

(** A group whose CA certificate is set by the legacy global field. *)
Definition static_config : dict :=
  Eval vm_compute in
    Examples.resolved ("example.com", []) [("server_ca", VStr "/etc/ssl/ca.pem")].

End IssuanceCases.

(** * Properties *)

Section DictFacts.
Context {V : Type}.
Implicit Types (d : dictof V) (k : string) (v : V).

Lemma dict_get_set_eq d k v : dict_get (dict_set d k v) k = Some v.
Proof.
  induction d as [|[k' v'] d IH]; simpl.
  - now rewrite String.eqb_refl.
  - destruct (String.eqb k' k) eqn:E; simpl; rewrite E; auto.
Qed.

Lemma dict_get_set_ne d k k' v :
  k <> k' -> dict_get (dict_set d k v) k' = dict_get d k'.
Proof.
  intros Hne. induction d as [|[k0 v0] d IH]; simpl.
  - destruct (String.eqb k k') eqn:E; auto.
    apply String.eqb_eq in E. contradiction.
  - destruct (String.eqb k0 k) eqn:E; simpl.
    + apply String.eqb_eq in E. subst k0.
      destruct (String.eqb k k') eqn:E'; auto.
      apply String.eqb_eq in E'. contradiction.
    + now rewrite IH.
Qed.

Lemma dict_mem_true k d : dict_mem k d = true <-> exists v, dict_get d k = Some v.
Proof.
  unfold dict_mem. destruct (dict_get d k); split; eauto; try discriminate.
  intros [? ?]. discriminate.
Qed.

Lemma dict_mem_false k d : dict_mem k d = false <-> dict_get d k = None.
Proof.
  unfold dict_mem. destruct (dict_get d k); split; auto; discriminate.
Qed.

End DictFacts.

Lemma bind_inr {A B} (m : result A) (k : A -> result B) b :
  bind m k = inr b -> exists a, m = inr a /\ k a = inr b.
Proof. destruct m; simpl; [discriminate|eauto]. Qed.

(** ** hashlib.md5: the test vectors of RFC 1321 *)

Example md5_hexdigest_empty : Hashlib.md5_hexdigest "" = "d41d8cd98f00b204e9800998ecf8427e".
Proof. vm_compute. reflexivity. Qed.

Example md5_hexdigest_abc : Hashlib.md5_hexdigest "abc" = "900150983cd24fb0d6963f7d28e17f72".
Proof. vm_compute. reflexivity. Qed.

Example md5_hexdigest_two_blocks :
  Hashlib.md5_hexdigest "12345678901234567890123456789012345678901234567890123456789012345678901234567890"
  = "57edf4a22be3c955ac49da2e2107b67a".
Proof. vm_compute. reflexivity. Qed.


(** ** configuration.py *)

Section ConfigurationFacts.
Import Configuration Hashlib Spec.

Lemma update_config_value_resolve config name localconfig globalconfig default :
  update_config_value config name localconfig globalconfig default
  = inr (dict_set config name (resolve name localconfig globalconfig default)).
Proof.
  unfold update_config_value, resolve.
  induction localconfig as [|x l IH]; simpl; [reflexivity|].
  destruct (dict_mem name x) eqn:E; [|exact IH].
  unfold getitem, dict_get_default.
  apply dict_mem_true in E as [v ->]. reflexivity.
Qed.

Lemma resolve_first name before x after g default w :
  undefined_in name before -> dict_get x name = Some w ->
  resolve name (before ++ x :: after) g default = w.
Proof.
  unfold resolve, undefined_in. intros Hb Hx.
  induction Hb as [|y before Hy _ IH]; simpl.
  - unfold dict_mem, dict_get_default. rewrite Hx. simpl. now rewrite Hx.
  - unfold dict_mem at 1. rewrite Hy. exact IH.
Qed.

Lemma resolve_undefined name localconfig g default :
  undefined_in name localconfig ->
  resolve name localconfig g default = dict_get_default g name default.
Proof.
  unfold resolve, undefined_in. intros H.
  induction H as [|y l Hy _ IH]; simpl; [reflexivity|].
  unfold dict_mem at 1. rewrite Hy. exact IH.
Qed.

(** C6.  [update_config_value] sets [config[name]] to the value that the
    first document of the override list defining [name] gives it, whatever
    the documents after it say; when no document defines [name], to the
    value of the global config; and when that does not define it either,
    to the default passed by the caller.  It never raises. *)
Theorem update_config_value_precedence
    (config : dict) (name : string) (localconfig : list dict)
    (globalconfig : dict) (default : value) :
  exists v,
    update_config_value config name localconfig globalconfig default
    = inr (dict_set config name v)
    /\ (forall before x after w,
          localconfig = (before ++ x :: after)%list ->
          undefined_in name before -> dict_get x name = Some w -> v = w)
    /\ (forall w,
          undefined_in name localconfig ->
          dict_get globalconfig name = Some w -> v = w)
    /\ (undefined_in name localconfig ->
        dict_get globalconfig name = None -> v = default).
Proof.
  exists (resolve name localconfig globalconfig default).
  split; [apply update_config_value_resolve|].
  split; [|split].
  - intros before x after w -> Hb Hx. now apply resolve_first.
  - intros w Hu Hg. rewrite resolve_undefined by assumption.
    unfold dict_get_default. now rewrite Hg.
  - intros Hu Hg. rewrite resolve_undefined by assumption.
    unfold dict_get_default. now rewrite Hg.
Qed.

Lemma update_config_value_precedence_witness :
  exists v,
    update_config_value [] "authority"
      [ [("api", VStr "v1")];
        [("authority", VStr "https://test-ca")];
        [("authority", VStr "https://other-ca")] ]
      [("authority", VStr "https://global-ca")] (VStr DEFAULT_AUTHORITY)
    = inr [("authority", v)]
    /\ v = VStr "https://test-ca".
Proof.
  destruct (update_config_value_precedence [] "authority"
      [ [("api", VStr "v1")];
        [("authority", VStr "https://test-ca")];
        [("authority", VStr "https://other-ca")] ]
      [("authority", VStr "https://global-ca")] (VStr DEFAULT_AUTHORITY))
    as (v & Hv & Hfirst & _).
  exists v. split; [exact Hv|].
  apply (Hfirst [ [("api", VStr "v1")] ] [("authority", VStr "https://test-ca")]
           [ [("authority", VStr "https://other-ca")] ]).
  - reflexivity.
  - repeat constructor.
  - reflexivity.
Defined.

Lemma bind_update {B} c n l g d (k : dict -> result B) :
  bind (update_config_value c n l g d) k = k (dict_set c n (resolve n l g d)).
Proof. now rewrite update_config_value_resolve. Qed.

Lemma if_config (c : bool) (a1 a2 b1 b2 : value) (rest : dict) k1 k2 :
  (if c then (k1, a1) :: (k2, b1) :: rest else (k1, a2) :: (k2, b2) :: rest)
  = (k1, if c then a1 else a2) :: (k2, if c then b1 else b2) :: rest.
Proof. now destruct c. Qed.

Lemma list_contains_str_dicts (l : list dict) s :
  list_contains_str (map VDict l) s = false.
Proof. induction l; simpl; auto. Qed.

Ltac crunch H :=
  cbv beta iota zeta delta
    [getitem dict_get dict_set String.eqb Ascii.eqb Bool.eqb fst snd ret] in H.

Ltac step H :=
  first
  [ rewrite bind_update in H; crunch H
  | let a := fresh "a" in let E := fresh "E" in
    apply bind_inr in H as (a & E & H); crunch H; try rewrite if_config in H ].

(** What a successful call of [parse_config_entry] computed, field by
    field. *)
Lemma parse_config_entry_inv L domains localconfig g r config :
  parse_config_entry L (domains, localconfig) g r = inr config ->
  exists dt tos work_dir account_key ttl_days csr crt key key_length static_ca
         ca_file actions localconfig',
    let cert_dir := resolve "cert_dir" localconfig g work_dir in
    let id := md5_hexdigest domains in
    let base :=
      resolved_config domains localconfig g dt tos work_dir account_key
        ttl_days csr crt key key_length static_ca ca_file in
    let domainlist :=
      if (0 <? length dt)%nat then dict_values dt else split " " domains in
    idna_convert L (split " " domains) = inr dt /\
    getitem r "authority_tos_agreement" = inr tos /\
    getitem r "work_dir" = inr work_dir /\
    os_path_join work_dir "account.key" = inr account_key /\
    py_int L (resolve "ttl_days" localconfig g (VInt DEFAULT_TTL)) = inr ttl_days /\
    os_path_join cert_dir (id ++ ".csr") = inr csr /\
    os_path_join cert_dir (id ++ ".crt") = inr crt /\
    os_path_join cert_dir (id ++ ".key") = inr key /\
    py_int L (resolve "key_length" localconfig g (VInt DEFAULT_KEY_LENGTH))
      = inr key_length /\
    ca_resolution domains g cert_dir static_ca ca_file /\
    complete_actions localconfig (base ++ [("actions", VList [])])%list
      = inr (actions, localconfig') /\
    config =
      (base ++
       [("actions", VList (map VDict actions));
        ("handlers",
         VDict (handlers_loop g (List.filter (dict_mem "mode") localconfig')
                  dt domainlist []))])%list.
Proof.
  intros H. unfold parse_config_entry in H.
  set (gtos := getitem r "authority_tos_agreement") in H.
  set (gwd := getitem r "work_dir") in H.
  set (gca := getitem g "server_ca") in H.
  do 28 step H.
  assert (a3 = a1) by congruence. subst a3.
  injection E4 as <-. injection E6 as <-. injection E8 as <-.
  injection E10 as <-. injection E12 as <-.
  rewrite list_contains_str_dicts in H.
  exists a, a0, a1, a2, a5, a7, a9, a11, a13.
  destruct (str_contains "ca_file" domains) eqn:Hc; cbn [app] in H.
  - cbn [bind] in H. crunch H. step H. destruct a3 as [actions localconfig'].
    injection H as <-.
    exists true, (VStr domains), actions, localconfig'.
    cbv zeta. repeat (split; [assumption|]).
    split; [left; auto|]. unfold resolved_config. cbn [app].
    revert E4. destruct (0 <? length a)%nat; intros E4; split; auto.
  - destruct (dict_mem "server_ca" g) eqn:Hm.
    + apply bind_inr in H as (cfg & Ecfg & H).
      apply bind_inr in Ecfg as (ca & Eca & Ecfg). crunch Ecfg.
      injection Ecfg as <-. crunch H. step H.
      destruct a3 as [actions localconfig']. injection H as <-.
      exists true, ca, actions, localconfig'.
      cbv zeta. repeat (split; [assumption|]).
      split.
      { right; left. repeat split; auto. subst gca. unfold getitem in Eca.
        destruct (dict_get g "server_ca"); [now injection Eca as ->|discriminate]. }
      unfold resolved_config. cbn [app].
      revert E4. destruct (0 <? length a)%nat; intros E4; split; auto.
    + apply bind_inr in H as (cfg & Ecfg & H).
      apply bind_inr in Ecfg as (cd & Ecd & Ecfg). crunch Ecd.
      injection Ecd as <-.
      apply bind_inr in Ecfg as (ca & Eca & Ecfg). crunch Ecfg.
      injection Ecfg as <-. crunch H. step H.
      destruct a3 as [actions localconfig']. injection H as <-.
      exists false, (VStr ca), actions, localconfig'.
      cbv zeta. repeat (split; [assumption|]).
      split.
      { right; right. repeat split; auto.
        - now apply dict_mem_false.
        - eauto. }
      unfold resolved_config. cbn [app].
      revert E4. destruct (0 <? length a)%nat; intros E4; split; auto.
Qed.

(** The identifier of a resolved config is the MD5 of the domain key as
    it is written in the file. *)
Lemma parse_config_entry_id L domains localconfig g r config :
  parse_config_entry L (domains, localconfig) g r = inr config ->
  dict_get config "id" = Some (VStr (md5_hexdigest domains)).
Proof.
  intros H. apply parse_config_entry_inv in H.
  destruct H as (dt & tos & wd & ak & ttl & csr & crt & key & kl & sca & ca
                 & acts & lc' & H).
  cbv zeta in H.
  destruct H as (_ & _ & _ & _ & _ & _ & _ & _ & _ & _ & _ & ->).
  reflexivity.
Qed.

(** C1, as the code has it.  The identifier depends on the domain key
    alone, taken as the string written in the file: two entries with the
    same key string resolve to the same identifier, the MD5 of that string,
    whatever their override documents, the global config, the runtime
    config and the libraries of the run are. *)
Theorem id_function_of_domain_key
    (L1 L2 : Libs) (domains : string) (localconfig1 localconfig2 : list dict)
    (g1 g2 r1 r2 config1 config2 : dict) :
  parse_config_entry L1 (domains, localconfig1) g1 r1 = inr config1 ->
  parse_config_entry L2 (domains, localconfig2) g2 r2 = inr config2 ->
  dict_get config1 "id" = Some (VStr (md5_hexdigest domains)) /\
  dict_get config2 "id" = dict_get config1 "id".
Proof.
  intros H1 H2.
  apply parse_config_entry_id in H1, H2. rewrite H1, H2. auto.
Qed.


Lemma id_function_of_domain_key_witness :
  dict_get Examples.test_ca_config "id"
    = Some (VStr (md5_hexdigest "example.com")) /\
  dict_get Examples.plain_config "id" = dict_get Examples.test_ca_config "id".
Proof.
  apply (id_function_of_domain_key Examples.libs Examples.libs "example.com"
           (snd Examples.test_ca_entry) [] [("ttl_days", VInt 30)] []
           Examples.runtimeconfig Examples.runtimeconfig).
  - vm_compute. reflexivity.
  - vm_compute. reflexivity.
Defined.

(** C1 as the specification words it does not hold: the keys
    [a.com b.com] and [b.com a.com] name the same set of domains and have
    the same sorted, space-joined form, and the two entries resolve to
    different identifiers. *)
Lemma id_differs_for_reordered_domains :
  canonical "a.com b.com" = canonical "b.com a.com" /\
  (forall d, In d (split " " "a.com b.com") <-> In d (split " " "b.com a.com")) /\
  exists config1 config2,
    parse_config_entry Examples.libs ("a.com b.com", []) [] Examples.runtimeconfig
      = inr config1 /\
    parse_config_entry Examples.libs ("b.com a.com", []) [] Examples.runtimeconfig
      = inr config2 /\
    dict_get config1 "id" = Some (VStr "480543b3008926cc9aa49d74fcc4b227") /\
    dict_get config2 "id" = Some (VStr "d34d225ebb1592ff4bb036dd3dc94a79") /\
    dict_get config1 "id" <> dict_get config2 "id".
Proof.
  split; [vm_compute; reflexivity|].
  split.
  { intros d. vm_compute. tauto. }
  destruct (parse_config_entry Examples.libs ("a.com b.com", []) []
              Examples.runtimeconfig) as [e1|config1] eqn:E1;
    [vm_compute in E1; discriminate|].
  destruct (parse_config_entry Examples.libs ("b.com a.com", []) []
              Examples.runtimeconfig) as [e2|config2] eqn:E2;
    [vm_compute in E2; discriminate|].
  exists config1, config2.
  vm_compute in E1. vm_compute in E2.
  injection E1 as <-. injection E2 as <-.
  repeat split; try reflexivity. vm_compute. discriminate.
Qed.

(** C3 at the entry [{"example.com": [{"ca_file": "/etc/ssl/ca.pem"}]}]
    with an empty global config: the override document is not looked at,
    the config is resolved as not statically pinned and the CA path is
    the derived one. *)
Theorem ca_file_override_document_ignored :
  exists config,
    parse_config_entry Examples.libs
      ("example.com", [ [("ca_file", VStr "/etc/ssl/ca.pem")] ]) []
      Examples.runtimeconfig = inr config /\
    dict_get config "static_ca" = Some (VBool false) /\
    dict_get config "ca_file"
      = Some (VStr "/etc/acertmgr/5ababd603b22780302dd8d83498e5172.ca").
Proof.
  eexists. split; [vm_compute; reflexivity|]. split; reflexivity.
Qed.

(** The override documents never reach the CA resolution: for a domain
    key that does not contain the text [ca_file] and a global config
    without [server_ca], every successful resolution is non-static. *)
Lemma ca_resolution_ignores_override_documents L domains localconfig g r config :
  parse_config_entry L (domains, localconfig) g r = inr config ->
  str_contains "ca_file" domains = false ->
  dict_get g "server_ca" = None ->
  dict_get config "static_ca" = Some (VBool false).
Proof.
  intros H Hk Hg. apply parse_config_entry_inv in H.
  destruct H as (dt & tos & wd & ak & ttl & csr & crt & key & kl & sca & ca
                 & acts & lc' & H).
  cbv zeta in H.
  destruct H as (_ & _ & _ & _ & _ & _ & _ & _ & _ & Hca & _ & ->).
  destruct Hca as [(Hc & _)|[(_ & _ & Hs)|(_ & -> & _)]].
  - congruence.
  - congruence.
  - reflexivity.
Qed.

(** C4 at the key [bücher.de example.com]: the working domain list is
    the list of the original non-ASCII names; the ASCII form
    [xn--bcher-kva.de] is not in it, and [example.com] is dropped. *)
Theorem translated_domainlist_holds_original_names :
  exists config,
    parse_config_entry Examples.libs ("bücher.de example.com", []) []
      Examples.runtimeconfig = inr config /\
    dict_get config "domaintranslation"
      = Some (VDict [("xn--bcher-kva.de", VStr "bücher.de")]) /\
    dict_get config "domainlist" = Some (VList [VStr "bücher.de"]) /\
    dict_get config "domains" = Some (VStr "bücher.de").
Proof.
  eexists. split; [vm_compute; reflexivity|]. repeat split; reflexivity.
Qed.

Lemma map_VStr_inj (a b : list string) : map VStr a = map VStr b -> a = b.
Proof.
  revert b. induction a as [|x a IH]; intros [|y b] H; simpl in H;
    try discriminate; auto.
  injection H as -> H. f_equal. now apply IH.
Qed.

Lemma idna_convert_loop_values L domainlist dt0 dt :
  idna_convert_loop L domainlist dt0 = inr dt ->
  Forall (fun v => has_non_ascii v = true) (dict_values dt0) ->
  Forall (fun v => has_non_ascii v = true) (dict_values dt).
Proof.
  revert dt0. induction domainlist as [|d l IH]; simpl; intros dt0 H H0.
  - injection H as <-. exact H0.
  - apply bind_inr in H as (dt1 & E & H). apply (IH _ H). clear IH H.
    unfold idna_convert_domain in E.
    destruct (has_non_ascii d) eqn:Hd; [|injection E as <-; exact H0].
    apply bind_inr in E as (a & _ & E). injection E as <-.
    clear -H0 Hd. induction dt0 as [|[k v] dt0 IH]; simpl.
    + constructor; auto.
    + inversion H0; subst. destruct (String.eqb k a); simpl.
      * constructor; auto.
      * constructor; auto.
Qed.

(** Whenever a translation occurs, every name of the working domain list
    has a non-ASCII character. *)
Lemma translated_domainlist_non_ascii L domains localconfig g r config dt names :
  parse_config_entry L (domains, localconfig) g r = inr config ->
  idna_convert L (split " " domains) = inr dt -> dt <> [] ->
  dict_get config "domainlist" = Some (VList (map VStr names)) ->
  Forall (fun v => has_non_ascii v = true) names.
Proof.
  intros H Hdt Hne Hl. apply parse_config_entry_inv in H.
  destruct H as (dt' & tos & wd & ak & ttl & csr & crt & key & kl & sca & ca
                 & acts & lc' & H).
  cbv zeta in H.
  destruct H as (Hdt' & _ & _ & _ & _ & _ & _ & _ & _ & _ & _ & ->).
  rewrite Hdt in Hdt'. injection Hdt' as <-.
  destruct dt as [|kv dt]; [contradiction|].
  assert (Hl' : Some (VList (map VStr (dict_values (kv :: dt))))
                = Some (VList (map VStr names))) by exact Hl.
  assert (Hn : map VStr (dict_values (kv :: dt)) = map VStr names)
    by congruence.
  apply map_VStr_inj in Hn. subst names. clear Hl Hl'.
  unfold idna_convert in Hdt.
  destruct (idna_loaded L && has_non_ascii (join "" (split " " domains)));
    [|discriminate].
  eapply idna_convert_loop_values; [exact Hdt|constructor].
Qed.

(** A domain-group file that neither parser accepts makes the loop over
    the files of the directory raise. *)
Lemma load_domainconfigs_unparsable
    (L : Libs) (dir gfile : string) (files : list (string * string))
    (g r : dict) (domainconfigs : list dict) (name content msg : string)
    (e' : exn) :
  In (name, content) files ->
  is_domain_config_file L dir gfile name = true ->
  json_load L content = inl (ValueError msg) ->
  yaml_safe_load L content = inl e' ->
  exists e, load_domainconfigs L dir gfile files g r domainconfigs = inl e.
Proof.
  intros Hin Hsel Hjson Hyaml. revert domainconfigs.
  induction files as [|[n c] files IH]; intros acc; [contradiction|].
  simpl. destruct Hin as [Heq|Hin].
  - injection Heq as -> ->. rewrite Hsel.
    unfold load_domain_config_file. rewrite Hjson. simpl. rewrite Hyaml.
    simpl. eauto.
  - destruct (is_domain_config_file L dir gfile n); [|now apply IH].
    destruct (load_domain_config_file L c g r acc) as [e|acc']; simpl; eauto.
Qed.

(** C2, as the code has it.  A domain-group file of the configuration
    directory that neither parser accepts makes the whole [load] raise: no
    config of any file of the directory is returned. *)
Theorem unparsable_file_aborts_load
    (L : Libs) (args : Args) (disk : Disk) (files : list (string * string))
    (name content msg : string) (e' : exn) :
  listdir disk (domain_config_dir args disk) = Some files ->
  In (name, content) files ->
  is_domain_config_file L (domain_config_dir args disk)
    (global_config_file args disk) name = true ->
  json_load L content = inl (ValueError msg) ->
  yaml_safe_load L content = inl e' ->
  exists e, load L args disk = inl e.
Proof.
  intros Hdir Hin Hsel Hjson Hyaml. unfold load. cbv zeta.
  destruct (load_runtimeconfig L args disk _ _) as [e|r]; simpl; [eauto|].
  destruct (load_globalconfig L disk _) as [e|g]; simpl; [eauto|].
  rewrite Hdir.
  destruct (load_domainconfigs_unparsable L _ _ files g r [] name content msg e'
              Hin Hsel Hjson Hyaml) as [e He].
  rewrite He. simpl. eauto.
Qed.

Lemma unparsable_file_aborts_load_witness :
  exists e,
    load Examples.libs Examples.no_args
      (Examples.disk_with [("good.conf", "example.com: []"); ("bad.conf", "{{{")])
    = inl e.
Proof.
  apply (unparsable_file_aborts_load Examples.libs Examples.no_args
           (Examples.disk_with
              [("good.conf", "example.com: []"); ("bad.conf", "{{{")])
           [("good.conf", "example.com: []"); ("bad.conf", "{{{")]
           "bad.conf" "{{{" "json" YAMLError).
  - vm_compute. reflexivity.
  - simpl. right. left. reflexivity.
  - vm_compute. reflexivity.
  - vm_compute. reflexivity.
  - vm_compute. reflexivity.
Defined.

(** C2 as the specification words it does not hold: [good.conf] alone
    loads and yields one config; with the unparsable [bad.conf] beside it,
    in either order of the directory listing, the load raises and the
    config of [good.conf] is not returned. *)
Lemma bad_file_loses_good_file :
  load Examples.libs Examples.no_args
    (Examples.disk_with [("good.conf", "example.com: []")])
  = inr (Examples.runtimeconfig, [Examples.plain_config]) /\
  load Examples.libs Examples.no_args
    (Examples.disk_with [("bad.conf", "{{{"); ("good.conf", "example.com: []")])
  = inl YAMLError /\
  load Examples.libs Examples.no_args
    (Examples.disk_with [("good.conf", "example.com: []"); ("bad.conf", "{{{")])
  = inl YAMLError.
Proof. repeat split; vm_compute; reflexivity. Qed.

End ConfigurationFacts.

(** ** __init__.py *)

Section AcertmgrFacts.
Import Configuration Acertmgr Spec.
Context (O : Sys) (T : Tools).

Lemma mbind_inr {A B} (m : M A) (k : A -> M B) st st' a :
  m st = (st', inr a) -> mbind m k st = k a st'.
Proof. unfold mbind. now intros ->. Qed.



Lemma append_cons (c : ascii) (a b : string) :
  (String c a ++ b)%string = String c (a ++ b)%string.
Proof. reflexivity. Qed.











Lemma quiet_mret {A} (a : A) : quiet (mret a).
Proof.
  intros st st' r H. injection H as <- <-. exists []. now rewrite app_nil_r.
Qed.

Lemma quiet_lift {A} (r : result A) : quiet (lift r).
Proof.
  intros st st' r' H. injection H as <- <-. exists []. now rewrite app_nil_r.
Qed.

Lemma quiet_get_world : quiet get_world.
Proof.
  intros st st' r H. injection H as <- <-. exists []. now rewrite app_nil_r.
Qed.

Lemma quiet_put_world w : quiet (put_world w).
Proof.
  intros st st' r H. injection H as <- <-. exists []. now rewrite app_nil_r.
Qed.

Lemma quiet_emit e : quiet_event e -> quiet (emit e).
Proof.
  intros He st st' r H. injection H as <- <-. exists [e]. split; auto.
Qed.

Lemma quiet_mbind {A B} (m : M A) (k : A -> M B) :
  quiet m -> (forall a, quiet (k a)) -> quiet (mbind m k).
Proof.
  intros Hm Hk st st' r H. unfold mbind in H.
  destruct (m st) as [st1 [e|a]] eqn:E.
  - injection H as <- <-. eapply Hm; eauto.
  - destruct (Hm _ _ _ E) as (tr1 & E1 & H1).
    destruct (Hk _ _ _ _ H) as (tr2 & E2 & H2).
    exists (tr1 ++ tr2)%list. rewrite E2, E1, app_assoc. split; auto.
    apply Forall_app; auto.
Qed.

Ltac quiet_tac :=
  repeat first
    [ apply quiet_mret | apply quiet_lift | apply quiet_get_world
    | apply quiet_put_world | apply quiet_emit; exact I
    | apply quiet_mbind; [|intros ?] ].

Lemma quiet_cert_get settings : quiet (cert_get T settings).
Proof.
  unfold cert_get. quiet_tac.
  intros st st' r H. destruct (issue T settings (st_world st)) as [w r'].
  injection H as <- <-. exists []. simpl. now rewrite app_nil_r.
Qed.

Lemma quiet_renew_if_needed config : quiet (renew_if_needed T config).
Proof.
  unfold renew_if_needed. quiet_tac.
  - destruct a0; quiet_tac.
  - destruct a1; [apply quiet_cert_get|quiet_tac].
Qed.

Lemma quiet_cert_put settings : quiet (cert_put O settings).
Proof.
  unfold cert_put. quiet_tac.
  destruct (write_components _ _ _ _ _ _) as [buf r]. quiet_tac.
  - destruct (chown_ok O _ _ _); quiet_tac.
  - destruct (chmod_ok O _ _); quiet_tac.
Qed.


Lemma mbind_inv {A B} (m : M A) (k : A -> M B) st st' b :
  mbind m k st = (st', inr b) ->
  exists st1 a, m st = (st1, inr a) /\ k a st1 = (st', inr b).
Proof.
  unfold mbind. destruct (m st) as [st1 [e|a]]; [discriminate|eauto].
Qed.

Lemma lift_inv {A} (r : result A) st st' a :
  lift r st = (st', inr a) -> st' = st /\ r = inr a.
Proof. unfold lift. intros H. injection H as <- ->. auto. Qed.


Lemma strings_app l1 l2 : strings (l1 ++ l2) = (strings l1 ++ strings l2)%list.
Proof. unfold strings. apply flat_map_app. Qed.

Lemma in_strings s l : In s (strings l) <-> In (VStr s) l.
Proof.
  unfold strings. rewrite in_flat_map. split.
  - intros (v & Hv & Hs). destruct v; simpl in Hs; try contradiction.
    destruct Hs as [->|[]]. exact Hv.
  - intros H. exists (VStr s). split; [exact H|now left].
Qed.

Lemma set_mem_str s acts : set_mem (HStr s) acts = true <-> In s (strings acts).
Proof.
  unfold set_mem. split.
  - intros H. apply existsb_exists in H as (v & Hv & Hk). apply in_strings.
    destruct v as [| [|] | z | t | |]; simpl in Hk; try discriminate.
    apply String.eqb_eq in Hk. now subst.
  - intros H. apply in_strings in H. apply existsb_exists.
    exists (VStr s). split; [exact H|]. simpl. apply String.eqb_refl.
Qed.

Lemma set_add_strings acts v acts' :
  set_add acts v = inr acts' ->
  (NoDup (strings acts) -> NoDup (strings acts')) /\
  (forall s, In s (strings acts') <-> In s (strings acts) \/ v = VStr s).
Proof.
  unfold set_add. destruct (hash_key v) as [k|] eqn:Hk; [|discriminate].
  intros H. injection H as <-.
  destruct (set_mem k acts) eqn:Hm.
  - split; [auto|]. intros s. split; [auto|]. intros [H| ->]; [exact H|].
    simpl in Hk. injection Hk as <-. now apply set_mem_str.
  - cbv beta iota. rewrite strings_app. destruct v as [| b | z | t | |]; simpl in *;
      try discriminate;
      try (rewrite app_nil_r; split; [auto|]; intros s; split; [auto|];
           intros [H|H]; [exact H|discriminate]).
    injection Hk as <-. split.
    + intros Hnd. apply NoDup_app. split; [exact Hnd|]. split.
      * intros x Hx Hx'. apply list_elem_of_In in Hx.
        apply list_elem_of_singleton in Hx'. subst x.
        apply set_mem_str in Hx. congruence.
      * apply NoDup_singleton.
    + intros s. rewrite in_app_iff. simpl. split.
      * intros [H|[->|[]]]; auto.
      * intros [H|H]; [auto|]. injection H as ->. auto.
Qed.


Lemma executions_app a tr1 tr2 :
  executions a (tr1 ++ tr2) = (executions a tr1 + executions a tr2)%nat.
Proof. unfold executions. now rewrite List.filter_app, length_app. Qed.

Lemma added_app a tr1 tr2 : added a (tr1 ++ tr2) = added a tr1 || added a tr2.
Proof. unfold added. apply existsb_app. Qed.

Lemma quiet_executions tr a : Forall quiet_event tr -> executions a tr = 0%nat.
Proof.
  induction 1 as [|e tr He _ IH]; [reflexivity|].
  unfold executions in *. simpl. destruct e; simpl in *; try contradiction; auto.
Qed.

Lemma quiet_added tr a : Forall quiet_event tr -> added a tr = false.
Proof.
  induction 1 as [|e tr He _ IH]; [reflexivity|].
  unfold added in *. simpl. destruct e; simpl in *; try contradiction; auto.
Qed.

Lemma collects_refl acts : collects acts [] acts.
Proof.
  split; [reflexivity|]. split; [auto|]. intros s. simpl. split; auto.
  intros [H|H]; [auto|discriminate].
Qed.

Lemma collects_quiet acts tr : Forall quiet_event tr -> collects acts tr acts.
Proof.
  intros Hq. split; [intros a; now apply quiet_executions|].
  split; [auto|]. intros s. rewrite quiet_added by assumption.
  split; auto. intros [H|H]; [auto|discriminate].
Qed.

Lemma collects_trans acts tr1 acts1 tr2 acts2 :
  collects acts tr1 acts1 -> collects acts1 tr2 acts2 ->
  collects acts (tr1 ++ tr2) acts2.
Proof.
  intros (E1 & N1 & S1) (E2 & N2 & S2). split; [|split].
  - intros a. now rewrite executions_app, E1, E2.
  - auto.
  - intros s. rewrite S2, S1, added_app, orb_true_iff. tauto.
Qed.


Lemma collecting_deploy_target cert_file cfg :
  collecting (deploy_target O T cert_file cfg).
Proof.
  intros acts st st' acts' H. unfold deploy_target in H.
  apply mbind_inv in H as (st1 & d & H1 & H). apply lift_inv in H1 as [-> _].
  apply mbind_inv in H as (st1 & path & H1 & H). apply lift_inv in H1 as [-> _].
  apply mbind_inv in H as (st1 & w & H1 & H). injection H1 as <- <-.
  apply mbind_inv in H as (st1 & cur & H1 & H). apply lift_inv in H1 as [-> _].
  destruct (negb cur).
  - apply mbind_inv in H as (st1 & path' & H1 & H). apply lift_inv in H1 as [-> _].
    apply mbind_inv in H as (st1 & u & H1 & H). injection H1 as <-.
    apply mbind_inv in H as (st2 & action & H1 & H).
    apply quiet_cert_put in H1 as (tr & Etr & Hq). simpl in Etr.
    apply mbind_inv in H as (st3 & acts1 & H1 & H). apply lift_inv in H1 as [-> Hadd].
    apply mbind_inv in H as (st3 & u' & H1 & H). injection H1 as <-.
    injection H as <- <-. simpl. rewrite Etr, <- !app_assoc.
    eexists. split; [reflexivity|].
    apply set_add_strings in Hadd as [Hnd Hs].
    split; [|split].
    + intros a. rewrite !executions_app, (quiet_executions tr) by assumption.
      reflexivity.
    + exact Hnd.
    + intros s. rewrite Hs, !added_app, (quiet_added tr) by assumption.
      simpl. rewrite orb_false_r. split.
      * intros [H | ->]; auto. right. simpl. now rewrite String.eqb_refl.
      * intros [H|H]; auto. right. destruct action; simpl in H; try discriminate.
        apply String.eqb_eq in H. now subst.
  - injection H as <- <-. exists []. rewrite app_nil_r. split; auto.
    apply collects_refl.
Qed.

Lemma collecting_deploy_targets cert_file targets :
  collecting (deploy_targets O T cert_file targets).
Proof.
  induction targets as [|cfg rest IH]; intros acts st st' acts' H; simpl in H.
  - injection H as <- <-. exists []. rewrite app_nil_r. split; auto.
    apply collects_refl.
  - apply mbind_inv in H as (st1 & acts1 & H1 & H).
    apply collecting_deploy_target in H1 as (tr1 & E1 & C1).
    apply IH in H as (tr2 & E2 & C2).
    exists (tr1 ++ tr2)%list. rewrite E2, E1, app_assoc. split; auto.
    eapply collects_trans; eauto.
Qed.

Lemma collecting_process_config config :
  collecting (process_config O T config).
Proof.
  intros acts st st' acts' H. unfold process_config in H.
  apply mbind_inv in H as (st1 & cert_file & H1 & H).
  apply quiet_renew_if_needed in H1 as (tr1 & E1 & Q1).
  apply mbind_inv in H as (st2 & targets & H1 & H). apply lift_inv in H1 as [-> _].
  apply collecting_deploy_targets in H as (tr2 & E2 & C2).
  exists (tr1 ++ tr2)%list. rewrite E2, E1, app_assoc. split; auto.
  eapply collects_trans; [apply collects_quiet|]; eauto.
Qed.

Lemma collecting_process_configs configs :
  collecting (process_configs O T configs).
Proof.
  induction configs as [|config rest IH]; intros acts st st' acts' H; simpl in H.
  - injection H as <- <-. exists []. rewrite app_nil_r. split; auto.
    apply collects_refl.
  - apply mbind_inv in H as (st1 & acts1 & H1 & H).
    destruct config as [| | | | |config]; try discriminate.
    apply collecting_process_config in H1 as (tr1 & E1 & C1).
    apply IH in H as (tr2 & E2 & C2).
    exists (tr1 ++ tr2)%list. rewrite E2, E1, app_assoc. split; auto.
    eapply collects_trans; eauto.
Qed.

Lemma run_actions_trace actions st st' :
  run_actions O actions st = (st', inr tt) ->
  exists tr,
    st_trace st' = (st_trace st ++ tr)%list /\
    (forall a, added a tr = false) /\
    (forall a, executions a tr = count_occ string_dec (strings actions) a).
Proof.
  revert st. induction actions as [|action rest IH]; intros st H; simpl in H.
  - injection H as <-. exists []. rewrite app_nil_r. auto.
  - apply mbind_inv in H as (st1 & u & H1 & H).
    apply IH in H as (tr & E & Ha & He).
    destruct action as [| b | z | s | |]; try discriminate.
    + injection H1 as <-. exists tr. auto.
    + destruct (shell O s (st_world st)) as [w ok]. injection H1 as <-.
      simpl in E. exists (Executed s ok :: tr). rewrite E, <- app_assoc.
      split; [reflexivity|]. split.
      * intros a. unfold added in *. simpl. apply Ha.
      * intros a. unfold executions in *. simpl.
        destruct (string_dec s a) as [->|Hne].
        -- rewrite String.eqb_refl. simpl. now rewrite He.
        -- apply String.eqb_neq in Hne. rewrite Hne. apply He.
Qed.

(** X21.  When the two loops of [main] complete on a sequence of configs, a
    command is executed exactly once if some deployment target added it to
    the set of actions (however many targets, of whatever domain groups,
    did), and not at all otherwise; an absent action ([None]) is never
    executed, executions being of strings. *)
Lemma each_action_executed_once (configs : list value) (st st' : state) :
  run_configs O T configs st = (st', inr tt) ->
  exists tr,
    st_trace st' = (st_trace st ++ tr)%list /\
    forall a, executions a tr = if added a tr then 1%nat else 0%nat.
Proof.
  intros H. unfold run_configs in H.
  apply mbind_inv in H as (st1 & actions & H1 & H).
  apply collecting_process_configs in H1 as (tr1 & E1 & Hex & Hnd & Hin).
  apply run_actions_trace in H as (tr2 & E2 & Hadd & Hcount).
  exists (tr1 ++ tr2)%list. rewrite E2, E1, app_assoc. split; [reflexivity|].
  intros a. rewrite executions_app, added_app, Hex, Hadd, Hcount, orb_false_r.
  simpl.
  assert (Hperm : Permutation (strings (set_iter O actions)) (strings actions)).
  { unfold strings. apply Permutation_flat_map, set_iter_perm. }
  assert (Hnd' : NoDup (strings (set_iter O actions))).
  { rewrite Hperm. apply Hnd. constructor. }
  destruct (added a tr1) eqn:Ha.
  - apply NoDup_count_occ'; [now apply NoDup_ListNoDup|].
    eapply Permutation_in; [symmetry; exact Hperm|]. apply Hin. now right.
  - apply count_occ_not_In. intros Hi.
    eapply Permutation_in in Hi; [|exact Hperm]. apply Hin in Hi as [[]|Hi].
    congruence.
Qed.









Section IssuanceFacts.
Context (lifetime : Z -> string -> option Z).
Context (issue_workflow : dict -> world -> world * result unit).

(** With the collaborators of the specification, the renewal step of the
    loop body calls [cert_get] (which prints its first line and runs the
    issuance workflow) when the certificate file is missing, does not
    parse, or has at most [ttl_days] days left; when the certificate
    parses and has more than [ttl_days] days left, nothing happens: the
    state is unchanged. *)
Lemma issuance_iff_certificate_not_current
    (config : dict) (st : state) (cert_file : string) (ttl_days : Z)
    (domains : value) :
  getitem config "cert_file" = inr (VStr cert_file) ->
  getitem config "ttl_days" = inr (VInt ttl_days) ->
  getitem config "domains" = inr domains ->
  let tools := spec_tools lifetime issue_workflow in
  (needs_issuance lifetime (st_world st) cert_file ttl_days ->
   exists r,
     renew_if_needed tools config st
     = ({| st_world := fst (issue_workflow config (st_world st));
           st_trace := (st_trace st ++ [Getting domains])%list |}, r)) /\
  (~ needs_issuance lifetime (st_world st) cert_file ttl_days ->
   renew_if_needed tools config st = (st, inr (VStr cert_file))).
Proof.
  intros Hcert Httl Hdomains tools.
  unfold renew_if_needed, needs_issuance, cert_get, isfile.
  rewrite Hcert, Httl, Hdomains.
  unfold mbind, lift, get_world, emit, mret. simpl.
  unfold spec_read_pem_file, read_file. simpl.
  destruct (fs (st_world st) !! cert_file) as [f|] eqn:Hf; simpl.
  - rewrite Hf. simpl.
    destruct (lifetime (now (st_world st)) (f_data f)) as [remaining|]; simpl.
    + destruct (ttl_days <? remaining) eqn:Hlt; simpl.
      * apply Z.ltb_lt in Hlt. split; [lia|]. intros _. now destruct st.
      * apply Z.ltb_ge in Hlt. split; [|intros Hn; contradiction].
        intros _. destruct (issue_workflow config (st_world st)) as [w r].
        destruct r; simpl; eauto.
    + split; [|intros Hn; exfalso; apply Hn; exact I]. intros _.
      destruct (issue_workflow config (st_world st)) as [w r].
      destruct r; simpl; eauto.
  - split; [|intros Hn; exfalso; apply Hn; exact I]. intros _.
    destruct (issue_workflow config (st_world st)) as [w r].
    destruct r; simpl; eauto.
Qed.

End IssuanceFacts.

End AcertmgrFacts.

Section AcertmgrExamples.
Import Configuration Acertmgr Spec Examples.


Lemma each_action_executed_once_witness :
  exists tr,
    st_trace (fst (run_configs sys tools [VDict twin_config]
                     (start world_without_ca)))
    = ([] ++ tr)%list /\
    forall a, executions a tr = if added a tr then 1%nat else 0%nat.
Proof.
  apply (each_action_executed_once sys tools [VDict twin_config]
           (start world_without_ca)).
  vm_compute. reflexivity.
Defined.

(** Two targets with the action [reload] and one without an action are
    rebuilt; [reload] is executed once, and nothing else is. *)
Example twin_targets_one_execution :
  let r := run_configs sys tools [VDict twin_config] (start world_without_ca) in
  snd r = inr tt /\
  st_trace (fst r)
  = [ Updating (VStr "/srv/a.pem"); Added (VStr "reload");
      Updating (VStr "/srv/b.pem"); Added (VStr "reload");
      Updating (VStr "/srv/c.pem"); Added VNone;
      Executed "reload" true ].
Proof. vm_compute. split; reflexivity. Qed.



Lemma issuance_iff_certificate_not_current_witness :
  (exists r,
     renew_if_needed tools plain_config (start world_expiring)
     = ({| st_world := world_expiring;
           st_trace := [Getting (VStr "example.com")] |}, r)) /\
  renew_if_needed tools plain_config (start world_without_ca)
  = (start world_without_ca, inr (VStr crt_path)).
Proof.
  split.
  - apply (proj1 (issuance_iff_certificate_not_current lifetime
                    (fun _ w => (w, inr tt)) plain_config
                    (start world_expiring) crt_path 30 (VStr "example.com")
                    eq_refl eq_refl eq_refl)).
    vm_compute. discriminate.
  - apply (proj2 (issuance_iff_certificate_not_current lifetime
                    (fun _ w => (w, inr tt)) plain_config
                    (start world_without_ca) crt_path 30 (VStr "example.com")
                    eq_refl eq_refl eq_refl)).
    vm_compute. intros H. apply H. reflexivity.
Defined.

End AcertmgrExamples.

(** ** main on what configuration.load returns *)

Section MainFacts.
Import Configuration Acertmgr Spec Examples.

(** The runtime config has no key [cert_file]: its keys are among
    [work_dir], [authority_tos_agreement], [force_renew], [mode], [revoke]
    and [revoke_reason]. *)
Lemma load_runtimeconfig_cert_file (L : Libs) args disk gfile dir rc :
  load_runtimeconfig L args disk gfile dir = inr rc ->
  dict_get rc "cert_file" = None.
Proof.
  unfold load_runtimeconfig. intros H.
  apply bind_inr in H as (rc1 & H1 & H). injection H as <-.
  assert (Hrc1 : dict_get rc1 "cert_file" = None).
  { destruct (given (arg_work_dir args));
      [|destruct (legacy_work_dir_exists disk && String.eqb dir LEGACY_CONF_DIR)];
      (destruct (given (arg_authority_tos_agreement args));
         [|destruct (String.eqb gfile LEGACY_CONF_FILE)]);
      (destruct (given (arg_force_renew args));
         [ apply bind_inr in H1 as (dt & _ & H1);
           destruct (0 <? length dt)%nat
         | ]);
      injection H1 as <-; reflexivity. }
  destruct (given (arg_revoke args)); [|exact Hrc1].
  rewrite !dict_get_set_ne by discriminate. exact Hrc1.
Qed.

Lemma load_cert_file (L : Libs) args disk loaded :
  load L args disk = inr loaded -> dict_get (fst loaded) "cert_file" = None.
Proof.
  unfold load. intros H.
  apply bind_inr in H as (rc & Hrc & H).
  apply bind_inr in H as (g & _ & H).
  apply bind_inr in H as (dcs & _ & H).
  injection H as <-. simpl. eapply load_runtimeconfig_cert_file, Hrc.
Qed.

(** The first iteration of [for config in configs] gets the first
    component of the pair. *)
Lemma main_on_runtimeconfig (O : Sys) (T : Tools) rc dcs st :
  dict_get rc "cert_file" = None ->
  main O T (rc, dcs) st = (st, inl (KeyError "cert_file")).
Proof.
  intros H. unfold main, run_configs. simpl.
  unfold mbind at 1 2. unfold process_config, renew_if_needed, mbind at 1 2 3.
  unfold getitem. rewrite H. reflexivity.
Qed.

(** C5.  Whatever [load] returns, [main] subscripts the runtime config
    with [cert_file] in its first iteration and ends there with
    [KeyError]: the state is unchanged, so the validity check is not
    reached and [cert_get] is not called, whether the certificate files of
    the domain groups are missing, unparsable, expiring or current. *)
Theorem main_stops_before_validity_check
    (L : Libs) (O : Sys) (T : Tools) (args : Args) (disk : Disk)
    (loaded : dict * list dict) (st : state) :
  load L args disk = inr loaded ->
  main O T loaded st = (st, inl (KeyError "cert_file")).
Proof.
  intros H. destruct loaded as [rc dcs].
  apply main_on_runtimeconfig. exact (load_cert_file _ _ _ _ H).
Qed.

Lemma main_stops_before_validity_check_witness :
  load libs no_args (disk "example.com: []") = inr (runtimeconfig, [plain_config]) /\
  main sys tools (runtimeconfig, [plain_config]) (start world_empty)
  = (start world_empty, inl (KeyError "cert_file")).
Proof.
  split; [vm_compute; reflexivity|].
  apply (main_stops_before_validity_check libs sys tools no_args
           (disk "example.com: []")).
  vm_compute. reflexivity.
Defined.

(** The loop body alone, on the group of [example.com] in that world,
    calls [cert_get]. *)
Example missing_certificate_is_issued :
  st_trace (fst (renew_if_needed tools plain_config (start world_empty)))
  = [Getting (VStr "example.com")].
Proof. vm_compute. reflexivity. Qed.

(** C7 at the file [twin_text], whose group has two targets with the
    action [reload]: whatever the system, the collaborators and the
    files are, [main] ends with [KeyError] in its first iteration, with the
    state, and so the trace, as it was: no target is rebuilt and [reload]
    is not executed. *)
Theorem main_executes_no_action (O : Sys) (T : Tools) (st : state) :
  load libs no_args (disk twin_text) = inr (runtimeconfig, [twin_config]) /\
  main O T (runtimeconfig, [twin_config]) st = (st, inl (KeyError "cert_file")).
Proof.
  split; [vm_compute; reflexivity|].
  apply main_on_runtimeconfig. reflexivity.
Qed.

(** No run of [main] completes: the second component of the pair is a
    list, which cannot be subscripted with [cert_file] either. *)
Lemma main_never_completes (O : Sys) (T : Tools) loaded st :
  exists st' e, main O T loaded st = (st', inl e).
Proof.
  unfold main, run_configs. cbn [process_configs]. unfold mbind.
  destruct (process_item O T (VDict (fst loaded)) [] st) as [st1 [e|acts]];
    simpl; eauto.
Qed.

End MainFacts.

(** ** The handler configs of a resolved config *)

Section SharingFacts.
Import Configuration Sharing Spec.

Lemma obj_nested_ind (P : obj -> Prop) :
  P ONone -> (forall b, P (OBool b)) -> (forall z, P (OInt z)) ->
  (forall s, P (OStr s)) ->
  (forall l xs, Forall P xs -> P (OList l xs)) ->
  (forall l kvs, Forall (fun kv => P (snd kv)) kvs -> P (ODict l kvs)) ->
  forall o, P o.
Proof.
  intros HN HB HI HS HL HD.
  fix IH 1. intros [| b | z | s | l xs | l kvs].
  - exact HN.
  - apply HB.
  - apply HI.
  - apply HS.
  - apply HL. induction xs as [|x xs IHxs]; constructor; [apply IH|exact IHxs].
  - apply HD. induction kvs as [|[k v] kvs IHkvs]; constructor;
      [apply IH|exact IHkvs].
Qed.


Lemma thread_copies {A B} (erase_elt : A -> B) (locs_elt : A -> list loc)
    (f : A -> loc -> A * loc) (xs : list A) :
  Forall (copies erase_elt locs_elt f) xs ->
  forall n xs' n', thread f xs n = (xs', n') ->
    (n <= n')%nat /\ map erase_elt xs' = map erase_elt xs /\
    Forall (fun l => (n <= l < n')%nat) (flat_map locs_elt xs').
Proof.
  induction 1 as [|x xs Hx _ IH]; intros n xs' n' H; simpl in H.
  - injection H as <- <-. simpl. auto.
  - destruct (f x n) as [x1 n1] eqn:E1.
    destruct (thread f xs n1) as [r n2] eqn:E2.
    injection H as <- <-.
    destruct (Hx _ _ _ E1) as (L1 & R1 & F1).
    destruct (IH _ _ _ E2) as (L2 & R2 & F2).
    split; [lia|]. split; [simpl; congruence|].
    simpl. apply Forall_app. split.
    + eapply Forall_impl; [exact F1|]. simpl. intros; lia.
    + eapply Forall_impl; [exact F2|]. simpl. intros; lia.
Qed.


Lemma copy_item_copies kv :
  copies erase locs deepcopy (snd kv) ->
  copies erase_item (fun kv => locs (snd kv)) (copy_item deepcopy) kv.
Proof.
  destruct kv as [k v]. intros Hv m kv' m' Hc.
  unfold copy_item in Hc. simpl in Hc.
  destruct (deepcopy v m) as [v' m1] eqn:Ev. injection Hc as <- <-.
  destruct (Hv _ _ _ Ev) as (L & R & F). unfold erase_item.
  split; [exact L|]. split; [|exact F]. simpl in *. now rewrite R.
Qed.

Lemma deepcopy_copies o : copies erase locs deepcopy o.
Proof.
  induction o as [| b | z | s | l xs IH | l kvs IH] using obj_nested_ind;
    intros n o' n' H; simpl in H;
    try (injection H as <- <-; simpl; auto; fail).
  - destruct (thread deepcopy xs (S n)) as [xs' n1] eqn:E.
    injection H as <- <-.
    destruct (thread_copies erase locs deepcopy xs IH _ _ _ E) as (L & R & F).
    split; [lia|]. split; [simpl; congruence|].
    simpl. constructor; [lia|].
    eapply Forall_impl; [exact F|]. simpl. intros; lia.
  - destruct (thread (copy_item deepcopy) kvs (S n)) as [kvs' n1] eqn:E.
    injection H as <- <-.
    assert (IH' : Forall (copies erase_item (fun kv => locs (snd kv))
                            (copy_item deepcopy)) kvs).
    { eapply Forall_impl; [exact IH|]. intros kv. apply copy_item_copies. }
    destruct (thread_copies _ _ _ kvs IH' _ _ _ E) as (L & R & F).
    split; [lia|]. split.
    + simpl. f_equal. exact R.
    + simpl. constructor; [lia|].
      eapply Forall_impl; [exact F|]. simpl. intros; lia.
Qed.

Lemma deepcopy_dict_spec (d : dobj) n d' n' :
  deepcopy_dict d n = (d', n') ->
  (n < n')%nat /\ fst d' = n /\ erase_items (snd d') = erase_items (snd d) /\
  Forall (fun l => (n < l < n')%nat) (value_locs (snd d')).
Proof.
  unfold deepcopy_dict. intros H.
  destruct (thread (copy_item deepcopy) (snd d) (S n)) as [kvs' n1] eqn:E.
  injection H as <- <-.
  assert (IH' : Forall (copies erase_item (fun kv => locs (snd kv))
                          (copy_item deepcopy)) (snd d)).
  { apply Forall_forall. intros kv _. apply copy_item_copies, deepcopy_copies. }
  destruct (thread_copies _ _ _ _ IH' _ _ _ E) as (L & R & F).
  simpl. split; [lia|]. split; [reflexivity|]. split; [exact R|].
  eapply Forall_impl; [exact F|]. simpl. intros; lia.
Qed.


Lemma erase_items_get d k :
  dict_get (erase_items d) k = option_map erase (dict_get d k).
Proof.
  induction d as [|[k' v] d IH]; simpl; [reflexivity|].
  destruct (String.eqb k' k); auto.
Qed.

Lemma erase_items_mem d k : dict_mem k (erase_items d) = dict_mem k d.
Proof. unfold dict_mem. rewrite erase_items_get. now destruct (dict_get d k). Qed.

Lemma erase_items_set d k v :
  erase_items (dict_set d k v) = dict_set (erase_items d) k (erase v).
Proof.
  induction d as [|[k' v'] d IH]; simpl; [reflexivity|].
  destruct (String.eqb k' k); simpl; [reflexivity|]. now rewrite IH.
Qed.

Lemma erase_items_update a b :
  erase_items (dict_update a b) = dict_update (erase_items a) (erase_items b).
Proof.
  unfold dict_update. revert a. induction b as [|[k v] b IH]; intros a; simpl;
    [reflexivity|].
  rewrite IH. now rewrite erase_items_set.
Qed.

Lemma value_locs_get d k v l :
  dict_get d k = Some v -> In l (locs v) -> In l (value_locs d).
Proof.
  unfold value_locs. induction d as [|[k' v'] d IH]; simpl; [discriminate|].
  intros H Hl. apply in_app_iff. destruct (String.eqb k' k).
  - injection H as ->. now left.
  - right. auto.
Qed.

Lemma value_locs_set d k v l :
  In l (value_locs (dict_set d k v)) -> In l (value_locs d) \/ In l (locs v).
Proof.
  unfold value_locs. induction d as [|[k' v'] d IH]; simpl.
  - rewrite app_nil_r. auto.
  - destruct (String.eqb k' k); simpl; rewrite !in_app_iff.
    + tauto.
    + intros [H|H]; [tauto|]. apply IH in H. tauto.
Qed.

Lemma value_locs_update a b l :
  In l (value_locs (dict_update a b)) ->
  In l (value_locs a) \/ In l (value_locs b).
Proof.
  unfold dict_update. revert a. induction b as [|[k v] b IH]; intros a; simpl.
  - auto.
  - intros H. apply IH in H as [H|H].
    + apply value_locs_set in H as [H|H]; [auto|].
      right. unfold value_locs. simpl. apply in_app_iff. auto.
    + right. unfold value_locs in *. simpl. apply in_app_iff. auto.
Qed.


Lemma document_locs_in docs x l :
  In x docs -> In l (value_locs (snd x)) -> In l (document_locs docs).
Proof. intros Hx Hl. unfold document_locs. apply in_flat_map. eauto. Qed.

Lemma filter_head_in {A} (p : A -> bool) (l : list A) x rest :
  List.filter p l = x :: rest -> In x l.
Proof.
  intros H. assert (Hx : In x (List.filter p l)) by (rewrite H; now left).
  apply filter_In in Hx. tauto.
Qed.

Lemma filter_map_comm {A B} (f : A -> B) (p : B -> bool) (l : list A) :
  List.filter p (map f l) = map f (List.filter (fun x => p (f x)) l).
Proof.
  induction l as [|x l IH]; simpl; [reflexivity|].
  destruct (p (f x)); simpl; now rewrite IH.
Qed.


Lemma obj_eq_str_erase v s : value_eq_str (erase v) s = obj_eq_str v s.
Proof. destruct v; reflexivity. Qed.

Lemma handler_config_spec g docs dt domain n cfg n' :
  Sharing.handler_config g docs dt domain n = (cfg, n') ->
  (n < n')%nat /\ fst cfg = n /\
  erase_items (snd cfg)
  = Configuration.handler_config (erase_dobj g) (map erase_dobj docs) dt domain /\
  (forall l, In l (value_locs (snd cfg)) ->
             (n < l < n')%nat \/ In l (document_locs docs)).
Proof.
  unfold Sharing.handler_config. intros H.
  destruct (deepcopy_dict g n) as [cfg0 n0] eqn:E.
  apply deepcopy_dict_spec in E as (L & Hfst & Herase & Hlocs).
  injection H as <- <-.
  unfold Configuration.handler_config. cbv zeta.
  rewrite !filter_map_comm.
  assert (Hg : List.filter
                 (fun x => negb (dict_mem "domain" (erase_dobj x))) docs
               = List.filter (fun x => negb (dict_mem "domain" (snd x))) docs).
  { apply filter_ext. intros x. unfold erase_dobj.
    now rewrite erase_items_mem. }
  assert (Hs : List.filter
                 (fun x => match dict_get (erase_dobj x) "domain" with
                           | Some v => value_eq_str v
                                         (dict_get_default dt domain domain)
                           | None => false
                           end) docs
               = List.filter
                   (fun x => match dict_get (snd x) "domain" with
                             | Some v => obj_eq_str v
                                           (dict_get_default dt domain domain)
                             | None => false
                             end) docs).
  { apply filter_ext. intros x. unfold erase_dobj.
    rewrite erase_items_get. destruct (dict_get (snd x) "domain"); simpl; auto.
    now rewrite obj_eq_str_erase. }
  rewrite Hg, Hs. clear Hg Hs.
  set (generic := List.filter (fun x => negb (dict_mem "domain" (snd x))) docs).
  set (specific :=
         List.filter
           (fun x : loc * dictof obj =>
              match dict_get (snd x) "domain" with
              | Some v => obj_eq_str v (dict_get_default dt domain domain)
              | None => false
              end) docs).
  assert (Hgin : forall x rest, generic = x :: rest -> In x docs).
  { intros x rest Hx. eapply filter_head_in; exact Hx. }
  assert (Hsin : forall x rest, specific = x :: rest -> In x docs).
  { intros x rest Hx. eapply filter_head_in; exact Hx. }
  clearbody generic specific.
  assert (Hlocs' : forall l, In l (value_locs (snd cfg0)) -> (n < l < n0)%nat).
  { exact (proj1 (List.Forall_forall _ _) Hlocs). }
  split; [exact L|].
  destruct generic as [|x1 r1]; destruct specific as [|x2 r2]; simpl;
    (split; [assumption|]); (split; [|intros l Hl]);
    rewrite ?erase_items_update, ?Herase; try reflexivity.
  - left. auto.
  - apply value_locs_update in Hl as [Hl|Hl]; [left; auto|right].
    eapply document_locs_in; [eapply Hsin; reflexivity|exact Hl].
  - apply value_locs_update in Hl as [Hl|Hl]; [left; auto|right].
    eapply document_locs_in; [eapply Hgin; reflexivity|exact Hl].
  - apply value_locs_update in Hl as [Hl|Hl].
    + apply value_locs_update in Hl as [Hl|Hl]; [left; auto|right].
      eapply document_locs_in; [eapply Hgin; reflexivity|exact Hl].
    + right. eapply document_locs_in; [eapply Hsin; reflexivity|exact Hl].
Qed.



Lemma dict_get_set {V} (d : dictof V) k k' v :
  dict_get (dict_set d k v) k' = if String.eqb k k' then Some v else dict_get d k'.
Proof.
  destruct (String.eqb k k') eqn:E.
  - apply String.eqb_eq in E. subst. apply dict_get_set_eq.
  - apply String.eqb_neq in E. now apply dict_get_set_ne.
Qed.

Lemma separated_step n0 docs handlers n d (cfg : dobj) n' :
  (n0 <= n)%nat -> (n < n')%nat -> fst cfg = n ->
  (forall l, In l (value_locs (snd cfg)) ->
             (n < l < n')%nat \/ In l (document_locs docs)) ->
  separated n0 docs handlers n ->
  separated n0 docs (dict_set handlers d (to_obj cfg)) n'.
Proof.
  intros Hn0 Hn Hfst Hl [Ha Hb].
  assert (Hnew : forall l, In l (locs (to_obj cfg)) ->
                   (n <= l < n')%nat \/ In l (document_locs docs)).
  { intros l [<-|Hin]; [left; lia|].
    destruct (Hl _ Hin) as [?|?]; [left; lia|now right]. }
  split.
  - intros d' h l Hget Hin. rewrite dict_get_set in Hget.
    destruct (String.eqb d d').
    + injection Hget as <-. destruct (Hnew _ Hin); [left; lia|now right].
    + destruct (Ha _ _ _ Hget Hin); [left; lia|now right].
  - intros d1 d2 h1 h2 l Hne H1 H2 Hin1 Hin2.
    rewrite dict_get_set in H1, H2.
    destruct (String.eqb d d1) eqn:E1; destruct (String.eqb d d2) eqn:E2.
    + apply String.eqb_eq in E1, E2. congruence.
    + injection H1 as <-.
      destruct (Hnew _ Hin1) as [?|?]; [|assumption].
      destruct (Ha _ _ _ H2 Hin2) as [?|?]; [lia|assumption].
    + injection H2 as <-.
      destruct (Hnew _ Hin2) as [?|?]; [|assumption].
      destruct (Ha _ _ _ H1 Hin1) as [?|?]; [lia|assumption].
    + eapply Hb; eauto.
Qed.

Lemma handlers_loop_separated g docs dt domainlist n0 :
  forall handlers n handlers' n',
    Sharing.handlers_loop g docs dt domainlist handlers n = (handlers', n') ->
    (n0 <= n)%nat -> separated n0 docs handlers n ->
    (n <= n')%nat /\ separated n0 docs handlers' n' /\
    erase_items handlers'
    = Configuration.handlers_loop (erase_dobj g) (map erase_dobj docs) dt
        domainlist (erase_items handlers).
Proof.
  induction domainlist as [|d rest IH]; intros handlers n handlers' n' H Hn Hsep;
    simpl in H.
  - injection H as <- <-. auto.
  - destruct (Sharing.handler_config g docs dt d n) as [cfg n1] eqn:E.
    apply handler_config_spec in E as (L & Hfst & Herase & Hlocs).
    apply IH in H as (L' & Hsep' & Her).
    + split; [lia|]. split; [exact Hsep'|].
      rewrite Her. unfold Configuration.handlers_loop. simpl.
      rewrite erase_items_set.
      change (erase (to_obj cfg)) with (VDict (erase_items (snd cfg))).
      now rewrite Herase.
    + lia.
    + eapply separated_step; eauto.
Qed.



Lemma filter_head_find {A B} (p : A -> bool) (l : list A) (F : A -> B) (D : B) :
  match List.filter p l with x :: _ => F x | [] => D end
  = match List.find p l with Some x => F x | None => D end.
Proof.
  induction l as [|x l IH]; simpl; [reflexivity|]. now destruct (p x).
Qed.

Lemma handler_config_expected g hcs dt d :
  Configuration.handler_config g hcs dt d = expected_handler g hcs dt d.
Proof.
  unfold Configuration.handler_config, expected_handler, updated,
    first_generic, first_specific.
  now rewrite !filter_head_find.
Qed.

Lemma dict_keys_set {V} (d : dictof V) k v x :
  In x (dict_keys (dict_set d k v)) <-> x = k \/ In x (dict_keys d).
Proof.
  unfold dict_keys. induction d as [|[k' v'] d IH]; simpl.
  - intuition.
  - destruct (String.eqb k' k) eqn:E; simpl.
    + apply String.eqb_eq in E. subst. intuition.
    + rewrite IH. intuition.
Qed.

Lemma dict_keys_set_nodup {V} (d : dictof V) k v :
  List.NoDup (dict_keys d) -> List.NoDup (dict_keys (dict_set d k v)).
Proof.
  unfold dict_keys. induction d as [|[k' v'] d IH]; simpl; intros H.
  - constructor; [intros []|constructor].
  - inversion H as [|? ? Hn Hd]; subst. destruct (String.eqb k' k) eqn:E; simpl.
    + constructor; assumption.
    + constructor; [|auto]. intros Hin.
      apply (dict_keys_set d k v k') in Hin as [->|Hin]; [|contradiction].
      rewrite String.eqb_refl in E. discriminate.
Qed.

Lemma handlers_loop_cons g hcs dt d rest handlers :
  Configuration.handlers_loop g hcs dt (d :: rest) handlers
  = Configuration.handlers_loop g hcs dt rest
      (dict_set handlers d (VDict (Configuration.handler_config g hcs dt d))).
Proof. reflexivity. Qed.

Lemma handlers_loop_keys g hcs dt domainlist handlers :
  List.NoDup (dict_keys handlers) ->
  List.NoDup (dict_keys (Configuration.handlers_loop g hcs dt domainlist handlers))
  /\ forall d,
       In d (dict_keys (Configuration.handlers_loop g hcs dt domainlist handlers))
       <-> In d (dict_keys handlers) \/ In d domainlist.
Proof.
  revert handlers. induction domainlist as [|x rest IH]; intros handlers Hnd.
  - simpl. split; [exact Hnd|]. intros d. simpl. tauto.
  - rewrite handlers_loop_cons.
    destruct (IH (dict_set handlers x
                    (VDict (Configuration.handler_config g hcs dt x))))
      as [Hnd' Hkeys]; [now apply dict_keys_set_nodup|].
    split; [exact Hnd'|]. intros d. rewrite Hkeys, dict_keys_set. simpl.
    intuition.
Qed.

Lemma handlers_loop_get g hcs dt domainlist handlers d :
  In d domainlist ->
  dict_get (Configuration.handlers_loop g hcs dt domainlist handlers) d
  = Some (VDict (Configuration.handler_config g hcs dt d)).
Proof.
  revert handlers. induction domainlist as [|x rest IH]; intros handlers Hin;
    [contradiction|].
  rewrite handlers_loop_cons.
  destruct (in_dec string_dec d rest) as [Hr|Hr]; [now apply IH|].
  destruct Hin as [->|Hin]; [|contradiction].
  clear IH. revert handlers.
  induction rest as [|y rest IH]; intros handlers.
  - simpl. apply dict_get_set_eq.
  - rewrite handlers_loop_cons.
    assert (Hy : y <> d) by (intros ->; apply Hr; now left).
    assert (Hr' : ~ In d rest) by (intros H; apply Hr; now right).
    specialize (IH Hr').
    assert (Hgen : forall h, dict_get h d
                     = Some (VDict (Configuration.handler_config g hcs dt d)) ->
              dict_get (Configuration.handlers_loop g hcs dt rest h) d
              = Some (VDict (Configuration.handler_config g hcs dt d))).
    { clear -Hr'. induction rest as [|z rest IHr]; intros h Hh; [exact Hh|].
      rewrite handlers_loop_cons. apply IHr.
      - intros H; apply Hr'; now right.
      - rewrite dict_get_set_ne; [exact Hh|].
        intros ->. apply Hr'. now left. }
    apply Hgen. rewrite dict_get_set_ne by exact Hy. apply dict_get_set_eq.
Qed.

Lemma complete_action_config_reads x c1 c2 :
  dict_get c1 "defaults" = dict_get c2 "defaults" ->
  dict_get c1 "ca_file" = dict_get c2 "ca_file" ->
  dict_get c1 "cert_file" = dict_get c2 "cert_file" ->
  dict_get c1 "key_file" = dict_get c2 "key_file" ->
  complete_action_config x c1 = complete_action_config x c2.
Proof.
  intros Hd Hca Hcrt Hkey. unfold complete_action_config, getitem.
  now rewrite Hd, Hca, Hcrt, Hkey.
Qed.

Lemma complete_actions_completed localconfig config actions localconfig' :
  complete_actions localconfig config = inr (actions, localconfig') ->
  Forall2 (completed config) localconfig localconfig'.
Proof.
  revert actions localconfig'.
  induction localconfig as [|x l IH]; intros actions l' H; simpl in H.
  - injection H as <- <-. constructor.
  - destruct (dict_mem "path" x) eqn:Hp.
    + apply bind_inr in H as (x' & Ex & H).
      apply bind_inr in H as ([acts r] & Er & H). injection H as <- <-.
      constructor; [|eapply IH; eauto].
      unfold completed. rewrite Hp. exact Ex.
    + apply bind_inr in H as ([acts r] & Er & H). injection H as <- <-.
      constructor; [|eapply IH; eauto].
      unfold completed. now rewrite Hp.
Qed.

Lemma completed_reads c1 c2 x x' :
  dict_get c1 "defaults" = dict_get c2 "defaults" ->
  dict_get c1 "ca_file" = dict_get c2 "ca_file" ->
  dict_get c1 "cert_file" = dict_get c2 "cert_file" ->
  dict_get c1 "key_file" = dict_get c2 "key_file" ->
  completed c1 x x' -> completed c2 x x'.
Proof.
  intros Hd Hca Hcrt Hkey. unfold completed.
  destruct (dict_mem "path" x); [|auto].
  now rewrite (complete_action_config_reads x c1 c2 Hd Hca Hcrt Hkey).
Qed.

Lemma str_dict_inj (a b : dictof string) : str_dict a = str_dict b -> a = b.
Proof.
  unfold str_dict. intros H. injection H as H. revert b H.
  induction a as [|[k v] a IH]; intros [|[k' v'] b] H; simpl in H;
    try discriminate; [reflexivity|].
  injection H as -> -> H. f_equal. now apply IH.
Qed.


(** C10, as the code has it.  A resolved config has exactly one handler
    config for each domain of its working domain list.  Each is a new dict
    with the value of the global config, updated by the first
    domain-agnostic handler document, if any, then by the first handler
    document whose [domain] is the original name of the domain, if any.
    The handler documents are the documents of the override list that have
    a [mode] when the handler configs are built, which is after the loop
    over the actions: by then every document with a [path] has been
    completed in place against the config of the group ([localconfig']
    below), so it holds the three files of the group, the entries of the
    global [defaults] it did not define, [mode] possibly among them, and
    an [action].  The part copied from the global config is a deep copy;
    the updates store the values of the documents themselves.  So, however
    the inputs lie in memory, a mutable object that a handler config has in
    common with the global config or with the handler config of another
    domain is a value of a handler document. *)
Theorem handler_configs_of_resolved_config
    (L : Libs) (domains : string) (localconfig : list dict) (g r config : dict) :
  parse_config_entry L (domains, localconfig) g r = inr config ->
  exists (domainlist : list string) (dt : dictof string)
         (localconfig' : list dict) (handlers : dict),
    let handlerconfigs := List.filter (dict_mem "mode") localconfig' in
    dict_get config "domainlist" = Some (VList (map VStr domainlist)) /\
    dict_get config "domaintranslation" = Some (str_dict dt) /\
    Forall2 (completed config) localconfig localconfig' /\
    dict_get config "handlers" = Some (VDict handlers) /\
    List.NoDup (dict_keys handlers) /\
    (forall d, In d (dict_keys handlers) <-> In d domainlist) /\
    (forall d, In d domainlist ->
       dict_get handlers d
       = Some (VDict (expected_handler g handlerconfigs dt d))) /\
    forall (G : dobj) (docs : list dobj) (n0 : loc) (H : dictof obj) (n1 : loc),
      erase_dobj G = g -> map erase_dobj docs = handlerconfigs ->
      Forall (fun l => (l < n0)%nat) (locs (to_obj G)) ->
      Sharing.handlers_loop G docs dt domainlist [] n0 = (H, n1) ->
      erase_items H = handlers /\
      (forall d h l, dict_get H d = Some h -> In l (locs h) ->
         In l (locs (to_obj G)) -> In l (document_locs docs)) /\
      (forall d1 d2 h1 h2 l, d1 <> d2 ->
         dict_get H d1 = Some h1 -> dict_get H d2 = Some h2 ->
         In l (locs h1) -> In l (locs h2) -> In l (document_locs docs)).
Proof.
  intros Hparse. apply parse_config_entry_inv in Hparse.
  destruct Hparse as (dt & tos & wd & ak & ttl & csr & crt & key & kl & sca & ca
                      & acts & lc' & Hinv).
  cbv zeta in Hinv.
  destruct Hinv as (_ & _ & _ & _ & _ & _ & _ & _ & _ & _ & Hacts & ->).
  set (domainlist := if (0 <? length dt)%nat then dict_values dt
                     else split " " domains).
  exists domainlist, dt, lc'.
  eexists. cbv zeta.
  split; [reflexivity|]. split; [reflexivity|].
  split.
  { apply complete_actions_completed in Hacts.
    eapply Forall2_impl; [exact Hacts|]. intros x x'.
    apply completed_reads; reflexivity. }
  split; [reflexivity|].
  destruct (handlers_loop_keys g (List.filter (dict_mem "mode") lc') dt
              domainlist []) as [Hnd Hkeys]; [constructor|].
  split; [exact Hnd|].
  split; [intros d; rewrite Hkeys; simpl; tauto|].
  split.
  { intros d Hd. rewrite <- handler_config_expected.
    now apply handlers_loop_get. }
  intros G docs n0 H n1 HG Hdocs Hbelow Hloop.
  apply (handlers_loop_separated G docs dt domainlist n0) in Hloop
    as (_ & [Ha Hb] & Her).
  - rewrite HG, Hdocs in Her. split; [exact Her|]. split.
    + intros d h l Hget Hin HinG.
      destruct (Ha _ _ _ Hget Hin) as [Hfresh|Hdoc]; [|exact Hdoc].
      apply (proj1 (List.Forall_forall _ _) Hbelow) in HinG. lia.
    + exact Hb.
  - lia.
  - split; intros; discriminate.
Qed.

Lemma handler_configs_of_resolved_config_witness :
  exists handlers,
    dict_get Examples.deploy_config "handlers" = Some (VDict handlers) /\
    List.NoDup (dict_keys handlers) /\
    (forall d, In d (dict_keys handlers) <-> In d ["example.com"]) /\
    dict_get handlers "example.com"
    = Some (VDict (dict_update Examples.mode_defaults_global
                     Examples.deploy_document_completed)).
Proof.
  destruct (handler_configs_of_resolved_config Examples.libs "example.com"
              [Examples.deploy_document] Examples.mode_defaults_global
              Examples.runtimeconfig Examples.deploy_config)
    as (domainlist & dt & lc' & handlers & Hdl & Hdt & Hc & Hh & Hnd & Hkeys
        & Hget & _).
  - vm_compute. reflexivity.
  - assert (Hlist : map VStr domainlist = map VStr ["example.com"]).
    { change (dict_get Examples.deploy_config "domainlist")
        with (Some (VList (map VStr ["example.com"]))) in Hdl.
      congruence. }
    apply map_VStr_inj in Hlist. subst domainlist.
    assert (Hempty : str_dict dt = str_dict []).
    { change (dict_get Examples.deploy_config "domaintranslation")
        with (Some (str_dict [])) in Hdt.
      congruence. }
    apply str_dict_inj in Hempty. subst dt.
    assert (Hlc : lc' = [Examples.deploy_document_completed]).
    { inversion Hc as [|x x' l l' Hx Hrest]. subst.
      inversion Hrest. subst.
      unfold completed in Hx. vm_compute in Hx. injection Hx as <-.
      reflexivity. }
    subst lc'.
    exists handlers. split; [exact Hh|]. split; [exact Hnd|].
    split; [exact Hkeys|].
    rewrite (Hget "example.com") by (left; reflexivity).
    vm_compute. reflexivity.
Defined.

(** C10 as it is stated does not hold: for the group [a.com b.com] with one
    domain-agnostic handler document that holds a list, the handler
    configs of the two domains are distinct dicts, but both hold the list
    object of the document (object 2), so they share mutable state. *)
Lemma handler_configs_share_document_objects :
  exists config handlers n h1 h2,
    parse_config_entry Examples.libs Examples.nsupdate_entry []
      Examples.runtimeconfig = inr config /\
    Sharing.handlers_loop Examples.global_object Examples.nsupdate_objects []
      ["a.com"; "b.com"] [] 3 = (handlers, n) /\
    dict_get config "handlers" = Some (VDict (erase_items handlers)) /\
    dict_get handlers "a.com" = Some h1 /\
    dict_get handlers "b.com" = Some h2 /\
    shares h1 h2.
Proof.
  do 5 eexists.
  split; [vm_compute; reflexivity|].
  split; [vm_compute; reflexivity|].
  split; [vm_compute; reflexivity|].
  split; [vm_compute; reflexivity|].
  split; [vm_compute; reflexivity|].
  exists 2%nat. split; simpl; auto.
Qed.

End SharingFacts.

(** * Further properties *)

(** ** complete_action_config *)

Section ActionConfigFacts.
Import Configuration Hashlib Spec Terms.

Lemma fill_defaults_get defaults_items domainconfig name :
  dict_get (fill_defaults defaults_items domainconfig) name
  = match dict_get domainconfig name with
    | Some v => Some v
    | None => dict_get defaults_items name
    end.
Proof.
  revert domainconfig.
  induction defaults_items as [|[k v] rest IH]; intros d; simpl.
  - now destruct (dict_get d name).
  - unfold fill_defaults in *. simpl. rewrite IH. unfold dict_mem.
    destruct (dict_get d k) eqn:Ek; simpl.
    + destruct (dict_get d name) eqn:En; [reflexivity|].
      destruct (String.eqb k name) eqn:E; [|reflexivity].
      apply String.eqb_eq in E. congruence.
    + rewrite dict_get_set.
      destruct (String.eqb k name) eqn:E.
      * apply String.eqb_eq in E. subst. now rewrite Ek.
      * reflexivity.
Qed.

Lemma dict_set_same {V} (d : dictof V) k v :
  dict_get d k = Some v -> dict_set d k v = d.
Proof.
  induction d as [|[k' v'] d IH]; simpl; [discriminate|].
  destruct (String.eqb k' k) eqn:E.
  - intros [= ->]. reflexivity.
  - intros H. now rewrite IH.
Qed.

Lemma fill_defaults_same defaults_items domainconfig :
  (forall name, dict_get defaults_items name <> None ->
                dict_get domainconfig name <> None) ->
  fill_defaults defaults_items domainconfig = domainconfig.
Proof.
  unfold fill_defaults.
  induction defaults_items as [|[k v] rest IH]; intros H; simpl; [reflexivity|].
  assert (Hk : dict_mem k domainconfig = true).
  { unfold dict_mem. specialize (H k). simpl in H. rewrite String.eqb_refl in H.
    destruct (dict_get domainconfig k); [reflexivity|].
    exfalso. apply H; [discriminate|reflexivity]. }
  rewrite Hk. simpl. apply IH. intros name Hn. apply H. simpl.
  destruct (String.eqb k name); [discriminate|exact Hn].
Qed.

Lemma complete_action_config_eq domainconfig config defaults ca crt key :
  dict_get config "defaults" = Some (VDict defaults) ->
  dict_get config "ca_file" = Some ca ->
  dict_get config "cert_file" = Some crt ->
  dict_get config "key_file" = Some key ->
  complete_action_config domainconfig config
  = inr (let d :=
           fill_defaults defaults
             (dict_set (dict_set (dict_set domainconfig "ca_file" ca)
                          "cert_file" crt) "key_file" key) in
         if negb (dict_mem "action" d) then dict_set d "action" VNone else d).
Proof.
  intros Hd Hca Hcrt Hkey. unfold complete_action_config, getitem.
  rewrite Hd, Hca, Hcrt, Hkey. reflexivity.
Qed.

Lemma completed_get domainconfig defaults ca crt key name :
  dict_get
    (let d :=
       fill_defaults defaults
         (dict_set (dict_set (dict_set domainconfig "ca_file" ca)
                      "cert_file" crt) "key_file" key) in
     if negb (dict_mem "action" d) then dict_set d "action" VNone else d) name
  = if String.eqb name "ca_file" then Some ca
    else if String.eqb name "cert_file" then Some crt
    else if String.eqb name "key_file" then Some key
    else match dict_get domainconfig name with
         | Some v => Some v
         | None =>
             match dict_get defaults name with
             | Some v => Some v
             | None => if String.eqb name "action" then Some VNone else None
             end
         end.
Proof.
  cbv zeta. set (d3 := dict_set _ "key_file" key).
  assert (Hfill : forall n, dict_get (fill_defaults defaults d3) n
            = if String.eqb n "ca_file" then Some ca
              else if String.eqb n "cert_file" then Some crt
              else if String.eqb n "key_file" then Some key
              else match dict_get domainconfig n with
                   | Some v => Some v
                   | None => dict_get defaults n
                   end).
  { intros n. rewrite fill_defaults_get. unfold d3. rewrite !dict_get_set.
    rewrite !(String.eqb_sym n).
    destruct (String.eqb "key_file" n) eqn:E1.
    { apply String.eqb_eq in E1. subst n. reflexivity. }
    destruct (String.eqb "cert_file" n) eqn:E2.
    { apply String.eqb_eq in E2. subst n. reflexivity. }
    destruct (String.eqb "ca_file" n) eqn:E3; reflexivity. }
  unfold dict_mem. rewrite (Hfill "action"). simpl.
  destruct (dict_get domainconfig "action") eqn:Ea; simpl.
  - rewrite Hfill.
    destruct (String.eqb name "ca_file"); [reflexivity|].
    destruct (String.eqb name "cert_file"); [reflexivity|].
    destruct (String.eqb name "key_file"); [reflexivity|].
    destruct (dict_get domainconfig name) eqn:En; [reflexivity|].
    destruct (dict_get defaults name); [reflexivity|].
    destruct (String.eqb name "action") eqn:E; [|reflexivity].
    apply String.eqb_eq in E. subst. congruence.
  - destruct (dict_get defaults "action") eqn:Eda; simpl.
    + rewrite Hfill.
      destruct (String.eqb name "ca_file"); [reflexivity|].
      destruct (String.eqb name "cert_file"); [reflexivity|].
      destruct (String.eqb name "key_file"); [reflexivity|].
      destruct (dict_get domainconfig name); [reflexivity|].
      destruct (dict_get defaults name) eqn:En; [reflexivity|].
      destruct (String.eqb name "action") eqn:E; [|reflexivity].
      apply String.eqb_eq in E. subst. congruence.
    + rewrite dict_get_set, Hfill. rewrite (String.eqb_sym "action").
      destruct (String.eqb name "action") eqn:E.
      * apply String.eqb_eq in E. subst. simpl. now rewrite Ea, Eda.
      * destruct (String.eqb name "ca_file"); [reflexivity|].
        destruct (String.eqb name "cert_file"); [reflexivity|].
        destruct (String.eqb name "key_file"); [reflexivity|].
        destruct (dict_get domainconfig name); [reflexivity|].
        now destruct (dict_get defaults name).
Qed.

Lemma pinned_get (config : dict) ca crt key name (rest : option value) :
  dict_get config "ca_file" = Some ca ->
  dict_get config "cert_file" = Some crt ->
  dict_get config "key_file" = Some key ->
  (if String.eqb name "ca_file" then Some ca
   else if String.eqb name "cert_file" then Some crt
   else if String.eqb name "key_file" then Some key
   else rest)
  = if pinned name then dict_get config name else rest.
Proof.
  intros Hca Hcrt Hkey. unfold pinned.
  destruct (String.eqb name "ca_file") eqn:E1.
  { apply String.eqb_eq in E1. subst. simpl. now rewrite Hca. }
  destruct (String.eqb name "cert_file") eqn:E2.
  { apply String.eqb_eq in E2. subst. simpl. now rewrite Hcrt. }
  destruct (String.eqb name "key_file") eqn:E3.
  { apply String.eqb_eq in E3. subst. simpl. now rewrite Hkey. }
  reflexivity.
Qed.

(** X1.  [complete_action_config] succeeds on a config that has its
    defaults and its three files, and a name looked up in the result gives:
    for [ca_file], [cert_file] and [key_file] the value of the config; for
    any other name the value of the document if it has one, else the
    value of the defaults if they have one, else [None] for [action] and
    nothing for any other name. *)
Theorem complete_action_config_lookup
    (domainconfig config defaults : dict) (ca crt key : value) (name : string) :
  dict_get config "defaults" = Some (VDict defaults) ->
  dict_get config "ca_file" = Some ca ->
  dict_get config "cert_file" = Some crt ->
  dict_get config "key_file" = Some key ->
  exists r,
    complete_action_config domainconfig config = inr r /\
    dict_get r name =
      if pinned name then dict_get config name
      else match dict_get domainconfig name with
           | Some v => Some v
           | None =>
               match dict_get defaults name with
               | Some v => Some v
               | None => if String.eqb name "action" then Some VNone else None
               end
           end.
Proof.
  intros Hd Hca Hcrt Hkey.
  rewrite (complete_action_config_eq _ _ _ _ _ _ Hd Hca Hcrt Hkey).
  eexists. split; [reflexivity|].
  rewrite completed_get. now apply pinned_get.
Qed.

Lemma complete_action_config_lookup_witness :
  exists r,
    complete_action_config Cases.alice_document Cases.defaults_config = inr r /\
    dict_get r "perm" = Some (VStr "640").
Proof.
  apply (complete_action_config_lookup Cases.alice_document Cases.defaults_config
           [("user", VStr "www"); ("perm", VStr "640")]
           (VStr Examples.ca_path) (VStr Examples.crt_path)
           (VStr Examples.key_path) "perm");
    reflexivity.
Defined.

(** X2.  [complete_action_config] is idempotent: completing a completed
    document against the same config leaves it as it is. *)
Theorem complete_action_config_idempotent (domainconfig config r : dict) :
  complete_action_config domainconfig config = inr r ->
  complete_action_config r config = inr r.
Proof.
  intros H. unfold complete_action_config in H.
  apply bind_inr in H as (dv & Hd & H).
  apply bind_inr in H as (ca & Hca & H).
  apply bind_inr in H as (crt & Hcrt & H).
  apply bind_inr in H as (key & Hkey & H).
  apply bind_inr in H as (defaults & Hitems & H).
  destruct dv; try discriminate. injection Hitems as ->.
  unfold getitem in Hd, Hca, Hcrt, Hkey.
  destruct (dict_get config "defaults") eqn:Ed; [|discriminate].
  destruct (dict_get config "ca_file") eqn:Eca; [|discriminate].
  destruct (dict_get config "cert_file") eqn:Ecrt; [|discriminate].
  destruct (dict_get config "key_file") eqn:Ekey; [|discriminate].
  injection Hd as ->. injection Hca as ->. injection Hcrt as ->.
  injection Hkey as ->.
  change (fold_left _ defaults ?d) with (fill_defaults defaults d) in H.
  set (d3 := dict_set _ "key_file" key) in H.
  injection H as H.
  assert (Hget : forall n, dict_get (fill_defaults defaults d3) n <> None ->
                           dict_get r n = dict_get (fill_defaults defaults d3) n).
  { intros n Hn. subst r.
    destruct (dict_mem "action" (fill_defaults defaults d3)) eqn:Em; simpl;
      [reflexivity|].
    rewrite dict_get_set. destruct (String.eqb "action" n) eqn:E; [|reflexivity].
    apply String.eqb_eq in E. subst n. apply dict_mem_false in Em.
    contradiction. }
  assert (Hpin : dict_get r "ca_file" = Some ca /\
                 dict_get r "cert_file" = Some crt /\
                 dict_get r "key_file" = Some key).
  { repeat split; (rewrite Hget; rewrite fill_defaults_get; unfold d3;
      rewrite !dict_get_set; simpl; [reflexivity|discriminate]). }
  destruct Hpin as (Hrca & Hrcrt & Hrkey).
  rewrite (complete_action_config_eq r config defaults ca crt key Ed Eca Ecrt Ekey).
  rewrite (dict_set_same r "ca_file" ca Hrca).
  rewrite (dict_set_same r "cert_file" crt Hrcrt).
  rewrite (dict_set_same r "key_file" key Hrkey).
  cbv zeta.
  assert (Hsame : fill_defaults defaults r = r).
  { apply fill_defaults_same. intros n Hn.
    assert (Hf : dict_get (fill_defaults defaults d3) n <> None).
    { rewrite fill_defaults_get. destruct (dict_get d3 n); [discriminate|exact Hn]. }
    rewrite Hget by exact Hf. exact Hf. }
  rewrite Hsame.
  assert (Hact : dict_mem "action" r = true).
  { subst r. destruct (negb (dict_mem "action" (fill_defaults defaults d3))) eqn:E.
    - unfold dict_mem. now rewrite dict_get_set_eq.
    - now apply negb_false_iff in E. }
  now rewrite Hact.
Qed.

Lemma complete_action_config_idempotent_witness :
  complete_action_config Examples.chain_target Examples.bundle_config
  = inr Examples.chain_target.
Proof.
  apply (complete_action_config_idempotent
           (Examples.target "/srv/chain.pem" "crt,ca" "reload")
           Examples.bundle_config Examples.chain_target).
  vm_compute. reflexivity.
Defined.

End ActionConfigFacts.

(** ** idna_convert *)

Section IdnaFacts.
Import Configuration Hashlib Spec Terms.
Context (L : Libs).

Lemma idna_convert_domain_ascii dt d :
  has_non_ascii d = false -> idna_convert_domain L dt d = inr dt.
Proof. intros H. unfold idna_convert_domain. now rewrite H. Qed.

Lemma idna_convert_loop_ascii l dt :
  Forall (fun d => has_non_ascii d = false) l ->
  idna_convert_loop L l dt = inr dt.
Proof.
  induction 1 as [|d l Hd _ IH]; simpl; [reflexivity|].
  rewrite idna_convert_domain_ascii by exact Hd. simpl. exact IH.
Qed.

(** X3.  Without the [idna] module, or for a list of ASCII names,
    [idna_convert] translates nothing and does not raise: it returns the
    empty mapping. *)
Theorem idna_convert_nothing_to_translate (domainlist : list string) :
  idna_loaded L = false \/ Forall (fun d => has_non_ascii d = false) domainlist ->
  idna_convert L domainlist = inr [].
Proof.
  intros [H|H]; unfold idna_convert.
  - now rewrite H.
  - destruct (idna_loaded L && has_non_ascii (join "" domainlist));
      [now apply idna_convert_loop_ascii|reflexivity].
Qed.

Lemma idna_convert_domain_encoded dt d dt' :
  idna_convert_domain L dt d = inr dt' ->
  if has_non_ascii d
  then exists k, encoded L d = Some k /\ dt' = dict_set dt k d
  else dt' = dt.
Proof.
  unfold idna_convert_domain, encoded.
  destruct (has_non_ascii d); [|now intros [= <-]].
  destruct (startswith "*." d).
  - destruct (idna_encode L (drop_str 2 d)); simpl; [|discriminate].
    intros [= <-]. eauto.
  - destruct (idna_encode L d); simpl; [|discriminate].
    intros [= <-]. eauto.
Qed.

Lemma in_dict_set {V} (d : dictof V) k v k' v' :
  In (k', v') (dict_set d k v) -> (k' = k /\ v' = v) \/ In (k', v') d.
Proof.
  induction d as [|[k0 v0] d IH]; simpl.
  - intros [[= <- <-]|[]]. auto.
  - destruct (String.eqb k0 k) eqn:E; simpl.
    + apply String.eqb_eq in E. subst. intros [[= <- <-]|H]; auto.
    + intros [H|H]; auto. apply IH in H as [H|H]; auto.
Qed.

Lemma idna_convert_loop_entries l dt0 dt :
  idna_convert_loop L l dt0 = inr dt ->
  forall k v, In (k, v) dt ->
    In (k, v) dt0 \/ (In v l /\ has_non_ascii v = true /\ encoded L v = Some k).
Proof.
  revert dt0. induction l as [|d l IH]; intros dt0 H k v Hin; simpl in H.
  - injection H as <-. auto.
  - apply bind_inr in H as (dt1 & H1 & H).
    apply idna_convert_domain_encoded in H1.
    destruct (IH _ H k v Hin) as [Hin1|(Hv & Hna & He)].
    + destruct (has_non_ascii d) eqn:Hd.
      * destruct H1 as (k1 & Hk1 & ->).
        apply in_dict_set in Hin1 as [[-> ->]|Hin1]; [|auto].
        right. simpl. auto.
      * subst dt1. auto.
    + right. simpl. auto.
Qed.

Lemma idna_convert_loop_keys l dt0 dt :
  idna_convert_loop L l dt0 = inr dt ->
  (forall k, dict_get dt0 k <> None -> dict_get dt k <> None) /\
  forall d, In d l -> has_non_ascii d = true ->
    exists k, encoded L d = Some k /\ dict_get dt k <> None.
Proof.
  revert dt0. induction l as [|d l IH]; intros dt0 H; simpl in H.
  - injection H as <-. split; [auto|]. intros d [].
  - apply bind_inr in H as (dt1 & H1 & H).
    apply idna_convert_domain_encoded in H1.
    destruct (IH _ H) as [Hkeep Hall]. split.
    + intros k Hk. apply Hkeep.
      destruct (has_non_ascii d).
      * destruct H1 as (k1 & _ & ->). rewrite dict_get_set.
        destruct (String.eqb k1 k); [discriminate|exact Hk].
      * now subst.
    + intros d' [<-|Hin] Hna; [|now apply Hall].
      rewrite Hna in H1. destruct H1 as (k1 & Hk1 & ->).
      exists k1. split; [exact Hk1|]. apply Hkeep.
      rewrite dict_get_set_eq. discriminate.
Qed.

Lemma has_non_ascii_app a b :
  has_non_ascii (a ++ b) = has_non_ascii a || has_non_ascii b.
Proof.
  unfold has_non_ascii, chars. induction a as [|c a IH]; [reflexivity|].
  rewrite append_cons. cbn [list_ascii_of_string existsb].
  rewrite IH. now rewrite orb_assoc.
Qed.

Lemma has_non_ascii_join l d :
  In d l -> has_non_ascii d = true -> has_non_ascii (join "" l) = true.
Proof.
  induction l as [|x l IH]; [intros []|].
  intros Hin Hd. simpl. destruct l as [|y l'].
  - destruct Hin as [->|[]]. exact Hd.
  - rewrite has_non_ascii_app. change ("" ++ ?s) with s.
    destruct Hin as [->|Hin]; [now rewrite Hd|].
    rewrite (IH Hin Hd). apply orb_true_r.
Qed.

(** X4.  Every entry of the mapping [idna_convert] returns maps the IDNA
    form of a name to that name, the name being a name of the list that is
    not ASCII; and when the [idna] module is loaded, the IDNA form of every
    such name of the list is a key of the mapping. *)
Theorem idna_convert_entries (domainlist : list string) (dt : dictof string) :
  idna_convert L domainlist = inr dt ->
  (forall k v, In (k, v) dt ->
     In v domainlist /\ has_non_ascii v = true /\ encoded L v = Some k) /\
  (idna_loaded L = true ->
   forall d, In d domainlist -> has_non_ascii d = true ->
     exists k, encoded L d = Some k /\ dict_get dt k <> None).
Proof.
  unfold idna_convert. intros H. split.
  - intros k v Hin.
    destruct (idna_loaded L && has_non_ascii (join "" domainlist)).
    + destruct (idna_convert_loop_entries _ _ _ H k v Hin) as [[]|Hv]. exact Hv.
    + injection H as <-. destruct Hin.
  - intros Hl d Hin Hd.
    rewrite Hl, (has_non_ascii_join _ _ Hin Hd) in H. simpl in H.
    now apply (idna_convert_loop_keys _ _ _ H).
Qed.

Lemma idna_convert_loop_error l dt0 d :
  In d l -> has_non_ascii d = true -> encoded L d = None ->
  idna_convert_loop L l dt0 = inl (ValueError "idna").
Proof.
  revert dt0. induction l as [|x l IH]; intros dt0 Hin Hd He; [destruct Hin|].
  simpl. destruct (idna_convert_domain L dt0 x) as [e|dt1] eqn:E; simpl.
  - unfold idna_convert_domain in E. destruct (has_non_ascii x); [|discriminate].
    destruct (startswith "*." x).
    + destruct (idna_encode L (drop_str 2 x)); cbv [bind ret raise] in E;
        congruence.
    + destruct (idna_encode L x); cbv [bind ret raise] in E; congruence.
  - destruct Hin as [->|Hin]; [|now apply IH].
    apply idna_convert_domain_encoded in E. rewrite Hd in E.
    destruct E as (k & Hk & _). congruence.
Qed.

(** X5.  With the [idna] module loaded, an entry whose domain key has a
    name that is not ASCII and that [idna.encode] rejects is not resolved:
    [parse_config_entry] raises the [ValueError] of the encoder. *)
Theorem parse_config_entry_invalid_name
    (domains d : string) (localconfig : list dict) (g r : dict) :
  idna_loaded L = true ->
  In d (split " " domains) -> has_non_ascii d = true -> encoded L d = None ->
  parse_config_entry L (domains, localconfig) g r = inl (ValueError "idna").
Proof.
  intros Hl Hin Hd He. unfold parse_config_entry, idna_convert.
  rewrite Hl, (has_non_ascii_join _ _ Hin Hd). cbn [andb].
  now rewrite (idna_convert_loop_error _ [] d Hin Hd He).
Qed.

End IdnaFacts.

Lemma idna_convert_nothing_to_translate_witness :
  Configuration.idna_convert Examples.libs ["example.com"; "www.example.com"]
  = inr [].
Proof.
  apply (idna_convert_nothing_to_translate Examples.libs
           ["example.com"; "www.example.com"]).
  right. repeat constructor.
Defined.

Lemma idna_convert_entries_witness :
  (forall k v, In (k, v) [("xn--bcher-kva.de", "bücher.de")] ->
     In v ["bücher.de"; "example.com"] /\ has_non_ascii v = true /\
     Terms.encoded Examples.libs v = Some k) /\
  (Configuration.idna_loaded Examples.libs = true ->
   forall d, In d ["bücher.de"; "example.com"] -> has_non_ascii d = true ->
     exists k, Terms.encoded Examples.libs d = Some k /\
               dict_get [("xn--bcher-kva.de", "bücher.de")] k <> None).
Proof.
  apply (idna_convert_entries Examples.libs ["bücher.de"; "example.com"]
           [("xn--bcher-kva.de", "bücher.de")]).
  vm_compute. reflexivity.
Defined.

Lemma parse_config_entry_invalid_name_witness :
  Configuration.parse_config_entry Examples.libs ("example.com köln.example", [])
    [] Examples.runtimeconfig
  = inl (ValueError "idna").
Proof.
  apply (parse_config_entry_invalid_name Examples.libs
           "example.com köln.example" "köln.example" [] [] Examples.runtimeconfig).
  - reflexivity.
  - vm_compute. right. left. reflexivity.
  - vm_compute. reflexivity.
  - vm_compute. reflexivity.
Defined.

(** ** parse_config_entry *)

Section EntryFacts.
Import Configuration Hashlib Spec Terms.
Context (L : Libs).

(** X6.  Every resolved config has exactly these keys, in this order:
    the keys that [main], [cert_get] and [cert_put] read are always
    defined. *)
Theorem resolved_config_keys
    (domains : string) (localconfig : list dict) (g r config : dict) :
  parse_config_entry L (domains, localconfig) g r = inr config ->
  dict_keys config
  = [ "domains"; "domainlist"; "id"; "domaintranslation"; "defaults"; "api";
      "authority"; "authority_tos_agreement"; "authority_contact_email";
      "account_key"; "cert_dir"; "ttl_days"; "cert_revoke_superseded";
      "csr_static"; "csr_file"; "cert_file"; "key_file"; "key_length";
      "static_ca"; "ca_file"; "actions"; "handlers" ].
Proof.
  intros H. apply parse_config_entry_inv in H.
  destruct H as (dt & tos & work_dir & account_key & ttl_days & csr & crt & key &
                 key_length & static_ca & ca_file & actions & localconfig' & H).
  cbv zeta in H. destruct H as (_ & _ & _ & _ & _ & _ & _ & _ & _ & _ & _ & ->).
  reflexivity.
Qed.

(** X7.  In a resolved config [ttl_days] and [key_length] are integers:
    what [int] makes of the value resolved for them (a document, else the
    global config, else 30 and 4096). *)
Theorem resolved_config_numbers
    (domains : string) (localconfig : list dict) (g r config : dict) :
  parse_config_entry L (domains, localconfig) g r = inr config ->
  exists ttl_days key_length,
    py_int L (resolve "ttl_days" localconfig g (VInt DEFAULT_TTL)) = inr ttl_days /\
    py_int L (resolve "key_length" localconfig g (VInt DEFAULT_KEY_LENGTH))
      = inr key_length /\
    dict_get config "ttl_days" = Some (VInt ttl_days) /\
    dict_get config "key_length" = Some (VInt key_length).
Proof.
  intros H. apply parse_config_entry_inv in H.
  destruct H as (dt & tos & work_dir & account_key & ttl_days & csr & crt & key &
                 key_length & static_ca & ca_file & actions & localconfig' & H).
  cbv zeta in H.
  destruct H as (_ & _ & _ & _ & Httl & _ & _ & _ & Hlen & _ & _ & ->).
  exists ttl_days, key_length. repeat split; assumption || reflexivity.
Qed.

(** X8.  In a resolved config [cert_dir] is a [str], and the request, the
    certificate and the key are where a document says, else where the
    global config says (for the certificate and the key its legacy fields
    [server_cert] and [server_key] after [cert_file] and [key_file]), else
    in [cert_dir] under the id of the group with the suffixes [.csr],
    [.crt] and [.key]. *)
Theorem resolved_config_files
    (domains : string) (localconfig : list dict) (g r config : dict) :
  parse_config_entry L (domains, localconfig) g r = inr config ->
  exists cert_dir,
    let id := md5_hexdigest domains in
    dict_get config "cert_dir" = Some (VStr cert_dir) /\
    dict_get config "csr_file"
    = Some (resolve "csr_file" localconfig g
              (VStr (path_join cert_dir (id ++ ".csr")))) /\
    dict_get config "cert_file"
    = Some (resolve "cert_file" localconfig g
              (dict_get_default g "server_cert"
                 (VStr (path_join cert_dir (id ++ ".crt"))))) /\
    dict_get config "key_file"
    = Some (resolve "key_file" localconfig g
              (dict_get_default g "server_key"
                 (VStr (path_join cert_dir (id ++ ".key"))))).
Proof.
  intros H. apply parse_config_entry_inv in H.
  destruct H as (dt & tos & work_dir & account_key & ttl_days & csr & crt & key &
                 key_length & static_ca & ca_file & actions & localconfig' & H).
  cbv zeta in H.
  destruct H as (_ & _ & _ & _ & _ & Hcsr & Hcrt & Hkey & _ & _ & _ & ->).
  unfold os_path_join in *.
  destruct (resolve "cert_dir" localconfig g work_dir) as [| | |cert_dir| |] eqn:E;
    try discriminate.
  injection Hcsr as <-. injection Hcrt as <-. injection Hkey as <-.
  exists cert_dir. cbv zeta. unfold resolved_config.
  cbn [app dict_get String.eqb Ascii.eqb Bool.eqb].
  rewrite E. repeat split; reflexivity.
Qed.

Lemma bind_ret_l {A B} (a : A) (k : A -> result B) : bind (inr a) k = k a.
Proof. reflexivity. Qed.

Lemma getitem_set_eq (d : dict) k v : getitem (dict_set d k v) k = inr v.
Proof. unfold getitem. now rewrite dict_get_set_eq. Qed.

Lemma getitem_set_ne (d : dict) k k' v :
  k <> k' -> getitem (dict_set d k v) k' = getitem d k'.
Proof. intros H. unfold getitem. now rewrite dict_get_set_ne. Qed.

Lemma getitem_some (d : dict) k v : dict_get d k = Some v -> getitem d k = inr v.
Proof. intros H. unfold getitem. now rewrite H. Qed.

Lemma complete_actions_succeeds localconfig config defaults ca crt key :
  dict_get config "defaults" = Some (VDict defaults) ->
  dict_get config "ca_file" = Some ca ->
  dict_get config "cert_file" = Some crt ->
  dict_get config "key_file" = Some key ->
  exists r, complete_actions localconfig config = inr r.
Proof.
  intros Hd Hca Hcrt Hkey. induction localconfig as [|x rest [r IH]]; simpl.
  - eauto.
  - rewrite IH. destruct (dict_mem "path" x).
    + rewrite (complete_action_config_eq x _ _ _ _ _ Hd Hca Hcrt Hkey).
      simpl. eauto.
    + simpl. eauto.
Qed.

Ltac look :=
  rewrite ?getitem_set_ne by discriminate; rewrite getitem_set_eq.
Ltac fwd :=
  first [ rewrite bind_update | rewrite bind_ret_l ]; cbv beta.

(** X9.  An entry is resolved whenever the names of its key convert, the
    runtime config has its two fields with a [str] as work directory,
    [cert_dir] resolves to a [str], [ttl_days] and [key_length] resolve to
    something [int] accepts, and the [defaults] of the global config, if
    any, are a mapping. *)
Theorem parse_config_entry_succeeds
    (domains : string) (localconfig : list dict) (g r : dict)
    (dt : dictof string) (tos : value) (work_dir cert_dir : string)
    (ttl_days key_length : Z) (defaults : dict) :
  idna_convert L (split " " domains) = inr dt ->
  dict_get r "authority_tos_agreement" = Some tos ->
  dict_get r "work_dir" = Some (VStr work_dir) ->
  resolve "cert_dir" localconfig g (VStr work_dir) = VStr cert_dir ->
  py_int L (resolve "ttl_days" localconfig g (VInt DEFAULT_TTL)) = inr ttl_days ->
  py_int L (resolve "key_length" localconfig g (VInt DEFAULT_KEY_LENGTH))
    = inr key_length ->
  dict_get_default g "defaults" (VDict []) = VDict defaults ->
  exists config, parse_config_entry L (domains, localconfig) g r = inr config.
Proof.
  intros Hidna Htos Hwd Hdir Httl Hlen Hdef.
  apply getitem_some in Htos, Hwd.
  unfold parse_config_entry. rewrite Hidna, !Htos, !Hwd. cbv zeta.
  rewrite bind_ret_l.
  set (c0 := if (0 <? length dt)%nat then _ else _).
  do 2 fwd. rewrite bind_ret_l. do 2 fwd.
  rewrite bind_ret_l. unfold os_path_join at 1. rewrite bind_ret_l. fwd.
  rewrite bind_ret_l. fwd. rewrite Hdir.
  fwd. look. rewrite bind_ret_l, Httl, bind_ret_l.
  do 2 fwd.
  look. rewrite bind_ret_l. unfold os_path_join at 1. rewrite bind_ret_l. fwd.
  look. rewrite bind_ret_l. unfold os_path_join at 1. rewrite bind_ret_l. fwd.
  look. rewrite bind_ret_l. unfold os_path_join at 1. rewrite bind_ret_l. fwd.
  fwd. look. rewrite bind_ret_l, Hlen, bind_ret_l.
  rewrite list_contains_str_dicts, app_nil_r.
  set (c1 := dict_set _ "key_length" (VInt key_length)).
  assert (Hc1 : getitem c1 "cert_dir" = inr (VStr cert_dir)).
  { unfold c1. now look. }
  assert (Hca : exists c2 ca,
    (match (if str_contains "ca_file" domains then [VStr domains] else []) with
     | x :: _ => ret (dict_set (dict_set c1 "static_ca" (VBool true)) "ca_file" x)
     | [] =>
         if dict_mem "server_ca" g then
           let* server_ca := getitem g "server_ca" in
           ret (dict_set (dict_set c1 "static_ca" (VBool true)) "ca_file" server_ca)
         else
           let* cert_dir := getitem c1 "cert_dir" in
           let* ca_file := os_path_join cert_dir (md5_hexdigest domains ++ ".ca") in
           ret (dict_set (dict_set c1 "static_ca" (VBool false)) "ca_file"
                  (VStr ca_file))
     end) = inr (dict_set (dict_set c1 "static_ca" (VBool c2)) "ca_file" ca)).
  { destruct (str_contains "ca_file" domains); [eauto|].
    destruct (dict_mem "server_ca" g) eqn:Eg.
    - apply dict_mem_true in Eg as [v Hv]. rewrite (getitem_some _ _ _ Hv).
      simpl. eauto.
    - rewrite Hc1. simpl. eauto. }
  destruct Hca as (c2 & ca & ->). rewrite bind_ret_l.
  set (c3 := dict_set _ "actions" (VList [])).
  destruct (complete_actions_succeeds localconfig c3 defaults ca
              (resolve "cert_file" localconfig g
                 (dict_get_default g "server_cert"
                    (VStr (path_join cert_dir (md5_hexdigest domains ++ ".crt")))))
              (resolve "key_file" localconfig g
                 (dict_get_default g "server_key"
                    (VStr (path_join cert_dir (md5_hexdigest domains ++ ".key"))))))
    as [[actions localconfig'] Hact].
  - unfold c3, c1. rewrite ?dict_get_set_ne by discriminate.
    unfold c0. destruct (0 <? length dt)%nat;
      rewrite ?dict_get_set_ne by discriminate;
      now rewrite dict_get_set_eq, Hdef.
  - unfold c3. rewrite ?dict_get_set_ne by discriminate. apply dict_get_set_eq.
  - unfold c3, c1. rewrite ?dict_get_set_ne by discriminate. apply dict_get_set_eq.
  - unfold c3, c1. rewrite ?dict_get_set_ne by discriminate. apply dict_get_set_eq.
  - rewrite Hact, bind_ret_l. eauto.
Qed.

End EntryFacts.

Lemma resolved_config_keys_witness :
  dict_keys Cases.defaults_config
  = [ "domains"; "domainlist"; "id"; "domaintranslation"; "defaults"; "api";
      "authority"; "authority_tos_agreement"; "authority_contact_email";
      "account_key"; "cert_dir"; "ttl_days"; "cert_revoke_superseded";
      "csr_static"; "csr_file"; "cert_file"; "key_file"; "key_length";
      "static_ca"; "ca_file"; "actions"; "handlers" ].
Proof.
  apply (resolved_config_keys Examples.libs "example.com" [] Cases.defaults_global
           Examples.runtimeconfig Cases.defaults_config).
  vm_compute. reflexivity.
Defined.

Lemma resolved_config_numbers_witness :
  exists ttl_days key_length,
    Configuration.py_int Examples.libs (VStr "14") = inr ttl_days /\
    Configuration.py_int Examples.libs (VInt 2048) = inr key_length /\
    dict_get (Examples.resolved ("example.com", [ [("ttl_days", VStr "14")] ])
                [("key_length", VInt 2048)]) "ttl_days"
    = Some (VInt ttl_days) /\
    dict_get (Examples.resolved ("example.com", [ [("ttl_days", VStr "14")] ])
                [("key_length", VInt 2048)]) "key_length"
    = Some (VInt key_length).
Proof.
  apply (resolved_config_numbers Examples.libs "example.com"
           [ [("ttl_days", VStr "14")] ] [("key_length", VInt 2048)]
           Examples.runtimeconfig).
  vm_compute. reflexivity.
Defined.

Lemma resolved_config_files_witness :
  exists cert_dir,
    dict_get Examples.plain_config "cert_dir" = Some (VStr cert_dir) /\
    dict_get Examples.plain_config "csr_file"
    = Some (VStr (path_join cert_dir "5ababd603b22780302dd8d83498e5172.csr")) /\
    dict_get Examples.plain_config "cert_file"
    = Some (VStr (path_join cert_dir "5ababd603b22780302dd8d83498e5172.crt")) /\
    dict_get Examples.plain_config "key_file"
    = Some (VStr (path_join cert_dir "5ababd603b22780302dd8d83498e5172.key")).
Proof.
  apply (resolved_config_files Examples.libs "example.com" [] []
           Examples.runtimeconfig Examples.plain_config).
  vm_compute. reflexivity.
Defined.

Lemma parse_config_entry_succeeds_witness :
  exists config,
    Configuration.parse_config_entry Examples.libs
      ("example.com www.example.com", [Cases.alice_document])
      Cases.defaults_global Examples.runtimeconfig
    = inr config.
Proof.
  apply (parse_config_entry_succeeds Examples.libs "example.com www.example.com"
           [Cases.alice_document] Cases.defaults_global Examples.runtimeconfig
           [] VNone "/etc/acertmgr" "/etc/acertmgr" 30 4096
           [("user", VStr "www"); ("perm", VStr "640")]);
    vm_compute; reflexivity.
Defined.

(** ** parse_config_entry: the domain names and the deployment targets *)

Section TargetFacts.
Import Configuration Hashlib Spec Terms.
Context (L : Libs).

(** X10.  For a domain key of ASCII names nothing is translated: the
    resolved config keeps the key as [domains], its [domainlist] is the key
    split at every single space (two spaces in a row give an empty name),
    and [domaintranslation] is empty. *)
Theorem resolved_config_ascii_key
    (domains : string) (localconfig : list dict) (g r config : dict) :
  Forall (fun d => has_non_ascii d = false) (split " " domains) ->
  parse_config_entry L (domains, localconfig) g r = inr config ->
  dict_get config "domains" = Some (VStr domains) /\
  dict_get config "domainlist" = Some (VList (map VStr (split " " domains))) /\
  dict_get config "domaintranslation" = Some (VDict []).
Proof.
  intros Hascii H. apply parse_config_entry_inv in H.
  destruct H as (dt & tos & work_dir & account_key & ttl_days & csr & crt & key &
                 key_length & static_ca & ca_file & actions & localconfig' & H).
  cbv zeta in H.
  destruct H as (Hidna & _ & _ & _ & _ & _ & _ & _ & _ & _ & _ & ->).
  assert (Hdt : dt = []).
  { unfold idna_convert in Hidna.
    destruct (idna_loaded L && has_non_ascii (join "" (split " " domains))).
    - rewrite idna_convert_loop_ascii in Hidna by exact Hascii.
      now injection Hidna.
    - now injection Hidna. }
  subst dt. repeat split; reflexivity.
Qed.

Lemma complete_actions_targets localconfig config actions localconfig' :
  complete_actions localconfig config = inr (actions, localconfig') ->
  Forall2 (fun x a => complete_action_config x config = inr a)
    (List.filter (dict_mem "path") localconfig) actions.
Proof.
  revert actions localconfig'.
  induction localconfig as [|x rest IH]; intros actions lc' H; simpl in H.
  - injection H as <- <-. constructor.
  - simpl. destruct (dict_mem "path" x).
    + apply bind_inr in H as (a & Ha & H). apply bind_inr in H as ([as' ls'] & Hr & H).
      injection H as <- <-. constructor; [exact Ha|]. now apply (IH _ ls').
    + apply bind_inr in H as ([as' ls'] & Hr & H). injection H as <- <-.
      now apply (IH _ ls').
Qed.

(** X11.  The [actions] of a resolved config are the documents of the
    entry that have a [path], in their order, completed: each target has
    the [ca_file], [cert_file] and [key_file] of the group, whatever the
    document says for them; for any other name the value of the document,
    else that of the [defaults] of the global config; and an [action],
    [None] if neither gives one. *)
Theorem resolved_config_targets
    (domains : string) (localconfig : list dict) (g r config : dict) :
  parse_config_entry L (domains, localconfig) g r = inr config ->
  exists actions,
    dict_get config "actions" = Some (VList (map VDict actions)) /\
    Forall2
      (fun x a =>
         exists defaults,
           dict_get config "defaults" = Some (VDict defaults) /\
           forall name,
             dict_get a name =
               if pinned name then dict_get config name
               else match dict_get x name with
                    | Some v => Some v
                    | None =>
                        match dict_get defaults name with
                        | Some v => Some v
                        | None =>
                            if String.eqb name "action" then Some VNone else None
                        end
                    end)
      (List.filter (dict_mem "path") localconfig) actions.
Proof.
  intros H. apply parse_config_entry_inv in H.
  destruct H as (dt & tos & work_dir & account_key & ttl_days & csr & crt & key &
                 key_length & static_ca & ca_file & actions & localconfig' & H).
  cbv zeta in H.
  destruct H as (_ & _ & _ & _ & _ & _ & _ & _ & _ & _ & Hact & ->).
  exists actions. split; [reflexivity|].
  apply complete_actions_targets in Hact.
  eapply Forall2_impl; [exact Hact|]. intros x a Ha. cbv beta in Ha.
  set (base := (_ ++ [("actions", VList [])])%list) in Ha.
  pose proof Ha as Ha0.
  unfold complete_action_config in Ha.
  apply bind_inr in Ha as (dv & Hd & Ha).
  apply bind_inr in Ha as (ca & Hca & Ha).
  apply bind_inr in Ha as (crt' & Hcrt & Ha).
  apply bind_inr in Ha as (key' & Hkey & Ha).
  apply bind_inr in Ha as (defaults & Hitems & _).
  destruct dv; try discriminate. injection Hitems as ->.
  unfold getitem in Hd, Hca, Hcrt, Hkey.
  destruct (dict_get base "defaults") eqn:Ed; [|discriminate].
  destruct (dict_get base "ca_file") eqn:Eca; [|discriminate].
  destruct (dict_get base "cert_file") eqn:Ecrt; [|discriminate].
  destruct (dict_get base "key_file") eqn:Ekey; [|discriminate].
  injection Hd as ->. injection Hca as ->. injection Hcrt as ->.
  injection Hkey as ->.
  exists defaults. split; [exact Ed|]. intros name.
  rewrite (complete_action_config_eq x base defaults ca crt' key' Ed Eca Ecrt Ekey)
    in Ha0.
  injection Ha0 as <-. rewrite completed_get. now apply pinned_get.
Qed.

End TargetFacts.

Lemma resolved_config_ascii_key_witness :
  let config := Examples.resolved ("a.com  b.com", []) [] in
  dict_get config "domains" = Some (VStr "a.com  b.com") /\
  dict_get config "domainlist" = Some (VList [VStr "a.com"; VStr ""; VStr "b.com"]) /\
  dict_get config "domaintranslation" = Some (VDict []).
Proof.
  apply (resolved_config_ascii_key Examples.libs "a.com  b.com" [] []
           Examples.runtimeconfig).
  - vm_compute. repeat constructor.
  - vm_compute. reflexivity.
Defined.

Lemma resolved_config_targets_witness :
  exists actions,
    dict_get Cases.alice_config "actions" = Some (VList (map VDict actions)) /\
    Forall2
      (fun x a =>
         exists defaults,
           dict_get Cases.alice_config "defaults" = Some (VDict defaults) /\
           forall name,
             dict_get a name =
               if Terms.pinned name then dict_get Cases.alice_config name
               else match dict_get x name with
                    | Some v => Some v
                    | None =>
                        match dict_get defaults name with
                        | Some v => Some v
                        | None =>
                            if String.eqb name "action" then Some VNone else None
                        end
                    end)
      [Cases.alice_document] actions.
Proof.
  apply (resolved_config_targets Examples.libs "example.com"
           [ [("ttl_days", VInt 14)]; Cases.alice_document ]
           Cases.defaults_global Examples.runtimeconfig Cases.alice_config).
  vm_compute. reflexivity.
Defined.

(** ** load *)

Section LoadFacts.
Import Configuration Hashlib Spec Terms.
Context (L : Libs).

Lemma parse_entries_all entries g r acc cs :
  parse_all L entries g r = inr cs ->
  parse_entries L entries g r acc = ((acc ++ cs)%list, inr tt).
Proof.
  revert acc cs. induction entries as [|entry rest IH]; intros acc cs H; simpl in *.
  - injection H as <-. now rewrite app_nil_r.
  - apply bind_inr in H as (c & Hc & H). apply bind_inr in H as (cs' & Hcs & H).
    injection H as <-. rewrite Hc, (IH _ _ Hcs), <- app_assoc. reflexivity.
Qed.

Lemma parse_entries_error entries g r acc e :
  parse_all L entries g r = inl e ->
  exists acc', parse_entries L entries g r acc = (acc', inl e).
Proof.
  revert acc. induction entries as [|entry rest IH]; intros acc H; simpl in *.
  - discriminate.
  - destruct (parse_config_entry L entry g r) as [e'|c]; simpl in H.
    + injection H as <-. eauto.
    + destruct (parse_all L rest g r) as [e'|cs] eqn:E; simpl in H; [|discriminate].
      injection H as <-. now apply IH.
Qed.

Lemma load_domain_config_file_json content entries g r acc cs :
  json_load L content = inr entries ->
  parse_all L entries g r = inr cs ->
  load_domain_config_file L content g r acc = inr (acc ++ cs)%list.
Proof.
  unfold load_domain_config_file. intros He Hcs.
  now rewrite He, (parse_entries_all _ _ _ _ _ Hcs).
Qed.


(** X13.  When every file the loop of [load] reads is a JSON text whose
    entries all resolve, the loop appends the configs of the entries to the
    list of configs: file by file in the order of the directory listing,
    entry by entry in the order of the file.  (The documents of a JSON
    text are objects of their own, so resolving one entry changes no
    document of another.) *)
Theorem load_domainconfigs_json_in_order
    (dir gfile : string) (files : list (string * string)) (g r : dict)
    (acc : list dict) (css : list (list dict)) :
  Forall2 (fun f cs => exists entries,
             json_load L (snd f) = inr entries /\
             parse_all L entries g r = inr cs)
    (selected L dir gfile files) css ->
  load_domainconfigs L dir gfile files g r acc = inr (acc ++ concat css)%list.
Proof.
  unfold selected. revert acc css.
  induction files as [|[name content] rest IH]; intros acc css H; simpl in *.
  - inversion H. subst. simpl. now rewrite app_nil_r.
  - destruct (is_domain_config_file L dir gfile name) eqn:E; [|now apply IH].
    inversion H as [|f cs fs css' (entries & He & Hcs) Hrest]. subst. simpl in *.
    rewrite (load_domain_config_file_json _ _ _ _ _ _ He Hcs). simpl.
    rewrite (IH _ _ Hrest). now rewrite app_assoc.
Qed.

(** X14.  An exception raised while an entry of a JSON file is resolved
    leaves [load]: if it is not a [ValueError] it is not handled at all, and
    if it is one (a [ttl_days] that is no number, a name the IDNA encoder
    rejects) the file is read again as YAML, where the same entries raise
    it again. *)
Theorem entry_error_aborts_file
    (content : string) (entries : list (string * list dict)) (g r : dict)
    (acc : list dict) (e : exn) :
  json_load L content = inr entries ->
  (is_ValueError e = true -> yaml_safe_load L content = inr entries) ->
  parse_all L entries g r = inl e ->
  load_domain_config_file L content g r acc = inl e.
Proof.
  intros Hj Hy He. unfold load_domain_config_file. rewrite Hj.
  destruct (parse_entries_error _ _ _ acc _ He) as [acc1 ->].
  destruct (is_ValueError e) eqn:Ev; [|reflexivity].
  rewrite (Hy eq_refl). simpl.
  destruct (parse_entries_error _ _ _ acc1 _ He) as [acc2 ->]. reflexivity.
Qed.

End LoadFacts.

Lemma load_domainconfigs_json_in_order_witness :
  Configuration.load_domainconfigs Cases.json_libs "/etc/acertmgr"
    "/etc/acertmgr/acertmgr.conf"
    [ ("pair.conf", Cases.pair_json); ("notes.txt", "{{{");
      ("example.com.conf", Cases.plain_json) ]
    [] Examples.runtimeconfig []
  = inr [Cases.a_config; Cases.b_config; Examples.plain_config].
Proof.
  apply (load_domainconfigs_json_in_order Cases.json_libs "/etc/acertmgr"
           "/etc/acertmgr/acertmgr.conf"
           [ ("pair.conf", Cases.pair_json); ("notes.txt", "{{{");
             ("example.com.conf", Cases.plain_json) ]
           [] Examples.runtimeconfig []
           [[Cases.a_config; Cases.b_config]; [Examples.plain_config]]).
  change (Terms.selected _ _ _ _)
    with [ ("pair.conf", Cases.pair_json);
           ("example.com.conf", Cases.plain_json) ].
  constructor; [|constructor; [|constructor]].
  - exists Cases.pair_entries. split; vm_compute; reflexivity.
  - exists [("example.com", [])]. split; vm_compute; reflexivity.
Defined.

Lemma entry_error_aborts_file_witness :
  Configuration.load_domain_config_file Cases.libs Cases.soon_text []
    Examples.runtimeconfig []
  = inl (ValueError "int").
Proof.
  apply (entry_error_aborts_file Cases.libs Cases.soon_text [Cases.soon_entry]
           [] Examples.runtimeconfig [] (ValueError "int")).
  - vm_compute. reflexivity.
  - intros _. vm_compute. reflexivity.
  - vm_compute. reflexivity.
Defined.

(** ** cert_put *)

Section PutFacts.
Import Configuration Acertmgr Spec Terms.
Context (O : Sys).











End PutFacts.



(** ** main: the renewal step and the two loops *)

Section RunFacts.
Import Configuration Acertmgr Spec Terms.
Context (O : Sys) (T : Tools).

Lemma renew_if_needed_checked config st p c ttl_days valid :
  getitem config "cert_file" = inr (VStr p) ->
  fs (st_world st) !! p <> None ->
  read_pem_file T (VStr p) (st_world st) = inr c ->
  getitem config "ttl_days" = inr ttl_days ->
  is_cert_valid T c ttl_days (st_world st) = inr valid ->
  renew_if_needed T config st
  = if valid then (st, inr (VStr p))
    else mbind (cert_get T config) (fun _ => mret (VStr p)) st.
Proof.
  intros Hcert Hsome Hread Httl Hvalid. unfold renew_if_needed, isfile.
  rewrite Hcert. unfold mbind, lift, get_world, mret. cbn [as_path ret].
  rewrite bool_decide_eq_true_2
    by (destruct (fs (st_world st) !! p); [eauto|contradiction]).
  rewrite Hread, Httl, Hvalid. cbn [negb].
  destruct valid; reflexivity.
Qed.

(** X17.  The renewal step of [main]: a certificate file that is missing
    is not read and [cert_get] is called; one that is there is read first,
    and if reading raises, the step raises and [cert_get] is not called;
    when it was read, [cert_get] is called iff [is_cert_valid] answers
    false, and the state is untouched if it answers true. *)
Theorem renew_if_needed_cases (config : dict) (st : state) (p : string) :
  getitem config "cert_file" = inr (VStr p) ->
  let issue := mbind (cert_get T config) (fun _ => mret (VStr p)) in
  (fs (st_world st) !! p = None -> renew_if_needed T config st = issue st) /\
  (forall e, fs (st_world st) !! p <> None ->
     read_pem_file T (VStr p) (st_world st) = inl e ->
     renew_if_needed T config st = (st, inl e)) /\
  (forall c ttl_days valid, fs (st_world st) !! p <> None ->
     read_pem_file T (VStr p) (st_world st) = inr c ->
     getitem config "ttl_days" = inr ttl_days ->
     is_cert_valid T c ttl_days (st_world st) = inr valid ->
     renew_if_needed T config st
     = if valid then (st, inr (VStr p)) else issue st).
Proof.
  intros Hcert issue. subst issue. split; [|split].
  - intros Hnone. unfold renew_if_needed, isfile. rewrite Hcert.
    unfold mbind, lift, get_world, mret. cbn [as_path ret]. rewrite Hnone.
    rewrite bool_decide_eq_false_2 by (intros [? ?]; discriminate).
    reflexivity.
  - intros e Hsome Hread. unfold renew_if_needed, isfile. rewrite Hcert.
    unfold mbind, lift, get_world, mret. cbn [as_path ret].
    rewrite bool_decide_eq_true_2
      by (destruct (fs (st_world st) !! p); [eauto|contradiction]).
    now rewrite Hread.
  - intros c ttl_days valid. now apply renew_if_needed_checked.
Qed.

Lemma deploy_targets_current p targets actions st :
  Forall (fun t => exists cfg path,
            t = VDict cfg /\ getitem cfg "path" = inr path /\
            target_is_current T path (VStr p) (st_world st) = inr true) targets ->
  deploy_targets O T (VStr p) targets actions st = (st, inr actions).
Proof.
  induction 1 as [|t rest (cfg & path & -> & Hpath & Hcur) _ IH]; [reflexivity|].
  cbn [deploy_targets]. unfold mbind at 1.
  assert (H1 : deploy_target O T (VStr p) (VDict cfg) actions st = (st, inr actions)).
  { unfold deploy_target, mbind, lift, get_world. cbn [ret].
    now rewrite Hpath, Hcur. }
  rewrite H1. exact IH.
Qed.

Lemma process_config_up_to_date config actions st :
  up_to_date T (st_world st) config ->
  process_config O T config actions st = (st, inr actions).
Proof.
  intros (p & c & ttl & targets & Hcert & Hsome & Hread & Httl & Hvalid &
          Hact & Htargets).
  unfold process_config.
  rewrite (mbind_inr _ _ _ _ _
             (renew_if_needed_checked config st p c ttl true
                Hcert Hsome Hread Httl Hvalid)).
  rewrite Hact. cbn [bind ret]. unfold mbind, lift.
  now apply deploy_targets_current.
Qed.

(** X18.  When the certificate of every config is there and valid and
    every target is current, the two loops of [main] change nothing: no
    file is touched, nothing is printed, no command is executed. *)
Theorem run_configs_nothing_to_do (configs : list dict) (st : state) :
  Forall (up_to_date T (st_world st)) configs ->
  run_configs O T (map VDict configs) st = (st, inr tt).
Proof.
  intros H. unfold run_configs.
  assert (Hp : forall actions,
    process_configs O T (map VDict configs) actions st = (st, inr actions)).
  { induction H as [|config rest Hc _ IH]; intros actions; [reflexivity|].
    cbn [map process_configs process_item].
    rewrite (mbind_inr _ _ _ _ _ (process_config_up_to_date config actions st Hc)).
    apply IH. }
  rewrite (mbind_inr _ _ _ _ _ (Hp [])).
  assert (Hnil : set_iter O [] = []).
  { apply Permutation_nil. symmetry. apply set_iter_perm. }
  rewrite Hnil. reflexivity.
Qed.

(** X19.  The loop over the collected actions does not raise on actions
    that are commands or [None], whether the commands succeed or fail: a
    failing command is reported and the loop goes on.  Every command is
    executed, in the order of the iteration, and nothing else happens. *)
Theorem run_actions_never_raises (actions : list value) (st : state) :
  Forall (fun v => v = VNone \/ exists s, v = VStr s) actions ->
  exists st' tr,
    run_actions O actions st = (st', inr tt) /\
    st_trace st' = (st_trace st ++ tr)%list /\
    Forall (fun e => is_executed e = true) tr /\
    commands tr = strings actions.
Proof.
  intros H. revert st.
  induction H as [|v rest Hv _ IH]; intros st.
  - exists st, []. rewrite app_nil_r. repeat split; constructor.
  - cbn [run_actions]. destruct Hv as [->|[s ->]].
    + unfold mbind at 1, mret at 1. destruct (IH st) as (st' & tr & H1 & H2 & H3 & H4).
      exists st', tr. repeat split; assumption.
    + unfold mbind at 1. destruct (shell O s (st_world st)) as [w ok].
      destruct (IH {| st_world := w;
                      st_trace := (st_trace st ++ [Executed s ok])%list |})
        as (st' & tr & H1 & H2 & H3 & H4).
      exists st', (Executed s ok :: tr). split; [exact H1|].
      split; [rewrite H2; cbn [st_trace]; now rewrite <- app_assoc|].
      split; [constructor; [reflexivity|exact H3]|].
      cbn. unfold commands in H4. unfold commands. cbn. now rewrite H4.
Qed.

Lemma run_actions_only_executes actions st st' :
  run_actions O actions st = (st', inr tt) ->
  exists tr,
    st_trace st' = (st_trace st ++ tr)%list /\
    Forall (fun e => is_executed e = true) tr.
Proof.
  revert st. induction actions as [|action rest IH]; intros st H; simpl in H.
  - injection H as <-. exists []. rewrite app_nil_r. auto.
  - apply mbind_inv in H as (st1 & u & H1 & H).
    apply IH in H as (tr & E & Hall).
    destruct action as [| b | z | s | |]; try discriminate.
    + injection H1 as <-. eauto.
    + destruct (shell O s (st_world st)) as [w ok]. injection H1 as <-.
      simpl in E. exists (Executed s ok :: tr). rewrite E, <- app_assoc.
      split; [reflexivity|]. constructor; [reflexivity|exact Hall].
Qed.

Lemma no_executions tr :
  (forall a, executions a tr = 0%nat) ->
  Forall (fun e => is_executed e = false) tr.
Proof.
  intros H. apply List.Forall_forall. intros e Hin.
  destruct e as [| | | | |a ok]; try reflexivity.
  exfalso. specialize (H a). unfold executions in H.
  assert (Hf : In (Executed a ok) (List.filter (is_execution a) tr)).
  { apply filter_In. split; [exact Hin|]. simpl. apply String.eqb_refl. }
  destruct (List.filter (is_execution a) tr); [destruct Hf|discriminate].
Qed.

(** X20.  In a run of the two loops of [main] that completes, every
    command is executed after the last config has been processed: the trace
    of the run is a part without any execution followed by a part of
    executions only. *)
Theorem actions_run_after_all_configs (configs : list value) (st st' : state) :
  run_configs O T configs st = (st', inr tt) ->
  exists tr1 tr2,
    st_trace st' = (st_trace st ++ tr1 ++ tr2)%list /\
    Forall (fun e => is_executed e = false) tr1 /\
    Forall (fun e => is_executed e = true) tr2.
Proof.
  intros H. unfold run_configs in H.
  apply mbind_inv in H as (st1 & actions & H1 & H).
  apply collecting_process_configs in H1 as (tr1 & E1 & Hex & _).
  apply run_actions_only_executes in H as (tr2 & E2 & Hall).
  exists tr1, tr2. rewrite E2, E1, app_assoc. split; [reflexivity|].
  split; [now apply no_executions|exact Hall].
Qed.

End RunFacts.

Lemma renew_if_needed_cases_witness :
  let issue :=
    Acertmgr.mbind (Acertmgr.cert_get Examples.tools Examples.plain_config)
      (fun _ => Acertmgr.mret (VStr Examples.crt_path)) in
  let st := Examples.start Examples.world_expiring in
  (Acertmgr.fs (Acertmgr.st_world st) !! Examples.crt_path = None ->
   Acertmgr.renew_if_needed Examples.tools Examples.plain_config st = issue st) /\
  (forall e, Acertmgr.fs (Acertmgr.st_world st) !! Examples.crt_path <> None ->
     Acertmgr.read_pem_file Examples.tools (VStr Examples.crt_path)
       (Acertmgr.st_world st) = inl e ->
     Acertmgr.renew_if_needed Examples.tools Examples.plain_config st
     = (st, inl e)) /\
  (forall c ttl_days valid,
     Acertmgr.fs (Acertmgr.st_world st) !! Examples.crt_path <> None ->
     Acertmgr.read_pem_file Examples.tools (VStr Examples.crt_path)
       (Acertmgr.st_world st) = inr c ->
     getitem Examples.plain_config "ttl_days" = inr ttl_days ->
     Acertmgr.is_cert_valid Examples.tools c ttl_days (Acertmgr.st_world st)
     = inr valid ->
     Acertmgr.renew_if_needed Examples.tools Examples.plain_config st
     = if valid then (st, inr (VStr Examples.crt_path)) else issue st).
Proof.
  apply (renew_if_needed_cases Examples.tools Examples.plain_config
           (Examples.start Examples.world_expiring) Examples.crt_path).
  reflexivity.
Defined.

Lemma run_configs_nothing_to_do_witness :
  Acertmgr.run_configs Examples.sys Examples.tools
    (map VDict [Examples.bundle_config; Examples.sibling_config])
    (Examples.start Cases.world_deployed)
  = (Examples.start Cases.world_deployed, inr tt).
Proof.
  apply (run_configs_nothing_to_do Examples.sys Examples.tools
           [Examples.bundle_config; Examples.sibling_config]
           (Examples.start Cases.world_deployed)).
  constructor; [|constructor; [|constructor]].
  - exists Examples.crt_path, (Some 60), (VInt 30),
      [VDict Examples.chain_target; VDict Examples.bundle_target].
    repeat split; try (vm_compute; reflexivity); try discriminate.
    constructor; [|constructor; [|constructor]].
    + exists Examples.chain_target, (VStr "/srv/chain.pem").
      repeat split; vm_compute; reflexivity.
    + exists Examples.bundle_target, (VStr "/srv/bundle.pem").
      repeat split; vm_compute; reflexivity.
  - exists Examples.crt_path, (Some 60), (VInt 30), [VDict Examples.bundle_target].
    repeat split; try (vm_compute; reflexivity); try discriminate.
    constructor; [|constructor].
    exists Examples.bundle_target, (VStr "/srv/bundle.pem").
    repeat split; vm_compute; reflexivity.
Defined.

Lemma run_actions_never_raises_witness :
  exists st' tr,
    Acertmgr.run_actions Cases.sys_restricted
      [VStr "false"; VNone; VStr "reload"] (Examples.start Examples.world_without_ca)
    = (st', inr tt) /\
    Acertmgr.st_trace st' = ([] ++ tr)%list /\
    Forall (fun e => Terms.is_executed e = true) tr /\
    Terms.commands tr = ["false"; "reload"].
Proof.
  apply (run_actions_never_raises Cases.sys_restricted
           [VStr "false"; VNone; VStr "reload"]
           (Examples.start Examples.world_without_ca)).
  constructor; [right; eexists; reflexivity|].
  constructor; [left; reflexivity|].
  constructor; [right; eexists; reflexivity|constructor].
Defined.

Lemma actions_run_after_all_configs_witness :
  exists tr1 tr2,
    Acertmgr.st_trace
      (fst (Acertmgr.run_configs Examples.sys Examples.tools
              [VDict Examples.twin_config]
              (Examples.start Examples.world_without_ca)))
    = ([] ++ tr1 ++ tr2)%list /\
    Forall (fun e => Terms.is_executed e = false) tr1 /\
    Forall (fun e => Terms.is_executed e = true) tr2.
Proof.
  apply (actions_run_after_all_configs Examples.sys Examples.tools
           [VDict Examples.twin_config]
           (Examples.start Examples.world_without_ca)).
  vm_compute. reflexivity.
Defined.

(** ** cert_get, create_authority, create_challenge_handler *)

Section WorkflowFacts.
Import Acertmgr Issuance Calls.
Context (C : Collab).

Lemma ibind_cases {A B} (m : I C A) (k : A -> I C B) st st' r :
  ibind C m k st = (st', r) ->
  (exists e, m st = (st', inl e) /\ r = inl e) \/
  (exists st1 a, m st = (st1, inr a) /\ k a st1 = (st', r)).
Proof.
  unfold ibind. destruct (m st) as [st1 [e|a]].
  - intros [= <- <-]. left. eauto.
  - intros H. right. eauto.
Qed.

Section Avoiding.
Context (P : call -> bool).

Lemma avoids_iret {A} (a : A) : avoids C P (iret C a).
Proof.
  intros st st' r [= <- <-]. exists []. now rewrite app_nil_r.
Qed.

Lemma avoids_pure {A} (r : outcome C A) : avoids C P (pure C r).
Proof.
  intros st st' r' [= <- <-]. exists []. now rewrite app_nil_r.
Qed.

Lemma avoids_look settings name : avoids C P (look C settings name).
Proof. apply avoids_pure. Qed.

Lemma avoids_ext {A} (f : env C -> env C * (xexn C + A)) : avoids C P (ext C f).
Proof.
  intros st st' r H. unfold ext in H. destruct (f (i_env C st)) as [e x].
  injection H as <- <-. exists []. simpl. now rewrite app_nil_r.
Qed.

Lemma avoids_isfile path : avoids C P (isfile C path).
Proof. apply avoids_ext. Qed.

Lemma avoids_record c : P c = false -> avoids C P (record C c).
Proof.
  intros Hc st st' r [= <- <-]. exists [c]. simpl. auto.
Qed.

Lemma avoids_ibind_post {A B} (Q : A -> Prop) (m : I C A) (k : A -> I C B) :
  (forall st st' a, m st = (st', inr a) -> Q a) ->
  avoids C P m -> (forall a, Q a -> avoids C P (k a)) ->
  avoids C P (ibind C m k).
Proof.
  intros HQ Hm Hk st st' r H.
  apply ibind_cases in H as [(e & H & ->)|(st1 & a & H1 & H2)].
  - now apply Hm in H.
  - pose proof (HQ _ _ _ H1) as Ha.
    apply Hm in H1 as (tr1 & E1 & F1). apply (Hk a Ha) in H2 as (tr2 & E2 & F2).
    exists (tr1 ++ tr2)%list. rewrite E2, E1, app_assoc. split; [reflexivity|].
    apply Forall_app. auto.
Qed.

Lemma avoids_ibind {A B} (m : I C A) (k : A -> I C B) :
  avoids C P m -> (forall a, avoids C P (k a)) -> avoids C P (ibind C m k).
Proof.
  intros Hm Hk. apply (avoids_ibind_post (fun _ => True)); auto.
Qed.

End Avoiding.

Ltac avoid_tac :=
  repeat first
    [ apply avoids_iret | apply avoids_look | apply avoids_pure
    | apply avoids_isfile | apply avoids_ext
    | apply avoids_record; reflexivity
    | apply avoids_ibind; [|intros ?]
    | match goal with
      | |- avoids _ _ (if ?b then _ else _) => destruct b
      | |- avoids _ _ (match ?o with Some _ => _ | None => _ end) => destruct o
      end ].

Lemma avoids_create_authority P settings :
  (forall path, P (ReadPem path "key") = false) ->
  (forall path, P (NewAccountKey path) = false) ->
  (forall api, P (NewAuthority api) = false) ->
  avoids C P (create_authority C settings).
Proof.
  intros H1 H2 H3. unfold create_authority.
  apply avoids_ibind; [avoid_tac|intros acc_file].
  apply avoids_ibind; [avoid_tac|intros found].
  apply avoids_ibind.
  { destruct found; (apply avoids_ibind; [apply avoids_record; auto|intros ?; avoid_tac]). }
  intros acc_key. apply avoids_ibind; [avoid_tac|intros api].
  apply avoids_ibind; [apply avoids_record; auto|intros ?; avoid_tac].
Qed.

Lemma avoids_create_challenge_handler P settings :
  (forall mode, P (NewHandler mode) = false) ->
  avoids C P (create_challenge_handler C settings).
Proof.
  intros H. unfold create_challenge_handler.
  apply avoids_ibind; [avoid_tac|intros has_mode].
  apply avoids_ibind; [avoid_tac|intros mode].
  apply avoids_ibind; [apply avoids_record; auto|intros ?; avoid_tac].
Qed.

Lemma avoids_challenge_handlers_loop P settings domains handlers :
  (forall mode, P (NewHandler mode) = false) ->
  avoids C P (challenge_handlers_loop C settings domains handlers).
Proof.
  intros H. revert handlers.
  induction domains as [|domain rest IH]; intros handlers; simpl; [avoid_tac|].
  apply avoids_ibind; [avoid_tac|intros hs].
  apply avoids_ibind; [avoid_tac|intros cfg].
  apply avoids_ibind; [now apply avoids_create_challenge_handler|intros h].
  apply avoids_ibind; [avoid_tac|intros k]. apply IH.
Qed.


Lemma avoids_store_static settings crt ca :
  (forall v, dict_get settings "static_ca" = Some v -> truthy v = true) ->
  avoids C is_ca_write (store C settings crt ca).
Proof.
  intros Hs. unfold store.
  apply avoids_ibind; [avoid_tac|intros ttl_days].
  apply avoids_ibind; [avoid_tac|intros valid].
  apply avoids_ibind; [avoid_tac|intros _].
  destruct valid; [|avoid_tac].
  apply avoids_ibind; [avoid_tac|intros cert_file].
  apply avoids_ibind; [avoid_tac|intros _].
  apply avoids_ibind; [avoid_tac|intros _].
  destruct (dict_mem "static_ca" settings); [|avoid_tac].
  apply (avoids_ibind_post _ (fun v => truthy v = true)).
  - intros st st' v H. unfold look, pure in H.
    destruct (dict_get settings "static_ca") as [v'|] eqn:E; [|discriminate].
    injection H as _ <-. now apply Hs.
  - avoid_tac.
  - intros v Hv. rewrite Hv. avoid_tac.
Qed.

(** X22.  [cert_get] never writes the CA certificate of a group whose
    [static_ca] holds (or that has no [static_ca] at all): whatever the
    collaborators do, no call writes a CA file. *)
Theorem cert_get_keeps_static_ca
    (settings : dict) (st st' : istate C) (r : outcome C unit) :
  (forall v, dict_get settings "static_ca" = Some v -> truthy v = true) ->
  cert_get C settings st = (st', r) ->
  exists tr,
    i_calls C st' = (i_calls C st ++ tr)%list /\
    Forall (fun c => is_ca_write c = false) tr.
Proof.
  intros Hs. revert st st' r. change (avoids C is_ca_write (cert_get C settings)).
  unfold cert_get.
  apply avoids_ibind; [avoid_tac|intros _].
  apply avoids_ibind; [apply avoids_create_authority; reflexivity|intros acme].
  apply avoids_ibind; [avoid_tac|intros _].
  apply avoids_ibind; [avoid_tac|intros acme'].
  apply avoids_ibind; [avoid_tac|intros domainlist].
  apply avoids_ibind; [avoid_tac|intros domains].
  apply avoids_ibind; [apply avoids_challenge_handlers_loop; reflexivity|intros hs].
  apply avoids_ibind; [avoid_tac|intros key_file].
  apply avoids_ibind; [avoid_tac|intros key_length].
  apply avoids_ibind; [avoid_tac|intros found].
  apply avoids_ibind; [avoid_tac|intros key].
  apply avoids_ibind; [avoid_tac|intros csr_file].
  apply avoids_ibind; [avoid_tac|intros found'].
  apply avoids_ibind; [avoid_tac|intros static].
  apply avoids_ibind; [avoid_tac|intros cr].
  apply avoids_ibind; [avoid_tac|intros domainlist'].
  apply avoids_ibind; [avoid_tac|intros _].
  apply avoids_ibind; [avoid_tac|intros issued].
  now apply avoids_store_static.
Qed.

(** X23.  Unless [csr_static] says [true], [cert_get] never loads a
    certificate request from a file: whatever the collaborators do, no call
    reads a request. *)
Theorem cert_get_regenerates_csr
    (settings : dict) (st st' : istate C) (r : outcome C unit) :
  (forall v, dict_get settings "csr_static" = Some v -> says_true v = false) ->
  cert_get C settings st = (st', r) ->
  exists tr,
    i_calls C st' = (i_calls C st ++ tr)%list /\
    Forall (fun c => is_csr_read c = false) tr.
Proof.
  intros Hs. revert st st' r. change (avoids C is_csr_read (cert_get C settings)).
  unfold cert_get.
  apply avoids_ibind; [avoid_tac|intros _].
  apply avoids_ibind; [apply avoids_create_authority; reflexivity|intros acme].
  apply avoids_ibind; [avoid_tac|intros _].
  apply avoids_ibind; [avoid_tac|intros acme'].
  apply avoids_ibind; [avoid_tac|intros domainlist].
  apply avoids_ibind; [avoid_tac|intros domains].
  apply avoids_ibind; [apply avoids_challenge_handlers_loop; reflexivity|intros hs].
  apply avoids_ibind; [avoid_tac|intros key_file].
  apply avoids_ibind; [avoid_tac|intros key_length].
  apply avoids_ibind; [avoid_tac|intros found].
  apply avoids_ibind; [avoid_tac|intros key].
  apply avoids_ibind; [avoid_tac|intros csr_file].
  apply avoids_ibind; [avoid_tac|intros found'].
  apply (avoids_ibind_post _ (fun static => static = false)).
  - intros st st' static H. destruct found'; [|now injection H as _ <-].
    apply ibind_cases in H as [(e & _ & H)|(st1 & v & H1 & H2)]; [discriminate|].
    injection H2 as _ <-. unfold look, pure in H1.
    destruct (dict_get settings "csr_static") as [v'|] eqn:E; [|discriminate].
    injection H1 as _ <-. now apply Hs.
  - avoid_tac.
  - intros static ->.
    apply avoids_ibind; [avoid_tac|intros cr].
    apply avoids_ibind; [avoid_tac|intros domainlist'].
    apply avoids_ibind; [avoid_tac|intros _].
    apply avoids_ibind; [avoid_tac|intros issued].
    unfold store. avoid_tac.
Qed.


Lemma settles_ibind {A} (m : I C A) (k : A -> I C unit) :
  avoids C is_final m -> (forall a, settles C (k a)) -> settles C (ibind C m k).
Proof.
  intros Hm Hk st st' r H.
  apply ibind_cases in H as [(e & H & ->)|(st1 & a & H1 & H2)].
  - apply Hm in H as (tr & E & F). exists tr, []. rewrite app_nil_r.
    split; [exact E|]. split; [exact F|]. left. eauto.
  - apply Hm in H1 as (tr1 & E1 & F1).
    apply Hk in H2 as (tr0 & trs & E2 & F2 & S).
    exists (tr1 ++ tr0)%list, trs. rewrite E2, E1, !app_assoc.
    split; [reflexivity|]. split; [|exact S]. apply Forall_app. auto.
Qed.

Lemma calls_ext {A} (f : env C -> env C * (xexn C + A)) st st' r :
  ext C f st = (st', r) -> i_calls C st' = i_calls C st.
Proof.
  unfold ext. destruct (f (i_env C st)) as [e x]. now intros [= <- _].
Qed.

Lemma settles_store settings crt ca : settles C (store C settings crt ca).
Proof.
  intros st st' r H. unfold store in H. exists [].
  apply ibind_cases in H as [(e & H & ->)|(st1 & ttl_days & H1 & H)].
  { unfold look, pure in H. injection H as <- _. exists [].
    rewrite !app_nil_r. repeat split; auto. left. eauto. }
  unfold look, pure in H1. injection H1 as <- _.
  apply ibind_cases in H as [(e & H & ->)|(st2 & valid & H2 & H)].
  { apply calls_ext in H. exists []. rewrite !app_nil_r.
    repeat split; auto. left. eauto. }
  apply calls_ext in H2.
  apply ibind_cases in H as [(e & H & ->)|(st3 & u & H3 & H)];
    [discriminate H|].
  unfold record in H3. injection H3 as <-. destruct valid.
  - match type of H with
    | ?m _ = _ =>
        assert (Hrest : avoids C (fun c => negb (is_store c)) m) by avoid_tac
    end.
    apply Hrest in H as (tr & E & F). cbn [i_calls] in E.
    exists (Validated true :: tr). rewrite E, H2, <- app_assoc.
    split; [reflexivity|]. split; [constructor|].
    right. right. exists tr. split; [reflexivity|].
    eapply Forall_impl; [exact F|]. intros c Hc. now apply negb_false_iff.
  - injection H as <- <-. exists [Validated false]. cbn [i_calls].
    rewrite H2. split; [reflexivity|]. split; [constructor|].
    right. left. auto.
Qed.

(** X24.  Whatever the collaborators do, [cert_get] writes the certificate
    and the CA certificate only after the validity check has accepted the
    issued certificate, and nothing else follows the check.  When the check
    rejects the certificate, nothing is stored and [cert_get] returns
    without raising; and [cert_get] does not return normally unless the
    check has answered. *)
Theorem cert_get_stores_only_valid
    (settings : dict) (st st' : istate C) (r : outcome C unit) :
  cert_get C settings st = (st', r) ->
  exists tr0 trs,
    i_calls C st' = (i_calls C st ++ tr0 ++ trs)%list /\
    Forall (fun c => is_final c = false) tr0 /\
    settled trs r.
Proof.
  revert st st' r. change (settles C (cert_get C settings)).
  unfold cert_get.
  apply settles_ibind; [avoid_tac|intros _].
  apply settles_ibind; [apply avoids_create_authority; reflexivity|intros acme].
  apply settles_ibind; [avoid_tac|intros _].
  apply settles_ibind; [avoid_tac|intros acme'].
  apply settles_ibind; [avoid_tac|intros domainlist].
  apply settles_ibind; [avoid_tac|intros domains].
  apply settles_ibind; [apply avoids_challenge_handlers_loop; reflexivity|intros hs].
  apply settles_ibind; [avoid_tac|intros key_file].
  apply settles_ibind; [avoid_tac|intros key_length].
  apply settles_ibind; [avoid_tac|intros found].
  apply settles_ibind; [avoid_tac|intros key].
  apply settles_ibind; [avoid_tac|intros csr_file].
  apply settles_ibind; [avoid_tac|intros found'].
  apply settles_ibind; [avoid_tac|intros static].
  apply settles_ibind; [avoid_tac|intros cr].
  apply settles_ibind; [avoid_tac|intros domainlist'].
  apply settles_ibind; [avoid_tac|intros _].
  apply settles_ibind; [avoid_tac|intros issued].
  apply settles_store.
Qed.

Lemma isfile_found path found st st' r :
  (forall e, os_isfile C path e = inr found) ->
  isfile C path st = (st', inr r) -> r = found.
Proof.
  intros Hf H. unfold isfile, ext in H. rewrite Hf in H. now injection H as _ <-.
Qed.

Lemma look_found settings name v st st' a :
  dict_get settings name = Some v ->
  look C settings name st = (st', inr a) -> a = v.
Proof.
  intros Hv H. unfold look, pure in H. rewrite Hv in H. now injection H as _ <-.
Qed.

(** X25.  [cert_get] does not replace a key that is there: when the account
    key file and the key file of the certificate exist, whatever else the
    collaborators do, no key is created. *)
Theorem cert_get_keeps_existing_keys
    (settings : dict) (acc_file key_file : value) (st st' : istate C)
    (r : outcome C unit) :
  dict_get settings "account_key" = Some acc_file ->
  dict_get settings "key_file" = Some key_file ->
  (forall e, os_isfile C acc_file e = inr true) ->
  (forall e, os_isfile C key_file e = inr true) ->
  cert_get C settings st = (st', r) ->
  exists tr,
    i_calls C st' = (i_calls C st ++ tr)%list /\
    Forall (fun c => is_key_creation c = false) tr.
Proof.
  intros Hacc Hkey Hfacc Hfkey. revert st st' r.
  change (avoids C is_key_creation (cert_get C settings)).
  unfold cert_get.
  apply avoids_ibind; [avoid_tac|intros _].
  apply avoids_ibind.
  { unfold create_authority.
    apply (avoids_ibind_post _ (fun a => a = acc_file));
      [intros s s' a; now apply look_found|avoid_tac|intros a ->].
    apply (avoids_ibind_post _ (fun found => found = true));
      [intros s s' found; now apply isfile_found|avoid_tac|intros found ->].
    avoid_tac. }
  intros acme.
  apply avoids_ibind; [avoid_tac|intros _].
  apply avoids_ibind; [avoid_tac|intros acme'].
  apply avoids_ibind; [avoid_tac|intros domainlist].
  apply avoids_ibind; [avoid_tac|intros domains].
  apply avoids_ibind; [apply avoids_challenge_handlers_loop; reflexivity|intros hs].
  apply (avoids_ibind_post _ (fun a => a = key_file));
    [intros s s' a; now apply look_found|avoid_tac|intros a ->].
  apply avoids_ibind; [avoid_tac|intros key_length].
  apply (avoids_ibind_post _ (fun found => found = true));
    [intros s s' found; now apply isfile_found|avoid_tac|intros found ->].
  apply avoids_ibind; [avoid_tac|intros key].
  apply avoids_ibind; [avoid_tac|intros csr_file].
  apply avoids_ibind; [avoid_tac|intros found'].
  apply avoids_ibind; [avoid_tac|intros static].
  apply avoids_ibind; [avoid_tac|intros cr].
  apply avoids_ibind; [avoid_tac|intros domainlist'].
  apply avoids_ibind; [avoid_tac|intros _].
  apply avoids_ibind; [avoid_tac|intros issued].
  unfold store. avoid_tac.
Qed.

Lemma ibind_inr {A B} (m : I C A) (k : A -> I C B) st st' b :
  ibind C m k st = (st', inr b) ->
  exists st1 a, m st = (st1, inr a) /\ k a st1 = (st', inr b).
Proof.
  intros H. apply ibind_cases in H as [(e & _ & H)|H]; [discriminate|exact H].
Qed.

(** X26.  For a config whose [handlers] hold a handler config for each
    name of a list, the loop of [cert_get] over the names, when it
    completes, has created exactly one challenge handler per name, in the
    order of the list, each of the mode its handler config names and of
    the mode [standalone] when it names none. *)
Theorem challenge_handlers_modes
    (settings hs : dict) (ds : list string) (cfgs : list dict)
    (acc out : list (hkey * handler C)) (st st' : istate C) :
  dict_get settings "handlers" = Some (VDict hs) ->
  Forall2 (fun d cfg => dict_get hs d = Some (VDict cfg)) ds cfgs ->
  challenge_handlers_loop C settings (map VStr ds) acc st = (st', inr out) ->
  i_calls C st'
  = (i_calls C st ++ map (fun cfg => NewHandler (mode_of_handler cfg)) cfgs)%list.
Proof.
  intros Hhs Hall. revert acc st.
  induction Hall as [|d cfg ds cfgs Hd _ IH]; intros acc st H; simpl in H.
  - injection H as <- _. simpl. now rewrite app_nil_r.
  - apply ibind_inr in H as (st1 & hs' & H1 & H).
    unfold look, pure in H1. rewrite Hhs in H1. injection H1 as <- <-.
    apply ibind_inr in H as (st1 & cfg' & H1 & H).
    unfold pure in H1. cbn [subscript] in H1. rewrite Hd in H1.
    injection H1 as <- <-.
    apply ibind_inr in H as (st1 & h & H1 & H).
    apply ibind_inr in H as (st2 & k & H2 & H).
    unfold pure in H2. injection H2 as <- _.
    apply IH in H. rewrite H. cbn [map]. clear H IH.
    unfold create_challenge_handler in H1.
    apply ibind_inr in H1 as (s2 & has_mode & G2 & H1).
    unfold pure in G2. cbn [contains] in G2. injection G2 as <- <-.
    apply ibind_inr in H1 as (s2 & mode & G2 & H1).
    assert (Hmode : s2 = st /\ mode = mode_of_handler cfg).
    { unfold mode_of_handler, dict_get_default, dict_mem in *.
      destruct (dict_get cfg "mode") as [v|] eqn:E.
      - unfold pure in G2. cbn [subscript] in G2. rewrite E in G2.
        now injection G2 as <- <-.
      - now injection G2 as <- <-. }
    destruct Hmode as [-> ->].
    apply ibind_inr in H1 as (s2 & u & G3 & H1).
    unfold record in G3. injection G3 as <-.
    apply calls_ext in H1. rewrite H1. cbn [i_calls].
    now rewrite <- app_assoc.
Qed.

End WorkflowFacts.

Lemma cert_get_keeps_static_ca_witness :
  exists tr,
    Issuance.i_calls _
      (fst (Issuance.cert_get (IssuanceCases.collab true)
              IssuanceCases.static_config (IssuanceCases.initial true)))
    = ([] ++ tr)%list /\
    Forall (fun c => Calls.is_ca_write c = false) tr.
Proof.
  apply (cert_get_keeps_static_ca (IssuanceCases.collab true)
           IssuanceCases.static_config (IssuanceCases.initial true)
           (fst (Issuance.cert_get (IssuanceCases.collab true)
                   IssuanceCases.static_config (IssuanceCases.initial true)))
           (snd (Issuance.cert_get (IssuanceCases.collab true)
                   IssuanceCases.static_config (IssuanceCases.initial true)))).
  - intros v H. vm_compute in H. injection H as <-. reflexivity.
  - apply surjective_pairing.
Defined.

Lemma cert_get_regenerates_csr_witness :
  exists tr,
    Issuance.i_calls _
      (fst (Issuance.cert_get (IssuanceCases.collab true)
              IssuanceCases.webdir_config (IssuanceCases.initial true)))
    = ([] ++ tr)%list /\
    Forall (fun c => Calls.is_csr_read c = false) tr.
Proof.
  apply (cert_get_regenerates_csr (IssuanceCases.collab true)
           IssuanceCases.webdir_config (IssuanceCases.initial true)
           (fst (Issuance.cert_get (IssuanceCases.collab true)
                   IssuanceCases.webdir_config (IssuanceCases.initial true)))
           (snd (Issuance.cert_get (IssuanceCases.collab true)
                   IssuanceCases.webdir_config (IssuanceCases.initial true)))).
  - intros v H. vm_compute in H. injection H as <-. reflexivity.
  - apply surjective_pairing.
Defined.

Lemma cert_get_stores_only_valid_witness :
  exists tr0 trs,
    Issuance.i_calls _
      (fst (Issuance.cert_get (IssuanceCases.collab false)
              IssuanceCases.webdir_config (IssuanceCases.initial false)))
    = ([] ++ tr0 ++ trs)%list /\
    Forall (fun c => Calls.is_final c = false) tr0 /\
    Calls.settled trs
      (snd (Issuance.cert_get (IssuanceCases.collab false)
              IssuanceCases.webdir_config (IssuanceCases.initial false))).
Proof.
  apply (cert_get_stores_only_valid (IssuanceCases.collab false)
           IssuanceCases.webdir_config (IssuanceCases.initial false)).
  apply surjective_pairing.
Defined.

(** The calls of the two runs: with a certificate the check accepts, the
    certificate and the CA certificate are written; with one it rejects,
    neither is, and [cert_get] returns. *)
Example cert_get_calls :
  (let r := Issuance.cert_get (IssuanceCases.collab true)
              IssuanceCases.webdir_config (IssuanceCases.initial true) in
   snd r = inr tt /\
   Issuance.i_calls _ (fst r)
   = [ Issuance.NewAccountKey (VStr "/etc/acertmgr/account.key");
       Issuance.NewAuthority (VStr "v2");
       Issuance.RegisterAccount;
       Issuance.NewHandler (VStr "standalone");
       Issuance.NewHandler (VStr "webdir");
       Issuance.NewSslKey
         (VStr "/etc/acertmgr/480543b3008926cc9aa49d74fcc4b227.key") (VInt 4096);
       Issuance.NewCertRequest (VList [VStr "a.com"; VStr "b.com"]);
       Issuance.WritePem Issuance.Csr
         (VStr "/etc/acertmgr/480543b3008926cc9aa49d74fcc4b227.csr");
       Issuance.GetCrt (VList [VStr "a.com"; VStr "b.com"]);
       Issuance.Validated true;
       Issuance.WritePem Issuance.Crt
         (VStr "/etc/acertmgr/480543b3008926cc9aa49d74fcc4b227.crt");
       Issuance.WritePem Issuance.Ca
         (VStr "/etc/acertmgr/480543b3008926cc9aa49d74fcc4b227.ca") ]) /\
  (let r := Issuance.cert_get (IssuanceCases.collab false)
              IssuanceCases.webdir_config (IssuanceCases.initial false) in
   snd r = inr tt /\
   In (Issuance.Validated false) (Issuance.i_calls _ (fst r)) /\
   forallb (fun c => negb (Calls.is_store c)) (Issuance.i_calls _ (fst r)) = true).
Proof. vm_compute. repeat split; auto 20. Qed.

Lemma challenge_handlers_modes_witness :
  Issuance.i_calls _
    (fst (Issuance.challenge_handlers_loop (IssuanceCases.collab true)
            IssuanceCases.webdir_config [VStr "a.com"; VStr "b.com"] []
            (IssuanceCases.initial true)))
  = [Issuance.NewHandler (VStr "standalone"); Issuance.NewHandler (VStr "webdir")].
Proof.
  apply (challenge_handlers_modes (IssuanceCases.collab true)
           IssuanceCases.webdir_config IssuanceCases.webdir_handlers
           ["a.com"; "b.com"] [IssuanceCases.handler_a; IssuanceCases.handler_b] []
           [ (Acertmgr.HStr "a.com", VStr "standalone");
             (Acertmgr.HStr "b.com", VStr "webdir") ]
           (IssuanceCases.initial true)).
  - reflexivity.
  - repeat constructor.
  - vm_compute. reflexivity.
Defined.

Lemma cert_get_keeps_existing_keys_witness :
  exists tr,
    Issuance.i_calls _
      (fst (Issuance.cert_get IssuanceCases.collab_with_files
              IssuanceCases.webdir_config
              {| Issuance.i_env := tt : Issuance.env IssuanceCases.collab_with_files;
                 Issuance.i_calls := [] |}))
    = ([] ++ tr)%list /\
    Forall (fun c => Calls.is_key_creation c = false) tr.
Proof.
  apply (cert_get_keeps_existing_keys IssuanceCases.collab_with_files
           IssuanceCases.webdir_config
           (VStr "/etc/acertmgr/account.key")
           (VStr "/etc/acertmgr/480543b3008926cc9aa49d74fcc4b227.key")
           {| Issuance.i_env := tt : Issuance.env IssuanceCases.collab_with_files;
              Issuance.i_calls := [] |}
           (fst (Issuance.cert_get IssuanceCases.collab_with_files
                   IssuanceCases.webdir_config
                   {| Issuance.i_env := tt : Issuance.env IssuanceCases.collab_with_files;
                      Issuance.i_calls := [] |}))
           (snd (Issuance.cert_get IssuanceCases.collab_with_files
                   IssuanceCases.webdir_config
                   {| Issuance.i_env := tt : Issuance.env IssuanceCases.collab_with_files;
                      Issuance.i_calls := [] |}))).
  - reflexivity.
  - reflexivity.
  - reflexivity.
  - reflexivity.
  - apply surjective_pairing.
Defined.
